(** * Yasha bot: expression evaluator and ledger (src/main.py)

    A shallow embedding of the calculator ([safe_eval],
    [eval_expression_with_percent]) and of the bookkeeping functions
    ([add_account], [delete_account], [record_transaction],
    [give_balances], [give_account_statement], the archival branch of
    [message_handler]) of src/main.py, with the properties of the
    specification stated over it.

    Conventions.
    - A Python [str] is a [string]; an [ascii] stands for the code point
      of the same number (0..255).
    - A Python [float] is an IEEE 754 binary64 value, modelled by
      [spec_float] with precision 53 and maximal exponent 1024.
    - The module-level dictionaries [accounts] and [archive] and the two
      JSON files are fields of an explicit [state]; every function that
      reads or writes them is a computation in the monad [M].
    - [datetime.utcnow().isoformat()] reads an oracle of clock readings. *)

From Stdlib Require Import ZArith List String Ascii Bool Lia DecimalString.
From Stdlib Require Import DecimalPos.
From Stdlib Require Import Floats.SpecFloat.
Import ListNotations.

Open Scope string_scope.
Open Scope Z_scope.

(** ** Binary64 floats *)

Definition float : Type := spec_float.

Definition prec : Z := 53.
Definition emax : Z := 1024.

Definition fadd : float -> float -> float := SFadd prec emax.
Definition fsub : float -> float -> float := SFsub prec emax.
Definition fmul : float -> float -> float := SFmul prec emax.
Definition fdiv : float -> float -> float := SFdiv prec emax.
Definition fneg : float -> float := SFopp.

Definition is_zero (x : float) : bool :=
  match x with S754_zero _ => true | _ => false end.

Definition sign_bit (x : float) : bool :=
  match x with
  | S754_zero s | S754_infinity s | S754_finite s _ _ => s
  | S754_nan => false
  end.

(** The binary64 value nearest to [n / d] (ties to even), with the sign
    [s]: what Python's [float(str)], the conversion of a numeric literal,
    of an [int] and of a [Decimal] compute. *)
Definition float_of_ratio (s : bool) (n : Z) (d : positive) : float :=
  match n with
  | Zpos p => fdiv (S754_finite s p 0) (S754_finite false d 0)
  | _ => S754_zero s
  end.

Definition float_of_Z (n : Z) : float :=
  float_of_ratio (n <? 0) (Z.abs n) 1.

(** The exact value of a finite float as a fraction [num / den] of its
    magnitude. *)
Definition magnitude (x : float) : Z * positive :=
  match x with
  | S754_finite _ m e =>
      match e with
      | Zneg k => (Zpos m, Pos.pow 2 k)
      | _ => (Zpos m * 2 ^ e, 1%positive)
      end
  | _ => (0, 1%positive)
  end.

(** ** Characters and strings *)

(** [str.isspace] and the regular expression class [\s] on the code
    points below 256. *)
Definition is_space (c : ascii) : bool :=
  let n := N_of_ascii c in
  (((9 <=? n) && (n <=? 13)) || ((28 <=? n) && (n <=? 32))
   || (n =? 133) || (n =? 160))%N.

Definition is_digit (c : ascii) : bool :=
  let n := N_of_ascii c in ((48 <=? n) && (n <=? 57))%N.

Definition newline : ascii := ascii_of_nat 10.

Fixpoint lstrip (s : string) : string :=
  match s with
  | String c r => if is_space c then lstrip r else s
  | EmptyString => EmptyString
  end.

Fixpoint rstrip (s : string) : string :=
  match s with
  | EmptyString => EmptyString
  | String c r =>
      match rstrip r with
      | EmptyString => if is_space c then EmptyString else String c EmptyString
      | r' => String c r'
      end
  end.

(** [str.strip()] *)
Definition strip (s : string) : string := rstrip (lstrip s).

(** [c in s] for a one-character [c] *)
Fixpoint contains (c : ascii) (s : string) : bool :=
  match s with
  | EmptyString => false
  | String a r => Ascii.eqb a c || contains c r
  end.

(** [s.replace(a, b)] for one-character [a] and [b] *)
Fixpoint replace (a b : ascii) (s : string) : string :=
  match s with
  | EmptyString => EmptyString
  | String c r => String (if Ascii.eqb c a then b else c) (replace a b r)
  end.

Fixpoint all_chars (p : ascii -> bool) (s : string) : bool :=
  match s with
  | EmptyString => true
  | String c r => p c && all_chars p r
  end.

(** The value of a string of decimal digits, most significant first. *)
Fixpoint digits_value (acc : Z) (s : string) : Z :=
  match s with
  | EmptyString => acc
  | String c r => digits_value (10 * acc + (Z.of_N (N_of_ascii c) - 48)) r
  end.

(** The longest prefix of digits and the rest: the greedy [[0-9]*]. *)
Fixpoint span_digits (s : string) : string * string :=
  match s with
  | String c r =>
      if is_digit c then let (d, t) := span_digits r in (String c d, t)
      else (EmptyString, s)
  | EmptyString => (EmptyString, EmptyString)
  end.

(** ** The regular expressions of the calculator *)

(** [[0-9]+(?:\.[0-9]+)?] at the start of [s]: the text matched and the
    rest. In both patterns of the source the number is followed by
    [\s*%], which starts with neither a digit nor a dot, so the greedy
    choice is the only one a backtracking matcher can succeed with. *)
Definition match_number (s : string) : option (string * string) :=
  match span_digits s with
  | (EmptyString, _) => None
  | (ip, r) =>
      match r with
      | String c r' =>
          if Ascii.eqb c "." then
            match span_digits r' with
            | (EmptyString, _) => Some (ip, r)
            | (fp, r'') => Some (ip ++ "." ++ fp, r'')
            end
          else Some (ip, r)
      | EmptyString => Some (ip, r)
      end
  end.

(** [$]: the end of the string, or just before a final line break. *)
Definition at_end (s : string) : bool :=
  match s with
  | EmptyString => true
  | String c EmptyString => Ascii.eqb c newline
  | _ => false
  end.

(** [\s*([0-9]+(?:\.[0-9]+)?)\s*%$]: group 3 of the suffix pattern. *)
Definition match_percent_tail (s : string) : option string :=
  match match_number (lstrip s) with
  | Some (num, r) =>
      match lstrip r with
      | String c r' => if Ascii.eqb c "%" && at_end r' then Some num else None
      | EmptyString => None
      end
  | None => None
  end.

Definition is_sign (c : ascii) : bool := Ascii.eqb c "+" || Ascii.eqb c "-".

(** [re.match(r"^(.*?)([+\-])\s*([0-9]+(?:\.[0-9]+)?)\s*%$", s)]: the
    lazy group 1 is tried at every length in increasing order, and may
    not run over a line break; [pre] is group 1 so far. *)
Fixpoint match_suffix_from (pre s : string) : option (string * ascii * string) :=
  match s with
  | EmptyString => None
  | String c r =>
      let next :=
        if Ascii.eqb c newline then None
        else match_suffix_from (pre ++ String c EmptyString) r in
      if is_sign c then
        match match_percent_tail r with
        | Some num => Some (pre, c, num)
        | None => next
        end
      else next
  end.

Definition match_percent_suffix (s : string) : option (string * ascii * string) :=
  match_suffix_from EmptyString s.

(** [([0-9]+(?:\.[0-9]+)?)\s*%] at the start of [s]: group 1 and the
    number of characters matched. *)
Definition match_inline_percent (s : string) : option (string * nat) :=
  match match_number s with
  | Some (num, r) =>
      match lstrip r with
      | String c r' =>
          if Ascii.eqb c "%"
          then Some (num, (String.length s - String.length r')%nat)
          else None
      | EmptyString => None
      end
  | None => None
  end.

(** [re.sub(r"([0-9]+(?:\.[0-9]+)?)\s*%", r"(\1/100)", s)]: the matches
    are found from left to right and do not overlap; [skip] counts the
    characters of the last match that are still to be passed over. *)
Fixpoint sub_percent_from (skip : nat) (s : string) : string :=
  match s with
  | EmptyString => EmptyString
  | String c r =>
      match skip with
      | S k => sub_percent_from k r
      | O =>
          match match_inline_percent s with
          | Some (num, len) => "(" ++ num ++ "/100)" ++ sub_percent_from (Nat.pred len) r
          | None => String c (sub_percent_from O r)
          end
      end
  end.

Definition sub_percent (s : string) : string := sub_percent_from O s.

(** [ALLOWED.match(s)] for [^[0-9\.\+\-\*\/\%\(\)\s]+$]. *)
Definition allowed_char (c : ascii) : bool :=
  is_digit c || is_space c
  || existsb (Ascii.eqb c) ["."; "+"; "-"; "*"; "/"; "%"; "("; ")"]%char.

Definition allowed_match (s : string) : bool :=
  match s with
  | EmptyString => false
  | _ => all_chars allowed_char s
  end.

(** A text that reaches [eval] as a text of the whitelist, if it
    reaches it at all: all its characters are of the whitelist, or it
    holds no percent sign, and is then stopped by the guard of line 87
    unless it matches the pattern. Any other text holds a percent sign
    and a character outside the whitelist; line 87 hands it to [eval],
    which then runs whatever Python that text spells. *)
Definition guarded (s : string) : bool :=
  all_chars allowed_char s || negb (contains "%" s).

(** [float(s)] for a text matched by [match_number]. *)
Definition float_of_number (s : string) : float :=
  let (ip, r) := span_digits s in
  match r with
  | String "." fp =>
      float_of_ratio false (digits_value 0 (ip ++ fp))
        (Pos.pow 10 (Pos.of_nat (String.length fp)))
  | _ => float_of_ratio false (digits_value 0 ip) 1
  end.

(** ** Decimal numbers of the [decimal] module

    [Decimal(a).quantize(Decimal(10) ** -digits, rounding=ROUND_HALF_UP)]
    in the default context: 28 significant digits, exponents between
    -999999 and 999999, traps on [InvalidOperation] and [Overflow]. *)

Inductive exn : Set := KeyError | InvalidOperation | Overflow | ValueError.

Inductive result (A : Type) : Type :=
  | Ret (a : A)
  | Raise (e : exn).
Arguments Ret {A} a.
Arguments Raise {A} e.

(** A decimal is [(-1)^sign * coeff * 10^exp], or not a number. *)
Inductive decimal : Set :=
  | Dec (sign : bool) (coeff : Z) (exp : Z)
  | DecNaN.

Definition context_prec : Z := 28.
Definition context_Emax : Z := 999999.
Definition context_Etiny : Z := -1000026.

(** The exponent of [Decimal(10) ** -digits]: [-digits] for a power
    10^-d that is representable, the smallest exponent of the context
    below that; a non-negative power of ten within the precision is
    the integer [100...0], of exponent 0, and a longer one is rounded
    to 28 digits. *)
Definition quantum_exponent (digits : Z) : result Z :=
  if 0 <=? digits then Ret (Z.max (- digits) context_Etiny)
  else if context_Emax <? - digits then Raise Overflow
  else Ret (Z.max 0 (- digits - (context_prec - 1))).

(** Rounding [n / d] to an integer, halves away from zero, for
    [0 <= n]: ROUND_HALF_UP looks at the first dropped digit. *)
Definition round_half_up (n : Z) (d : positive) : Z :=
  (2 * n + Zpos d) / (2 * Zpos d).

(** The coefficient of [x] rescaled to the exponent [qe]:
    [|x| / 10^qe] rounded half up. *)
Definition rescale_half_up (x : float) (qe : Z) : Z :=
  let (num, den) := magnitude x in
  match qe with
  | Zpos k => round_half_up num (den * Pos.pow 10 k)
  | Z0 => round_half_up num den
  | Zneg k => round_half_up (num * Zpos (Pos.pow 10 k)) den
  end.

Definition quantize (x : float) (digits : Z) : result decimal :=
  match quantum_exponent digits with
  | Raise e => Raise e
  | Ret qe =>
      match x with
      | S754_nan => Ret DecNaN
      | S754_infinity _ => Raise InvalidOperation
      | S754_zero s => Ret (Dec s 0 qe)
      | S754_finite s _ _ =>
          let k := rescale_half_up x qe in
          if 10 ^ context_prec <=? k then Raise InvalidOperation
          else Ret (Dec s k qe)
      end
  end.

(** [float(q)] for a decimal [q]. *)
Definition float_of_decimal (q : decimal) : float :=
  match q with
  | DecNaN => S754_nan
  | Dec s k (Zneg e) => float_of_ratio s k (Pos.pow 10 e)
  | Dec s k e => float_of_ratio s (k * 10 ^ e) 1
  end.

(** [str(n)] for an integer [n]. *)
Definition str_of_Z (n : Z) : string :=
  NilZero.string_of_int (Z.to_int n).

Fixpoint repeat_char (c : ascii) (n : nat) : string :=
  match n with
  | O => EmptyString
  | S k => String c (repeat_char c k)
  end.

(** [f"{s:>w}"]: [s] pushed to the right in a field of width [w]. *)
Definition pad_left (w : nat) (s : string) : string :=
  repeat_char " " (w - String.length s) ++ s.

(** [f"{q:.{digits}f}"] for a decimal [q] and [0 <= digits]: all the
    digits, [digits] of them after the point; no point for
    [digits = 0]. A negative precision is not a format. *)
Definition format_decimal (q : decimal) (digits : Z) : result string :=
  if digits <? 0 then Raise ValueError
  else
    match q with
    | DecNaN => Ret "NaN"
    | Dec s k e =>
        let d := Z.to_nat digits in
        let n := k * 10 ^ (e + digits) in
        let ds := str_of_Z n in
        let ds := repeat_char "0" (S d - String.length ds) ++ ds in
        let cut := (String.length ds - d)%nat in
        Ret ((if s then "-" else "")
             ++ substring 0 cut ds
             ++ (if Nat.eqb d 0 then "" else "." ++ substring cut d ds))
    end.

(** Line 54: [format_amount(a, digits)]. *)
Definition format_amount (a : float) (digits : Z) : result string :=
  match quantize a digits with
  | Raise e => Raise e
  | Ret q => format_decimal q digits
  end.

(** ** The ledger, the archive and the state *)

(** An entry of an account's history (line 127). *)
Record Transaction : Type := mkTransaction {
  tx_timestamp : string;
  tx_amount : float;
  tx_expr : string;
  tx_comment : string
}.

(** An account (line 102); a ledger file may leave ["digits"] out, and
    the code reads it with [.get("digits", 2)]. *)
Record Account : Type := mkAccount {
  acc_balance : float;
  acc_digits : option Z;
  acc_history : list Transaction
}.

(** An entry of [archive["archived"]] (line 281). *)
Record ArchiveEntry : Type := mkArchiveEntry {
  ar_account : string;
  ar_history : list Transaction;
  ar_archived_at : string
}.

(** A Python [dict] keeps its keys in the order of their insertion. *)
Definition Ledger : Type := list (string * Account).

Record State : Type := mkState {
  accounts : Ledger;
  archive : list ArchiveEntry;
  accounts_file : option Ledger;
  archive_file : option (list ArchiveEntry);
  clock : nat
}.

(** The state of a first start: no file, empty dictionaries. *)
Definition initial_state : State := mkState [] [] None None 0.

Definition get_digits (a : Account) : Z :=
  match acc_digits a with Some d => d | None => 2 end.

Definition keys (l : Ledger) : list string := map fst l.

(** [accounts[k]] and [k in accounts] *)
Fixpoint lookup (k : string) (l : Ledger) : option Account :=
  match l with
  | [] => None
  | (k', a) :: r => if String.eqb k k' then Some a else lookup k r
  end.

Definition mem (k : string) (l : Ledger) : bool :=
  match lookup k l with Some _ => true | None => false end.

(** [accounts[k] = a]: in place for a key of the dictionary, at the end
    for a new one. *)
Fixpoint dict_set (k : string) (a : Account) (l : Ledger) : Ledger :=
  match l with
  | [] => [(k, a)]
  | (k', a') :: r =>
      if String.eqb k k' then (k', a) :: r else (k', a') :: dict_set k a r
  end.

(** [del accounts[k]] *)
Fixpoint dict_del (k : string) (l : Ledger) : Ledger :=
  match l with
  | [] => []
  | (k', a') :: r => if String.eqb k k' then r else (k', a') :: dict_del k r
  end.

(** A change of the inner dictionary [accounts[k]]. *)
Fixpoint update (k : string) (f : Account -> Account) (l : Ledger) : Ledger :=
  match l with
  | [] => []
  | (k', a') :: r =>
      if String.eqb k k' then (k', f a') :: r else (k', a') :: update k f r
  end.

Definition add_to_balance (q : float) (a : Account) : Account :=
  mkAccount (fadd (acc_balance a) q) (acc_digits a) (acc_history a).

Definition append_history (e : Transaction) (a : Account) : Account :=
  mkAccount (acc_balance a) (acc_digits a) (acc_history a ++ [e]).

Definition clear_history (a : Account) : Account :=
  mkAccount (acc_balance a) (acc_digits a) [].

(** ** Computations on the state that may raise *)

Definition M (A : Type) : Type := State -> result A * State.

Definition ret {A} (a : A) : M A := fun st => (Ret a, st).

Definition raise {A} (e : exn) : M A := fun st => (Raise e, st).

Definition bind {A B} (c : M A) (k : A -> M B) : M B :=
  fun st =>
    match c st with
    | (Ret a, st') => k a st'
    | (Raise e, st') => (Raise e, st')
    end.

Declare Scope monad_scope.
Delimit Scope monad_scope with monad.
Notation "x <- c ;; k" := (bind c (fun x => k))
  (at level 61, c at next level, right associativity) : monad_scope.
Notation "c ;;; k" := (bind c (fun _ => k))
  (at level 61, right associativity) : monad_scope.
Open Scope monad_scope.

Definition lift {A} (r : result A) : M A := fun st => (r, st).

Definition get_accounts : M Ledger := fun st => (Ret (accounts st), st).

Definition set_accounts (l : Ledger) : M unit :=
  fun st => (Ret tt,
             mkState l (archive st) (accounts_file st) (archive_file st) (clock st)).

Definition get_archive : M (list ArchiveEntry) :=
  fun st => (Ret (archive st), st).

Definition set_archive (l : list ArchiveEntry) : M unit :=
  fun st => (Ret tt,
             mkState (accounts st) l (accounts_file st) (archive_file st) (clock st)).

(** [save_json(ACCOUNTS_FILE, accounts)]: the whole dictionary is
    written over the file. The write is taken to succeed: the two files
    are the store that the program is given, and an error of the file
    system inside [write_text] is outside this model. *)
Definition save_accounts : M unit :=
  fun st => (Ret tt,
             mkState (accounts st) (archive st) (Some (accounts st))
                     (archive_file st) (clock st)).

(** [save_json(ARCHIVE_FILE, archive)], under the same assumption. *)
Definition save_archive : M unit :=
  fun st => (Ret tt,
             mkState (accounts st) (archive st) (accounts_file st)
                     (Some (archive st)) (clock st)).

(** A [for] loop over a list. *)
Fixpoint for_each {A} (l : list A) (body : A -> M unit) : M unit :=
  match l with
  | [] => ret tt
  | x :: r => body x ;;; for_each r body
  end.

(** A list comprehension whose body may raise. *)
Fixpoint map_m {A B} (f : A -> M B) (l : list A) : M (list B) :=
  match l with
  | [] => ret []
  | x :: r => y <- f x ;; ys <- map_m f r ;; ret (y :: ys)
  end.

(** ["\n".join(lines)] *)
Fixpoint join_lines (lines : list string) : string :=
  match lines with
  | [] => ""
  | [l] => l
  | l :: r => l ++ String newline (join_lines r)
  end.

(** What [record_transaction] returns: [(False, msg)] or [(True, q)]. *)
Inductive Recorded : Type :=
  | Rejected (msg : string)
  | Applied (q : float).

(** ** The program

    The services of the Python runtime that the program calls are the
    variables of this section:
    - [py_eval_float expr] is [float(eval(expr, {"__builtins__": None}, {}))]
      inside the [try] of line 89: [None] when an exception is caught. It
      is a function of the text, which is what [eval] is on a text of the
      whitelist: no name, attribute or call can be written with those
      characters. A text with a percent sign and a character outside the
      whitelist is handed to [eval] as well (line 87), and [eval] can then
      run code that reads and changes [accounts] and [archive]. What the
      program does to the state is therefore stated for [guarded] texts,
      on which the evaluation consults [eval] at texts of the whitelist
      only ([evaluation_sees_whitelist_texts]);
    - [upper] and [lower] are [str.upper] and [str.lower];
    - [utcnow_isoformat n] is what the [n]-th call of
      [datetime.utcnow().isoformat()] returns;
    - [date_and_time ts] is the pair [(date, time)] of lines 151-157. *)

Section Program.

Variable py_eval_float : string -> option float.
Variables upper lower : string -> string.
Variable utcnow_isoformat : nat -> string.
Variable date_and_time : string -> string * string.

(** *** Calculator *)

(** Line 82. The guard of line 87 returns [None] only when the text
    fails the pattern and holds no ["%"]. *)
Definition safe_eval (expr : string) : option float :=
  let expr := strip expr in
  let expr := replace "%" "%" expr in
  if negb (allowed_match expr) && negb (contains "%" expr) then None
  else py_eval_float expr.

(** Line 60. *)
Definition eval_expression_with_percent (expr : string) : option float :=
  let expr := strip expr in
  match match_percent_suffix expr with
  | Some (g1, op, g3) =>
      let left_expr := strip g1 in
      let n := float_of_number g3 in
      match safe_eval left_expr with
      | None => None
      | Some left_val =>
          let percent_val := fmul left_val (fdiv n (float_of_Z 100)) in
          if Ascii.eqb op "+" then Some (fadd left_val percent_val)
          else Some (fsub left_val percent_val)
      end
  | None => safe_eval (sub_percent expr)
  end.

(** *** Bookkeeping *)

(** [datetime.utcnow().isoformat()] *)
Definition utcnow : M string :=
  fun st => (Ret (utcnow_isoformat (clock st)),
             mkState (accounts st) (archive st) (accounts_file st)
                     (archive_file st) (S (clock st))).

(** Line 98. *)
Definition add_account (name : string) (digits : Z) : M (bool * string) :=
  let name := upper name in
  accs <- get_accounts ;;
  if mem name accs then ret (false, "Account already exists.")
  else
    set_accounts (dict_set name (mkAccount (S754_zero false) (Some digits) []) accs) ;;;
    save_accounts ;;;
    ret (true, "The account was added. The accuracy of " ++ str_of_Z digits
               ++ " digits after the decimal point is established.").

(** Line 106. *)
Definition delete_account (name : string) : M (bool * string) :=
  let name := upper name in
  accs <- get_accounts ;;
  if negb (mem name accs) then ret (false, "Account not found.")
  else
    set_accounts (dict_del name accs) ;;;
    save_accounts ;;;
    ret (true, "The account was deleted.").

(** [accounts[account]], which raises for a missing key. *)
Definition get_account (account : string) : M Account :=
  accs <- get_accounts ;;
  match lookup account accs with
  | Some info => ret info
  | None => raise KeyError
  end.

(** A statement that changes [accounts[account]]. *)
Definition modify_account (account : string) (f : Account -> Account) : M unit :=
  _ <- get_account account ;;
  accs <- get_accounts ;;
  set_accounts (update account f accs).

(** Line 114. *)
Definition record_transaction (account expr comment : string) : M Recorded :=
  let account := upper account in
  accs <- get_accounts ;;
  (if mem account accs then ret tt
   else add_account account 2 ;;; ret tt) ;;;
  match eval_expression_with_percent expr with
  | None => ret (Rejected "Couldn't evaluate expression.")
  | Some val =>
      info <- get_account account ;;
      let digits := get_digits info in
      d <- lift (quantize val digits) ;;
      let q := float_of_decimal d in
      modify_account account (add_to_balance q) ;;;
      now <- utcnow ;;
      let entry := mkTransaction now q expr comment in
      modify_account account (append_history entry) ;;;
      save_accounts ;;;
      ret (Applied q)
  end.

(** Line 132. *)
Definition give_balances : M string :=
  accs <- get_accounts ;;
  lines <- map_m (fun '(acc, info) =>
                    bal <- lift (format_amount (acc_balance info) (get_digits info)) ;;
                    ret (bal ++ " " ++ lower acc)) accs ;;
  match lines with
  | [] => ret "No accounts yet."
  | _ => ret ("Of your funds:" ++ String newline (join_lines lines))
  end.

(** Line 141. *)
Definition give_account_statement (account : string) (full : bool) : M string :=
  let account := upper account in
  accs <- get_accounts ;;
  match lookup account accs with
  | None => ret ("Account " ++ account ++ " not found.")
  | Some info =>
      let history := acc_history info in
      let history :=
        if full then history
        else skipn (List.length history - 20) history in
      body <- map_m (fun e =>
                       let (date, time) := date_and_time (tx_timestamp e) in
                       amt <- lift (format_amount (tx_amount e) (get_digits info)) ;;
                       ret (pad_left 10 amt ++ " " ++ date ++ " " ++ time
                            ++ " " ++ tx_comment e))
                    (rev history) ;;
      ret (join_lines (("Details /" ++ account)
                       :: " sum          date  time  comment" :: body))
  end.

(** *** Archival *)

(** The body of the loop of line 279, for the item [(acc, info)]. *)
Definition archive_account (item : string * Account) : M unit :=
  let (acc, info) := item in
  match acc_history info with
  | [] => ret tt
  | h =>
      now <- utcnow ;;
      ar <- get_archive ;;
      set_archive (ar ++ [mkArchiveEntry acc h now]) ;;;
      modify_account acc clear_history
  end.

(** Lines 279-285: the branch of [message_handler] for the text
    "Yasha, verified", with the reply it sends. *)
Definition archive_verified : M string :=
  accs <- get_accounts ;;
  for_each accs archive_account ;;;
  save_accounts ;;;
  save_archive ;;;
  ret "Verified. Past movements moved to archive.".

(** Line 277: the test that selects that branch. *)
Definition is_verified (text : string) : bool :=
  String.eqb (lower (strip text)) "yasha, verified".

End Program.

(** ** A model of the arithmetic of Python's [eval]

    [Py.eval_float] gives [float(eval(s, {"__builtins__": None}, {}))]
    for the texts of the following fragment of Python's expressions,
    and [None] where Python raises on them:

      arith  ::= term (("+" | "-") term)*
      term   ::= factor (("*" | "/" | "%") factor)*
      factor ::= ("+" | "-") factor | NUMBER | "(" arith ")"

    with decimal integers and floating point numbers (a fraction, an
    exponent), blanks, comments, line breaks inside parentheses, and at
    most 200 parentheses open at a time (the bound of CPython's
    tokenizer).
    The rest of the language is outside the model. The properties that
    quantify over all texts are stated for any [py_eval_float]; this
    model is used at the texts of the examples only. *)

Module Py.

Inductive value : Type :=
  | PInt (n : Z)
  | PFloat (x : float).

Inductive binop : Set := Add | Sub | Mul | Div | Mod.
Inductive unop : Set := UPos | UNeg.

Inductive token : Type :=
  | TNum (v : value)
  | TOp (o : binop)
  | TLParen
  | TRParen.

Inductive expr : Type :=
  | Num (v : value)
  | Un (o : unop) (e : expr)
  | Bin (o : binop) (e1 e2 : expr).

(** *** Tokens *)

Definition is_blank (c : ascii) : bool :=
  let n := N_of_ascii c in ((n =? 32) || (n =? 9) || (n =? 12))%N.

Definition is_newline (c : ascii) : bool :=
  let n := N_of_ascii c in ((n =? 10) || (n =? 13))%N.

(** A character that continues a name or a number. *)
Definition is_name_char (c : ascii) : bool :=
  let n := N_of_ascii c in
  (((65 <=? n) && (n <=? 90)) || ((97 <=? n) && (n <=? 122))
   || (n =? 95) || (128 <=? n))%N || is_digit c.

(** The number of characters of a comment, up to the line break. *)
Fixpoint comment_length (s : string) : nat :=
  match s with
  | EmptyString => O
  | String c r => if is_newline c then O else S (comment_length r)
  end.

(** Only blanks, line breaks and comments are left. *)
Fixpoint blank_rest (in_comment : bool) (s : string) : bool :=
  match s with
  | EmptyString => true
  | String c r =>
      if is_newline c then blank_rest false r
      else if in_comment then blank_rest true r
      else if is_blank c then blank_rest false r
      else if Ascii.eqb c "#" then blank_rest true r
      else false
  end.

(** The exponent of a floating point literal: its value and its
    length, [None] for a text that is not an exponent. *)
Definition lex_exponent (s : string) : option (Z * nat) :=
  match s with
  | String c r =>
      if Ascii.eqb c "e" || Ascii.eqb c "E" then
        let '(sg, r') :=
          match r with
          | String "+" t => (Some false, t)
          | String "-" t => (Some true, t)
          | _ => (None, r)
          end in
        match span_digits r' with
        | (EmptyString, _) => None
        | (ds, _) =>
            let v := digits_value 0 ds in
            Some (match sg with Some true => - v | _ => v end,
                  (String.length ds + match sg with Some _ => 2 | None => 1 end)%nat)
        end
      else Some (0, O)
  | EmptyString => Some (0, O)
  end.

Definition float_of_literal (n : Z) (e10 : Z) : float :=
  match e10 with
  | Zneg k => float_of_ratio false n (Pos.pow 10 k)
  | _ => float_of_ratio false (n * 10 ^ e10) 1
  end.

(** A decimal integer other than zero may not start with a zero. *)
Definition valid_integer (ds : string) : bool :=
  match ds with
  | String "0" (String _ _) => all_chars (Ascii.eqb "0") ds
  | _ => true
  end.

(** The numeric literal at the start of [s] and its length. *)
Definition lex_number (s : string) : option (value * nat) :=
  let (ip, r) := span_digits s in
  let '(fp, has_point, r1) :=
    match r with
    | String "." t => let (fp, t') := span_digits t in (fp, true, t')
    | _ => (EmptyString, false, r)
    end in
  if (String.length ip + String.length fp =? 0)%nat then None
  else
    match lex_exponent r1 with
    | None => None
    | Some (e, elen) =>
        let len := (String.length ip + String.length fp
                    + (if has_point then 1 else 0) + elen)%nat in
        let after := substring len 1 s in
        if match after with String c _ => is_name_char c | _ => false end
        then None
        else if has_point || negb (Nat.eqb elen 0) then
          Some (PFloat (float_of_literal (digits_value 0 (ip ++ fp))
                          (e - Z.of_nat (String.length fp))), len)
        else if valid_integer ip then Some (PInt (digits_value 0 ip), len)
        else None
    end.

Definition op_of_char (c : ascii) : option token :=
  if Ascii.eqb c "+" then Some (TOp Add)
  else if Ascii.eqb c "-" then Some (TOp Sub)
  else if Ascii.eqb c "*" then Some (TOp Mul)
  else if Ascii.eqb c "/" then Some (TOp Div)
  else if Ascii.eqb c "%" then Some (TOp Mod)
  else None.

(** The tokens of [s]; [skip] characters belong to the token or the
    comment before, and [depth] parentheses are open. *)
Fixpoint lex (skip depth : nat) (s : string) : option (list token) :=
  match s with
  | EmptyString => Some []
  | String c r =>
      match skip with
      | S k => lex k depth r
      | O =>
          if is_blank c then lex O depth r
          else if is_newline c then
            match depth with
            | O => if blank_rest false r then Some [] else None
            | _ => lex O depth r
            end
          else if Ascii.eqb c "#" then lex (comment_length r) depth r
          else if Ascii.eqb c "(" then
            if (200 <=? depth)%nat then None
            else option_map (cons TLParen) (lex O (S depth) r)
          else if Ascii.eqb c ")" then
            option_map (cons TRParen) (lex O (Nat.pred depth) r)
          else if is_digit c || Ascii.eqb c "." then
            match lex_number s with
            | Some (v, len) => option_map (cons (TNum v)) (lex (Nat.pred len) depth r)
            | None => None
            end
          else
            match op_of_char c with
            | Some t => option_map (cons t) (lex O depth r)
            | None => None
            end
      end
  end.

(** *** Syntax: an operator precedence parser *)

Inductive item : Set :=
  | IBin (o : binop)
  | IUn (o : unop)
  | IParen.

Definition level (o : binop) : nat :=
  match o with Add | Sub => 1 | Mul | Div | Mod => 2 end.

(** The operators on top of the stack that bind at least as tightly
    as [p] are applied to the operands below them; a sign binds more
    tightly than any binary operator. *)
Fixpoint reduce (p : nat) (ops : list item) (vals : list expr)
  : option (list item * list expr) :=
  match ops with
  | IBin o :: ops' =>
      if (p <=? level o)%nat then
        match vals with
        | b :: a :: vals' => reduce p ops' (Bin o a b :: vals')
        | _ => None
        end
      else Some (ops, vals)
  | IUn o :: ops' =>
      match vals with
      | a :: vals' => reduce p ops' (Un o a :: vals')
      | _ => None
      end
  | _ => Some (ops, vals)
  end.

Fixpoint parse (operand : bool) (ops : list item) (vals : list expr)
         (ts : list token) : option expr :=
  match ts with
  | [] =>
      if operand then None
      else match reduce 0 ops vals with
           | Some ([], [e]) => Some e
           | _ => None
           end
  | t :: r =>
      if operand then
        match t with
        | TNum v => parse false ops (Num v :: vals) r
        | TOp Add => parse true (IUn UPos :: ops) vals r
        | TOp Sub => parse true (IUn UNeg :: ops) vals r
        | TLParen => parse true (IParen :: ops) vals r
        | _ => None
        end
      else
        match t with
        | TOp o =>
            match reduce (level o) ops vals with
            | Some (ops', vals') => parse true (IBin o :: ops') vals' r
            | None => None
            end
        | TRParen =>
            match reduce 0 ops vals with
            | Some (IParen :: ops', vals') => parse false ops' vals' r
            | _ => None
            end
        | _ => None
        end
  end.

(** *** Values *)

(** [float(v)]: an integer too large for a float is an
    [OverflowError]. *)
Definition to_float (v : value) : option float :=
  match v with
  | PFloat x => Some x
  | PInt n =>
      match float_of_Z n with
      | S754_infinity _ => None
      | x => Some x
      end
  end.

(** C's [fmod] on finite floats, [y] not zero: exact, with the sign
    of [x]. *)
Definition fmod (x y : float) : float :=
  match x, y with
  | S754_finite sx mx ex, S754_finite _ my ey =>
      let e0 := Z.min ex ey in
      let r := Z.rem (Zpos mx * 2 ^ (ex - e0)) (Zpos my * 2 ^ (ey - e0)) in
      binary_normalize prec emax (if sx then - r else r) e0 sx
  | S754_zero _, S754_finite _ _ _ => x
  | (S754_zero _ | S754_finite _ _ _), S754_infinity _ => x
  | _, _ => S754_nan
  end.

(** [x % y] on floats: the remainder takes the sign of [y]. *)
Definition float_rem (x y : float) : option float :=
  if is_zero y then None
  else
    let m := fmod x y in
    match m with
    | S754_zero _ => Some (S754_zero (sign_bit y))
    | S754_nan => Some m
    | _ => if Bool.eqb (sign_bit y) (sign_bit m) then Some m
           else Some (fadd m y)
    end.

Definition float_op (o : binop) (x y : float) : option float :=
  match o with
  | Add => Some (fadd x y)
  | Sub => Some (fsub x y)
  | Mul => Some (fmul x y)
  | Div => if is_zero y then None else Some (fdiv x y)
  | Mod => float_rem x y
  end.

Definition int_op (o : binop) (a b : Z) : option value :=
  match o with
  | Add => Some (PInt (a + b))
  | Sub => Some (PInt (a - b))
  | Mul => Some (PInt (a * b))
  | Div =>
      if b =? 0 then None
      else
        match float_of_ratio (xorb (a <? 0) (b <? 0)) (Z.abs a) (Z.to_pos (Z.abs b)) with
        | S754_infinity _ => None
        | x => Some (PFloat x)
        end
  | Mod => if b =? 0 then None else Some (PInt (a mod b))
  end.

Definition apply_binop (o : binop) (v w : value) : option value :=
  match v, w with
  | PInt a, PInt b => int_op o a b
  | _, _ =>
      match to_float v, to_float w with
      | Some x, Some y => option_map PFloat (float_op o x y)
      | _, _ => None
      end
  end.

Definition apply_unop (o : unop) (v : value) : value :=
  match o, v with
  | UPos, _ => v
  | UNeg, PInt n => PInt (- n)
  | UNeg, PFloat x => PFloat (fneg x)
  end.

Fixpoint eval_expr (e : expr) : option value :=
  match e with
  | Num v => Some v
  | Un o a => option_map (apply_unop o) (eval_expr a)
  | Bin o a b =>
      match eval_expr a, eval_expr b with
      | Some v, Some w => apply_binop o v w
      | _, _ => None
      end
  end.

Definition eval (s : string) : option value :=
  match lex O O s with
  | Some ts =>
      match parse true [] [] ts with
      | Some e => eval_expr e
      | None => None
      end
  | None => None
  end.

Definition eval_float (s : string) : option float :=
  match eval s with
  | Some v => to_float v
  | None => None
  end.

End Py.

(** ** A runtime for the examples

    [str.upper] and [str.lower] on the letters of ASCII, a clock that
    ticks once a second from 2024-05-17T10:30:00, and the date and time
    of the strings that this clock gives. *)

Module Sample.

Definition upper_char (c : ascii) : ascii :=
  let n := N_of_ascii c in
  if ((97 <=? n) && (n <=? 122))%N then ascii_of_N (n - 32) else c.

Definition lower_char (c : ascii) : ascii :=
  let n := N_of_ascii c in
  if ((65 <=? n) && (n <=? 90))%N then ascii_of_N (n + 32) else c.

Fixpoint map_chars (f : ascii -> ascii) (s : string) : string :=
  match s with
  | EmptyString => EmptyString
  | String c r => String (f c) (map_chars f r)
  end.

Definition upper : string -> string := map_chars upper_char.
Definition lower : string -> string := map_chars lower_char.

Definition two_digits (n : nat) : string :=
  let s := str_of_Z (Z.of_nat n) in
  if (String.length s <? 2)%nat then "0" ++ s else s.

Definition utcnow_isoformat (n : nat) : string :=
  "2024-05-17T10:" ++ two_digits (30 + n / 60) ++ ":" ++ two_digits (n mod 60).

Definition date_and_time (ts : string) : string * string :=
  (substring 8 2 ts ++ "." ++ substring 5 2 ts, substring 11 5 ts).

Definition evaluate : string -> option float :=
  eval_expression_with_percent Py.eval_float.

Definition record : string -> string -> string -> M Recorded :=
  record_transaction Py.eval_float upper utcnow_isoformat.

Definition add : string -> Z -> M (bool * string) := add_account upper.

Definition delete : string -> M (bool * string) := delete_account upper.

Definition verified : M string := archive_verified utcnow_isoformat.

(** The state after a computation, whatever it returned. *)
Definition after {A} (c : M A) (st : State) : State := snd (c st).

End Sample.

(** ** The commands of the bot and the states they reach *)

Inductive Command : Type :=
  | CmdAdd (name : string) (digits : Z)
  | CmdDelete (name : string)
  | CmdRecord (account expr comment : string)
  | CmdBalances
  | CmdStatement (account : string) (full : bool)
  | CmdVerified.

Definition is_delete (c : Command) : bool :=
  match c with CmdDelete _ => true | _ => false end.

(** The expression of the command, if it has one, is [guarded]. *)
Definition guarded_command (c : Command) : bool :=
  match c with
  | CmdRecord _ expr _ => guarded expr
  | _ => true
  end.

(** The names that the commands give to [add_account] and to
    [record_transaction]. *)
Definition given_names (cs : list Command) : list string :=
  flat_map (fun c => match c with
                     | CmdAdd name _ => [name]
                     | CmdRecord account _ _ => [account]
                     | _ => []
                     end) cs.





Definition has_history (item : string * Account) : bool :=
  match acc_history (snd item) with [] => false | _ => true end.


Section Run.

Variable py_eval_float : string -> option float.
Variables upper lower : string -> string.
Variable utcnow_isoformat : nat -> string.
Variable date_and_time : string -> string * string.

(** The state after a command; a command that raises leaves the state
    as it was when the exception occurred. *)
Definition run (c : Command) (st : State) : State :=
  match c with
  | CmdAdd name digits => snd (add_account upper name digits st)
  | CmdDelete name => snd (delete_account upper name st)
  | CmdRecord account expr comment =>
      snd (record_transaction py_eval_float upper utcnow_isoformat
             account expr comment st)
  | CmdBalances => snd (give_balances lower st)
  | CmdStatement account full =>
      snd (give_account_statement upper date_and_time account full st)
  | CmdVerified => snd (archive_verified utcnow_isoformat st)
  end.

Definition run_all (cs : list Command) (st : State) : State :=
  fold_left (fun s c => run c s) cs st.

(** The archive entries of one archival run over the ledger [l], the
    first of them stamped with the reading number [n] of the clock. *)
Fixpoint archive_entries (n : nat) (l : Ledger) : list ArchiveEntry :=
  match l with
  | [] => []
  | (k, a) :: r =>
      match acc_history a with
      | [] => archive_entries n r
      | h => mkArchiveEntry k h (utcnow_isoformat n) :: archive_entries (S n) r
      end
  end.

End Run.

(** *** Accounts that come back

    [delete_account] removes an account and leaves its archive entries.
    A command revives an id when it creates an account under an id of
    which the archive still holds entries. *)

Section Revival.

Variable py_eval_float : string -> option float.
Variables upper lower : string -> string.
Variable utcnow_isoformat : nat -> string.
Variable date_and_time : string -> string * string.




End Revival.

(** The ledger after an archival run: every history is empty. *)
Definition cleared (l : Ledger) : Ledger :=
  map (fun item => (fst item, clear_history (snd item))) l.


(** ** The shapes of texts that the properties speak of *)

(** A non-empty text of digits. *)
Definition digit_text (s : string) : Prop :=
  s <> EmptyString /\ all_chars is_digit s = true.

(** A text of the form [[0-9]+(\.[0-9]+)?]: the [N] of [N%]. *)
Inductive number_text : string -> Prop :=
  | integer_text : forall ip, digit_text ip -> number_text ip
  | decimal_text : forall ip fp,
      digit_text ip -> digit_text fp -> number_text (ip ++ "." ++ fp).

(** A text of white space, possibly empty. *)
Definition blank_text (s : string) : Prop := all_chars is_space s = true.

(** A number, white space and a percent sign stand at the start of
    [s]: the pattern of line 77 matches there. *)
Definition percent_here (s : string) : Prop :=
  exists num w rest,
    number_text num /\ blank_text w /\ s = num ++ w ++ String "%" rest.

(** [t] is [s] with every [N%] rewritten to [(N/100)]: read from left
    to right, each number with its percent sign is replaced, the [N]
    as it is written, and a character at which no number with a
    percent sign starts is kept. *)
Inductive rewritten : string -> string -> Prop :=
  | rewritten_end : rewritten "" ""
  | rewritten_percent : forall num w rest t,
      number_text num -> blank_text w -> rewritten rest t ->
      rewritten (num ++ w ++ String "%" rest) ("(" ++ num ++ "/100)" ++ t)
  | rewritten_kept : forall c rest t,
      ~ percent_here (String c rest) -> rewritten rest t ->
      rewritten (String c rest) (String c t).

(** The characters that the end of the suffix pattern, [\s*N\s*%$],
    can run over. *)
Definition tail_char (c : ascii) : bool :=
  is_space c || is_digit c || Ascii.eqb c "." || Ascii.eqb c "%".


(** ** The invariant of the ledger and the archive *)




(** A computation that leaves the state as it is, whatever it returns. *)
Definition reads_only {A} (c : M A) : Prop := forall st, snd (c st) = st.


(** The first character of [r], if any, is neither a digit nor a point:
    a number ends before [r]. *)
Definition ends_number (r : string) : Prop :=
  match r with
  | String c _ => is_digit c = false /\ Ascii.eqb c "." = false
  | EmptyString => True
  end.

(** ** The command handlers *)

(** What a handler does with a message: it sends one reply, or an
    exception leaves it. An [IndexError] is the one exception of the
    handlers that the bookkeeping functions never raise. *)
Inductive Reaction : Type :=
  | Replied (text : string)
  | Raised (e : exn)
  | RaisedIndexError.

(** The reaction to the result of a bookkeeping function whose value is
    the text of the reply. *)
Definition react (c : M string) (st : State) : Reaction * State :=
  match c st with
  | (Ret text, st') => (Replied text, st')
  | (Raise e, st') => (Raised e, st')
  end.

(** What [rate_query] returns (line 163): the pair [(None, info)] of a
    failure, or the triple of a conversion. *)
Inductive RateOutcome : Type :=
  | RateFailure (info : string)
  | RateTriple.

Definition is_letter (c : ascii) : bool :=
  let n := N_of_ascii c in
  (((65 <=? n) && (n <=? 90)) || ((97 <=? n) && (n <=? 122)))%N.

Definition is_alnum (c : ascii) : bool := is_letter c || is_digit c.

(** The longest prefix of characters that satisfy [p], and the rest. *)
Fixpoint span_chars (p : ascii -> bool) (s : string) : string * string :=
  match s with
  | String c r =>
      if p c then let (d, t) := span_chars p r in (String c d, t)
      else (EmptyString, s)
  | EmptyString => (EmptyString, EmptyString)
  end.

(** Exactly [n] characters that satisfy [p], and the rest. *)
Fixpoint take_chars (p : ascii -> bool) (n : nat) (s : string)
  : option (string * string) :=
  match n with
  | O => Some (EmptyString, s)
  | S k =>
      match s with
      | String c r =>
          if p c then
            match take_chars p k r with
            | Some (d, t) => Some (String c d, t)
            | None => None
            end
          else None
      | EmptyString => None
      end
  end.

(** [s[n:]] *)
Fixpoint drop (n : nat) (s : string) : string :=
  match n, s with
  | S k, String _ r => drop k r
  | _, _ => s
  end.

(** [s.startswith("/")] *)
Definition starts_with_slash (s : string) : bool :=
  match s with
  | String c _ => Ascii.eqb c "/"
  | EmptyString => false
  end.

(** [rest.split(maxsplit=1)]: the first word, and what follows the
    white space after it, if anything does. *)
Definition split_once (s : string) : list string :=
  match lstrip s with
  | EmptyString => []
  | s1 =>
      let (word, r) := span_chars (fun c => negb (is_space c)) s1 in
      match lstrip r with
      | EmptyString => [word]
      | r' => [word; r']
      end
  end.

(** *** The pattern of a rate query (line 293)

    Without regard to case: an optional [rate\s+], the pair
    [[A-Za-z]{3,4}[_\/\\-]?[A-Za-z]{3,4}] as group 2, white space, and
    as group 3 the characters of [[0-9\.\,]] up to the end. *)

Definition is_pair_separator (c : ascii) : bool :=
  existsb (Ascii.eqb c) ["_"; "/"; "\"; "-"]%char.

Definition is_amount_char (c : ascii) : bool :=
  is_digit c || Ascii.eqb c "." || Ascii.eqb c ",".

(** White space, then digits, points and commas up to [$]: group 3. *)
Definition match_amount_tail (s : string) : option string :=
  let (amt, r) := span_chars is_amount_char (lstrip s) in
  if at_end r then Some amt else None.

(** The pair with [n1] letters, a separator or none, and [n2] letters,
    followed by the end of the pattern: groups 2 and 3. *)
Definition match_pair_with (n1 : nat) (sep : bool) (n2 : nat) (s : string)
  : option (string * string) :=
  match take_chars is_letter n1 s with
  | Some (a, r1) =>
      match take_chars is_pair_separator (if sep then 1 else 0) r1 with
      | Some (b, r2) =>
          match take_chars is_letter n2 r2 with
          | Some (c, r3) =>
              match match_amount_tail r3 with
              | Some amt => Some (a ++ b ++ c, amt)
              | None => None
              end
          | None => None
          end
      | None => None
      end
  | None => None
  end.

Fixpoint first_match {A B} (f : A -> option B) (l : list A) : option B :=
  match l with
  | [] => None
  | x :: r =>
      match f x with
      | Some y => Some y
      | None => first_match f r
      end
  end.

(** The repetitions are greedy: the matcher tries four letters before
    three, and a separator before none. *)
Definition match_pair (s : string) : option (string * string) :=
  first_match (fun '(n1, sep, n2) => match_pair_with n1 sep n2 s)
    [(4, true, 4); (4, true, 3); (4, false, 4); (4, false, 3);
     (3, true, 4); (3, true, 3); (3, false, 4); (3, false, 3)]%nat.

Definition same_letter (c l : ascii) : bool :=
  Ascii.eqb c l || (N_of_ascii c + 32 =? N_of_ascii l)%N.

(** [rate\s+] without regard to case: the text after it. *)
Definition match_rate_prefix (s : string) : option string :=
  match s with
  | String r (String a (String t (String e (String w rest)))) =>
      if same_letter r "r" && same_letter a "a" && same_letter t "t"
         && same_letter e "e" && is_space w
      then Some (lstrip rest)
      else None
  | _ => None
  end.

Definition match_rate (s : string) : option (string * string) :=
  match match_rate_prefix s with
  | Some r =>
      match match_pair r with
      | Some x => Some x
      | None => match_pair s
      end
  | None => match_pair s
  end.

(** [float(amt.replace(",", "."))] for a text of digits, points and
    commas: a [ValueError] unless it is a number with at most one
    point and at least one digit. *)
Definition float_of_amount (s : string) : result float :=
  let (ip, r) := span_digits (replace "," "." s) in
  match r with
  | EmptyString =>
      match ip with
      | EmptyString => Raise ValueError
      | _ => Ret (float_of_ratio false (digits_value 0 ip) 1)
      end
  | String c r' =>
      let (fp, r'') := span_digits r' in
      if Ascii.eqb c "." && (String.length r'' =? 0)%nat
         && negb (String.length ip + String.length fp =? 0)%nat
      then Ret (float_of_ratio false (digits_value 0 (ip ++ fp))
                  (Z.to_pos (10 ^ Z.of_nat (String.length fp))))
      else Raise ValueError
  end.

(** *** The pattern of a bookkeeping entry (line 306)

    [^([A-Za-z0-9]{1,12})\s+(.+)$] *)

(** [(.+)$]: a line that is not empty, up to the end of the text. *)
Definition match_line (s : string) : option string :=
  let (t, r) := span_chars (fun c => negb (Ascii.eqb c newline)) s in
  match t with
  | EmptyString => None
  | _ => if at_end r then Some t else None
  end.

(** [\s+(.+)$] after the white space [ws]: the matcher takes all of it,
    then gives it back character by character, down to one. *)
Fixpoint match_entry_rest (j : nat) (ws r : string) : option string :=
  match j with
  | O => None
  | S j' =>
      match match_line (drop j ws ++ r) with
      | Some t => Some t
      | None => match_entry_rest j' ws r
      end
  end.

Definition match_account_entry (s : string) : option (string * string) :=
  let (acc, r) := span_chars is_alnum s in
  if ((1 <=? String.length acc) && (String.length acc <=? 12))%nat then
    let (ws, r') := span_chars is_space r in
    match match_entry_rest (String.length ws) ws r' with
    | Some rest => Some (acc, rest)
    | None => None
    end
  else None.

(** *** The pattern of a Bitcoin address (line 334)

    [^(1|3|bc1)[A-Za-z0-9]{25,}$] *)

Definition match_address_body (s : string) : bool :=
  let (t, r) := span_chars is_alnum s in
  (25 <=? String.length t)%nat && at_end r.

Definition match_address (s : string) : bool :=
  match s with
  | String c r =>
      if Ascii.eqb c "1" || Ascii.eqb c "3" then match_address_body r
      else
        match s with
        | String b (String c' (String o r')) =>
            Ascii.eqb b "b" && Ascii.eqb c' "c" && Ascii.eqb o "1"
            && match_address_body r'
        | _ => false
        end
  | EmptyString => false
  end.

(** *** The handlers

    Beside the services of [Program], [py_int s] is [int(s)] ([None] for
    a [ValueError]), [rate_query g2 amount] is what the call of line
    298 returns for the message at hand, and [address_reply text] is the
    reply of lines 335-345 to a Bitcoin address. *)

Section Handlers.

Variable py_eval_float : string -> option float.
Variables upper lower : string -> string.
Variable utcnow_isoformat : nat -> string.
Variable date_and_time : string -> string * string.
Variable py_int : string -> option Z.
Variable rate_query : string -> float -> RateOutcome.
Variable address_reply : string -> string.

(** Line 247: [/add <name> [digits]]. *)
Definition add_cmd (args : list string) (st : State) : Reaction * State :=
  match args with
  | [] => (Replied "Usage: /add usd [digits]", st)
  | name :: more =>
      match (match more with
             | [] => Some 2
             | d :: _ => py_int d
             end) with
      | None => (Raised ValueError, st)
      | Some digits =>
          react (r <- add_account upper name digits ;; ret (snd r)) st
      end
  end.

(** Line 257: [/delete <name>]. *)
Definition delete_cmd (args : list string) (st : State) : Reaction * State :=
  match args with
  | [] => (Replied "Usage: /delete usd", st)
  | name :: _ => react (r <- delete_account upper name ;; ret (snd r)) st
  end.

(** Line 265: [/give] and [/give <account>]. *)
Definition give_cmd (args : list string) (st : State) : Reaction * State :=
  match args with
  | [] => react (give_balances lower) st
  | account :: _ =>
      react (give_account_statement upper date_and_time account false) st
  end.

(** Lines 318-323: the entry is recorded, then the reply is built from
    [accounts[acc]], with the id as it was typed. *)
Definition book_entry (acc expr comment : string) (st : State)
  : Reaction * State :=
  match record_transaction py_eval_float upper utcnow_isoformat
          acc expr comment st with
  | (Raise e, st') => (Raised e, st')
  | (Ret (Rejected msg), st') => (Replied msg, st')
  | (Ret (Applied q), st') =>
      match lookup acc (accounts st') with
      | None => (Raised KeyError, st')
      | Some info =>
          let digits := get_digits info in
          match format_amount q digits with
          | Raise e => (Raised e, st')
          | Ret amount =>
              match format_amount (acc_balance info) digits with
              | Raise e => (Raised e, st')
              | Ret total =>
                  (Replied ("Remember. " ++ amount
                            ++ String newline ("Balance: " ++ total ++ " " ++ lower acc)),
                   st')
              end
          end
      end
  end.

(** Lines 296-303: the two values of a failure are unpacked and the
    text is sent; the three values of a conversion do not unpack into
    [res, info]. *)
Definition rate_reply (g2 g3 : string) (st : State) : Reaction * State :=
  let amt := match g3 with EmptyString => "1" | _ => g3 end in
  match float_of_amount amt with
  | Raise e => (Raised e, st)
  | Ret amount =>
      match rate_query g2 amount with
      | RateFailure info => (Replied info, st)
      | RateTriple => (Raised ValueError, st)
      end
  end.

(** Lines 326-330: the calculator. *)
Definition calculator_reply (body : string) (st : State) : Reaction * State :=
  match eval_expression_with_percent py_eval_float body with
  | None =>
      (Replied "Couldn't evaluate the expression or unrecognized command.", st)
  | Some val =>
      match format_amount val 8 with
      | Raise e => (Raised e, st)
      | Ret text => (Replied (body ++ " = " ++ text), st)
      end
  end.

(** Line 274. *)
Definition message_handler (text : string) (st : State) : Reaction * State :=
  let text := strip text in
  if String.eqb (lower text) "yasha, verified" then
    react (archive_verified utcnow_isoformat) st
  else if starts_with_slash text then
    let body := strip (drop 1 text) in
    match match_rate body with
    | Some (g2, g3) => rate_reply g2 g3 st
    | None =>
        match match_account_entry body with
        | Some (acc, rest) =>
            match split_once rest with
            | [] => (RaisedIndexError, st)
            | [expr] => book_entry acc expr "" st
            | expr :: comment :: _ => book_entry acc expr comment st
            end
        | None => calculator_reply body st
        end
    end
  else if match_address text then (Replied (address_reply text), st)
  else (Replied "I didn't understand that. Try /help", st).

End Handlers.

(** ** Notions for the properties of the handlers *)

(** [text[1:].strip()] for the stripped text of a message (line 290). *)
Definition message_body (text : string) : string := strip (drop 1 (strip text)).

(** The history of the account [k], empty when there is none. *)
Definition history_of (k : string) (st : State) : list Transaction :=
  match lookup k (accounts st) with
  | Some a => acc_history a
  | None => []
  end.

Definition no_space (c : ascii) : bool := negb (is_space c).

(** The text that [message_handler] hands to
    [eval_expression_with_percent] for the message [text], if it
    evaluates one: the first word after the id of a bookkeeping entry
    (line 318), or the whole body for the calculator (line 326). *)
Definition evaluated_text (lower : string -> string) (text : string)
  : option string :=
  if String.eqb (lower (strip text)) "yasha, verified" then None
  else if starts_with_slash (strip text) then
    match match_rate (message_body text) with
    | Some _ => None
    | None =>
        match match_account_entry (message_body text) with
        | Some (_, rest) =>
            match split_once rest with
            | expr :: _ => Some expr
            | [] => None
            end
        | None => Some (message_body text)
        end
    end
  else None.

Definition guarded_message (lower : string -> string) (text : string) : bool :=
  match evaluated_text lower text with
  | Some t => guarded t
  | None => true
  end.

(** ** A chat for the examples

    [int(s)] for decimal digits with an optional sign "+" or "-", a
    rate service that is down and an address without transactions. *)

Module Chat.

Definition py_int (s : string) : option Z :=
  match s with
  | String c r =>
      if Ascii.eqb c "-" || Ascii.eqb c "+" then
        match r with
        | EmptyString => None
        | _ =>
            if all_chars is_digit r
            then Some (if Ascii.eqb c "-" then - digits_value 0 r
                       else digits_value 0 r)
            else None
        end
      else if all_chars is_digit s then Some (digits_value 0 s) else None
  | EmptyString => None
  end.

Definition rate_query (g2 : string) (amount : float) : RateOutcome :=
  RateFailure "Rate lookup failed.".

Definition address_reply (text : string) : string := "No recent txs found.".

Definition handle : string -> State -> Reaction * State :=
  message_handler Py.eval_float Sample.upper Sample.lower
    Sample.utcnow_isoformat rate_query address_reply.

Definition run_all : list Command -> State -> State :=
  run_all Py.eval_float Sample.upper Sample.lower Sample.utcnow_isoformat
    Sample.date_and_time.

End Chat.

(** * Properties *)

(** ** The dictionary operations *)

Lemma mem_In : forall k l, mem k l = true <-> In k (keys l).
Proof.
  unfold mem. intros k l. induction l as [|[k' a] r IH]; simpl.
  - split; [discriminate | tauto].
  - destruct (String.eqb k k') eqn:E.
    + apply String.eqb_eq in E. subst. split; auto.
    + apply String.eqb_neq in E. rewrite IH. split; [auto|].
      intros [H|H]; [congruence | exact H].
Qed.

Lemma mem_lookup_none : forall k l, mem k l = false <-> lookup k l = None.
Proof.
  unfold mem. intros k l. destruct (lookup k l); split; congruence.
Qed.

Lemma not_mem_In : forall k l, mem k l = false <-> ~ In k (keys l).
Proof.
  intros k l. rewrite <- mem_In. destruct (mem k l); split; congruence.
Qed.

Lemma dict_set_new :
  forall k a l, mem k l = false -> dict_set k a l = (l ++ [(k, a)])%list.
Proof.
  unfold mem. intros k a l. induction l as [|[k' a'] r IH]; simpl; auto.
  destruct (String.eqb k k'); [discriminate|].
  intros H. rewrite IH; auto.
Qed.

Lemma lookup_app_new :
  forall k a l, mem k l = false -> lookup k (l ++ [(k, a)])%list = Some a.
Proof.
  unfold mem. intros k a l. induction l as [|[k' a'] r IH]; simpl.
  - rewrite String.eqb_refl. reflexivity.
  - destruct (String.eqb k k'); [discriminate | exact IH].
Qed.

Lemma lookup_app_old :
  forall k k' a l b, lookup k l = Some b -> lookup k (l ++ [(k', a)])%list = Some b.
Proof.
  intros k k' a l b. induction l as [|[k0 a0] r IH]; simpl; [discriminate|].
  destruct (String.eqb k k0); auto.
Qed.

Lemma lookup_In : forall k l a, lookup k l = Some a -> In (k, a) l.
Proof.
  intros k l a. induction l as [|[k' a'] r IH]; simpl; [discriminate|].
  destruct (String.eqb k k') eqn:E.
  - apply String.eqb_eq in E. intros H. left. congruence.
  - auto.
Qed.

Lemma In_lookup :
  forall k l a, NoDup (keys l) -> In (k, a) l -> lookup k l = Some a.
Proof.
  intros k l a. induction l as [|[k' a'] r IH]; simpl; [tauto|].
  intros ND [H|H].
  - inversion H; subst. rewrite String.eqb_refl. reflexivity.
  - inversion ND as [|? ? Hn ND']; subst.
    destruct (String.eqb k k') eqn:E.
    + apply String.eqb_eq in E. subst. exfalso. apply Hn.
      change k' with (fst (k', a)). apply in_map. exact H.
    + auto.
Qed.

Lemma keys_update : forall k f l, keys (update k f l) = keys l.
Proof.
  intros k f l. induction l as [|[k' a'] r IH]; simpl; auto.
  destruct (String.eqb k k'); simpl; [reflexivity | now rewrite IH].
Qed.

Lemma lookup_update_same :
  forall k f l a, lookup k l = Some a -> lookup k (update k f l) = Some (f a).
Proof.
  intros k f l a. induction l as [|[k' a'] r IH]; simpl; [discriminate|].
  destruct (String.eqb k k') eqn:E; simpl; rewrite E; [congruence | auto].
Qed.

Lemma lookup_update_other :
  forall k k' f l, k <> k' -> lookup k' (update k f l) = lookup k' l.
Proof.
  intros k k' f l Hne. induction l as [|[k0 a0] r IH]; simpl; auto.
  destruct (String.eqb k k0) eqn:E; simpl.
  - apply String.eqb_eq in E. subst k0.
    destruct (String.eqb k' k) eqn:E'; auto.
    apply String.eqb_eq in E'. congruence.
  - now rewrite IH.
Qed.

Lemma update_absent : forall k f l, mem k l = false -> update k f l = l.
Proof.
  unfold mem. intros k f l. induction l as [|[k' a'] r IH]; simpl; auto.
  destruct (String.eqb k k'); [discriminate|].
  intros H. now rewrite IH.
Qed.

(** Unfolding the computations of the monad. *)
Ltac unfold_m :=
  unfold modify_account, get_account, utcnow, lift, save_accounts, save_archive,
    set_accounts, get_accounts, set_archive, get_archive, bind, ret, raise;
  simpl.

(** ** Ledger store: rejected operations *)

Section LedgerStore.

Variable upper : string -> string.

Lemma add_account_existing :
  forall st name digits,
    mem (upper name) (accounts st) = true ->
    add_account upper name digits st = (Ret (false, "Account already exists."), st).
Proof.
  intros st name digits H. unfold add_account. unfold_m. now rewrite H.
Qed.

Lemma add_account_new :
  forall st name digits,
    mem (upper name) (accounts st) = false ->
    let accs := (accounts st ++ [(upper name, mkAccount (S754_zero false) (Some digits) [])])%list in
    add_account upper name digits st =
    (Ret (true, "The account was added. The accuracy of " ++ str_of_Z digits
                ++ " digits after the decimal point is established."),
     mkState accs (archive st) (Some accs) (archive_file st) (clock st)).
Proof.
  intros st name digits H. unfold add_account. unfold_m. rewrite H.
  now rewrite (dict_set_new _ _ _ H).
Qed.

Lemma delete_account_absent :
  forall st name,
    mem (upper name) (accounts st) = false ->
    delete_account upper name st = (Ret (false, "Account not found."), st).
Proof.
  intros st name H. unfold delete_account. unfold_m. now rewrite H.
Qed.

(** C9. [add_account] on an id whose upper-case form is a key of the
    ledger returns [(False, "Account already exists.")] and leaves the
    state as it was, also when the id differs in case from the one the
    account was created with; [delete_account] on an id whose upper-case
    form is not a key returns [(False, "Account not found.")] and leaves
    the state as it was. *)
Theorem rejected_create_and_delete_leave_ledger :
  forall st name,
    (In (upper name) (keys (accounts st)) ->
     forall digits,
       add_account upper name digits st
       = (Ret (false, "Account already exists."), st))
    /\ (~ In (upper name) (keys (accounts st)) ->
        delete_account upper name st = (Ret (false, "Account not found."), st)
        /\ forall digits name' digits',
            upper name' = upper name ->
            let st1 := snd (add_account upper name digits st) in
            add_account upper name' digits' st1
            = (Ret (false, "Account already exists."), st1)).
Proof.
  intros st name. split.
  - intros H digits. apply add_account_existing. now apply mem_In.
  - intros H. apply not_mem_In in H. split.
    + now apply delete_account_absent.
    + intros digits name' digits' Heq st1. subst st1.
      rewrite (add_account_new _ _ digits H). simpl.
      apply add_account_existing. simpl. rewrite Heq.
      unfold mem. now rewrite lookup_app_new.
Qed.

(** C10. [give_account_statement] for an id whose upper-case form is not
    a key of the ledger returns the text "Account <ID> not found." and
    the state is the one before the call: no account is created. *)
Theorem statement_of_unknown_account :
  forall date_and_time st account full,
    ~ In (upper account) (keys (accounts st)) ->
    give_account_statement upper date_and_time account full st
    = (Ret ("Account " ++ upper account ++ " not found."), st).
Proof.
  intros date_and_time st account full H.
  apply not_mem_In, mem_lookup_none in H.
  unfold give_account_statement. unfold_m. now rewrite H.
Qed.

End LedgerStore.

(** ** Transaction recorder *)

Lemma update_update :
  forall k f g l, update k g (update k f l) = update k (fun a => g (f a)) l.
Proof.
  intros k f g l. induction l as [|[k' a'] r IH]; simpl; auto.
  destruct (String.eqb k k') eqn:E; simpl; rewrite E; [reflexivity | now rewrite IH].
Qed.


Section Recorder.

Variable py_eval_float : string -> option float.
Variable upper : string -> string.
Variable utcnow_isoformat : nat -> string.

Let evaluate := eval_expression_with_percent py_eval_float.
Let record := record_transaction py_eval_float upper utcnow_isoformat.

Lemma record_rejected_known :
  forall st account expr comment,
    evaluate expr = None ->
    mem (upper account) (accounts st) = true ->
    record account expr comment st
    = (Ret (Rejected "Couldn't evaluate expression."), st).
Proof.
  intros st account expr comment He Hm.
  unfold record, record_transaction. unfold_m. rewrite Hm.
  unfold evaluate in He. now rewrite He.
Qed.

Lemma record_rejected_unknown :
  forall st account expr comment,
    evaluate expr = None ->
    mem (upper account) (accounts st) = false ->
    record account expr comment st
    = (Ret (Rejected "Couldn't evaluate expression."),
       snd (add_account upper (upper account) 2 st)).
Proof.
  intros st account expr comment He Hm.
  unfold record, record_transaction.
  unfold bind at 1. unfold get_accounts at 1. rewrite Hm.
  unfold bind at 1. unfold bind at 1.
  destruct (add_account upper (upper account) 2 st) as [[r|e] st'] eqn:Ha.
  - unfold ret at 1. unfold evaluate in He. rewrite He. reflexivity.
  - exfalso. revert Ha. unfold add_account. unfold_m.
    destruct (mem (upper (upper account)) (accounts st)); discriminate.
Qed.

(** C2, as the code has it. For an expression that is [guarded] (all
    its characters are of the whitelist, or it holds no percent sign):
    when its evaluation fails, [record_transaction] returns
    [(False, "Couldn't evaluate expression.")] and records nothing. For
    an id whose upper-case form is a key of the ledger the state is
    exactly the one before the call. For any other id the account has
    been created before the evaluation (line 118): the ledger has one
    more account at its end, with balance 0.0, 2 digits and an empty
    history, and has been saved; nothing else has changed. An
    expression that is not guarded goes to [eval] with characters
    outside the whitelist (C1); what [eval] does to the ledger before it
    fails is then up to that text, and nothing is stated. *)
Theorem failed_recording_records_nothing :
  forall st account expr comment,
    guarded expr = true ->
    evaluate expr = None ->
    (In (upper account) (keys (accounts st)) ->
     record account expr comment st
     = (Ret (Rejected "Couldn't evaluate expression."), st))
    /\ (~ In (upper account) (keys (accounts st)) ->
        upper (upper account) = upper account ->
        let accs := (accounts st
                     ++ [(upper account, mkAccount (S754_zero false) (Some 2) [])])%list in
        record account expr comment st
        = (Ret (Rejected "Couldn't evaluate expression."),
           mkState accs (archive st) (Some accs) (archive_file st) (clock st))).
Proof.
  intros st account expr comment _ He. split.
  - intros H. apply record_rejected_known; auto. now apply mem_In.
  - intros H Hu accs. apply not_mem_In in H.
    rewrite (record_rejected_unknown _ _ _ _ He H).
    assert (mem (upper (upper account)) (accounts st) = false) as H'
      by now rewrite Hu.
    rewrite (add_account_new upper st (upper account) 2 H'). simpl.
    subst accs. now rewrite Hu.
Qed.

Lemma record_applied :
  forall st account expr comment info val d,
    lookup (upper account) (accounts st) = Some info ->
    evaluate expr = Some val ->
    quantize val (get_digits info) = Ret d ->
    let q := float_of_decimal d in
    let entry := mkTransaction (utcnow_isoformat (clock st)) q expr comment in
    let accs :=
      update (upper account)
        (fun a => append_history entry (add_to_balance q a)) (accounts st) in
    record account expr comment st
    = (Ret (Applied q),
       mkState accs (archive st) (Some accs) (archive_file st) (S (clock st))).
Proof.
  intros st account expr comment info val d Hl He Hq q entry accs.
  unfold record, record_transaction. unfold_m.
  unfold mem. rewrite Hl. unfold evaluate in He. rewrite He.
  rewrite Hl, Hq. simpl. rewrite Hl. simpl.
  rewrite (lookup_update_same _ _ _ _ Hl). simpl.
  rewrite update_update. reflexivity.
Qed.

Lemma record_raises :
  forall st account expr comment info val e,
    lookup (upper account) (accounts st) = Some info ->
    evaluate expr = Some val ->
    quantize val (get_digits info) = Raise e ->
    record account expr comment st = (Raise e, st).
Proof.
  intros st account expr comment info val e Hl He Hq.
  unfold record, record_transaction. unfold_m.
  unfold mem. rewrite Hl. unfold evaluate in He. rewrite He.
  now rewrite Hl, Hq.
Qed.

End Recorder.

(** ** Rounding to the digits of the account *)

Lemma quantize_finite :
  forall s m e digits,
    0 <= digits <= 1000026 ->
    let k := rescale_half_up (S754_finite s m e) (- digits) in
    quantize (S754_finite s m e) digits
    = if 10 ^ context_prec <=? k then Raise InvalidOperation
      else Ret (Dec s k (- digits)).
Proof.
  intros s m e digits H k. unfold quantize, quantum_exponent.
  destruct (0 <=? digits) eqn:E; [|lia].
  unfold context_Etiny. rewrite Z.max_l by lia. reflexivity.
Qed.



(** ** Texts *)

Lemma append_assoc : forall a b c : string, (a ++ b) ++ c = a ++ (b ++ c).
Proof.
  induction a as [|x a IH]; simpl; intros; [reflexivity | now rewrite IH].
Qed.

Lemma append_empty_r : forall a : string, a ++ "" = a.
Proof.
  induction a as [|x a IH]; simpl; [reflexivity | now rewrite IH].
Qed.

Lemma length_append :
  forall a b : string, String.length (a ++ b) = (String.length a + String.length b)%nat.
Proof.
  induction a as [|x a IH]; simpl; intros; [reflexivity | now rewrite IH].
Qed.

Lemma all_chars_append :
  forall p a b, all_chars p (a ++ b) = all_chars p a && all_chars p b.
Proof.
  induction a as [|x a IH]; simpl; intros; [reflexivity|].
  now rewrite IH, andb_assoc.
Qed.

Lemma contains_append :
  forall c a b, contains c (a ++ b) = contains c a || contains c b.
Proof.
  induction a as [|x a IH]; simpl; intros; [reflexivity|].
  now rewrite IH, orb_assoc.
Qed.

Lemma replace_same : forall c s, replace c c s = s.
Proof.
  induction s as [|x s IH]; simpl; [reflexivity|].
  rewrite IH. destruct (Ascii.eqb x c) eqn:E; [|reflexivity].
  apply Ascii.eqb_eq in E. now subst.
Qed.

(** *** Stripping *)

Lemma lstrip_spec :
  forall s, exists w, s = w ++ lstrip s /\ all_chars is_space w = true.
Proof.
  induction s as [|c s [w [E W]]]; simpl.
  - exists "". auto.
  - destruct (is_space c) eqn:S.
    + exists (String c w). simpl. rewrite S, W. split; [congruence | reflexivity].
    + exists "". auto.
Qed.

Lemma lstrip_blank_append :
  forall w r, all_chars is_space w = true -> lstrip (w ++ r) = lstrip r.
Proof.
  induction w as [|c w IH]; simpl; intros r H; [reflexivity|].
  apply andb_true_iff in H. destruct H as [H1 H2]. rewrite H1. auto.
Qed.

Lemma lstrip_fixed :
  forall c r, is_space c = false -> lstrip (String c r) = String c r.
Proof. intros c r H. simpl. now rewrite H. Qed.

Lemma rstrip_cons :
  forall c r, is_space c = false -> exists t, rstrip (String c r) = String c t.
Proof.
  intros c r H. simpl. destruct (rstrip r); rewrite ?H; eauto.
Qed.

Lemma rstrip_idempotent : forall s, rstrip (rstrip s) = rstrip s.
Proof.
  induction s as [|c s IH]; simpl; [reflexivity|].
  destruct (rstrip s) as [|c' t] eqn:E.
  - destruct (is_space c) eqn:S; simpl; [reflexivity | now rewrite S].
  - simpl. simpl in IH. destruct (rstrip t) eqn:E'.
    + destruct (is_space c'); [discriminate | now inversion IH].
    + now inversion IH.
Qed.

Lemma lstrip_starts :
  forall s, match lstrip s with
            | String c _ => is_space c = false
            | EmptyString => True
            end.
Proof.
  induction s as [|c s IH]; simpl; [exact I|].
  destruct (is_space c) eqn:S; [exact IH | exact S].
Qed.

Lemma strip_idempotent : forall s, strip (strip s) = strip s.
Proof.
  intros s. unfold strip. pose proof (lstrip_starts s) as H.
  destruct (lstrip s) as [|c t] eqn:E; [reflexivity|].
  destruct (rstrip_cons c t H) as [u U]. rewrite U.
  rewrite (lstrip_fixed c u H). rewrite <- U. apply rstrip_idempotent.
Qed.

Lemma all_chars_lstrip :
  forall p s,
    (forall c, is_space c = true -> p c = true) ->
    all_chars p (lstrip s) = all_chars p s.
Proof.
  intros p s Hp. induction s as [|c s IH]; simpl; [reflexivity|].
  destruct (is_space c) eqn:S; [|reflexivity].
  now rewrite (Hp c S), IH.
Qed.

Lemma all_chars_rstrip :
  forall p s,
    (forall c, is_space c = true -> p c = true) ->
    all_chars p (rstrip s) = all_chars p s.
Proof.
  intros p s Hp. induction s as [|c s IH]; simpl; [reflexivity|].
  destruct (rstrip s) as [|c' t] eqn:E.
  - rewrite <- IH. simpl. destruct (is_space c) eqn:S; simpl.
    + now rewrite (Hp c S).
    + now rewrite andb_true_r.
  - simpl. simpl in IH. now rewrite IH.
Qed.

Lemma all_chars_strip :
  forall p s,
    (forall c, is_space c = true -> p c = true) ->
    all_chars p (strip s) = all_chars p s.
Proof.
  intros p s Hp. unfold strip.
  now rewrite all_chars_rstrip, all_chars_lstrip.
Qed.

Lemma contains_all_chars :
  forall c s, contains c s = negb (all_chars (fun a => negb (Ascii.eqb a c)) s).
Proof.
  induction s as [|x s IH]; simpl; [reflexivity|].
  rewrite IH. now destruct (Ascii.eqb x c).
Qed.

Lemma contains_strip :
  forall c s, is_space c = false -> contains c (strip s) = contains c s.
Proof.
  intros c s H. rewrite !contains_all_chars. f_equal.
  apply all_chars_strip. intros a Ha.
  destruct (Ascii.eqb a c) eqn:E; [|reflexivity].
  apply Ascii.eqb_eq in E. congruence.
Qed.

(** *** Characters *)

Ltac each_ascii c :=
  destruct c as [[|] [|] [|] [|] [|] [|] [|] [|]]; vm_compute;
  try reflexivity; try discriminate; try tauto.

Lemma space_not_digit : forall c, is_space c = true -> is_digit c = false.
Proof. intros c. each_ascii c. Qed.

Lemma space_not_point : forall c, is_space c = true -> Ascii.eqb c "." = false.
Proof. intros c. each_ascii c. Qed.

Lemma digit_not_space : forall c, is_digit c = true -> is_space c = false.
Proof. intros c. each_ascii c. Qed.

Lemma sign_not_tail_char : forall c, is_sign c = true -> tail_char c = false.
Proof. intros c. each_ascii c. Qed.

Lemma space_allowed : forall c, is_space c = true -> allowed_char c = true.
Proof. intros c. each_ascii c. Qed.

Lemma digit_tail_char : forall c, is_digit c = true -> tail_char c = true.
Proof.
  intros c H. unfold tail_char. rewrite H. now rewrite orb_true_r.
Qed.

Lemma space_tail_char : forall c, is_space c = true -> tail_char c = true.
Proof. intros c H. unfold tail_char. now rewrite H. Qed.

Lemma all_chars_weaken :
  forall (p q : ascii -> bool) s,
    (forall c, p c = true -> q c = true) ->
    all_chars p s = true -> all_chars q s = true.
Proof.
  intros p q s Hpq. induction s as [|c s IH]; simpl; [reflexivity|].
  intros H. apply andb_true_iff in H. destruct H as [H1 H2].
  now rewrite (Hpq c H1), IH.
Qed.

(** *** Numbers *)

Lemma span_digits_spec :
  forall s d r, span_digits s = (d, r) -> s = d ++ r /\ all_chars is_digit d = true.
Proof.
  induction s as [|c s IH]; simpl; intros d r H.
  - inversion H. auto.
  - destruct (is_digit c) eqn:D.
    + destruct (span_digits s) as [d' t]. inversion H; subst.
      destruct (IH d' r eq_refl) as [E A]. simpl. rewrite D, A. now rewrite <- E.
    + inversion H. auto.
Qed.

Lemma span_digits_append :
  forall d r,
    all_chars is_digit d = true ->
    match r with String c _ => is_digit c = false | EmptyString => True end ->
    span_digits (d ++ r) = (d, r).
Proof.
  induction d as [|c d IH]; simpl; intros r H Hr.
  - destruct r as [|c r]; [reflexivity|]. simpl. now rewrite Hr.
  - apply andb_true_iff in H. destruct H as [H1 H2].
    rewrite H1, (IH r H2 Hr). reflexivity.
Qed.

Lemma match_number_spec :
  forall s num r,
    match_number s = Some (num, r) ->
    s = num ++ r /\ all_chars tail_char num = true.
Proof.
  intros s num r. unfold match_number.
  destruct (span_digits s) as [ip t] eqn:E.
  apply span_digits_spec in E. destruct E as [E A].
  apply (all_chars_weaken _ tail_char _ digit_tail_char) in A.
  destruct ip as [|c ip]; [discriminate|].
  destruct t as [|c' t'].
  - intros H. inversion H; subst. auto.
  - destruct (Ascii.eqb c' ".") eqn:P.
    + apply Ascii.eqb_eq in P. subst c'.
      destruct (span_digits t') as [fp t''] eqn:F.
      apply span_digits_spec in F. destruct F as [F B].
      apply (all_chars_weaken _ tail_char _ digit_tail_char) in B.
      destruct fp as [|f fp]; intros H; inversion H; subst; [auto|].
      split.
      * simpl. now rewrite append_assoc.
      * change (String c (ip ++ String "." (String f fp)))
          with (String c ip ++ "." ++ String f fp).
        rewrite !all_chars_append, A, B. reflexivity.
    + intros H. inversion H; subst. auto.
Qed.

Lemma digit_text_cons :
  forall s, digit_text s ->
            exists c t, s = String c t /\ is_digit c = true
                        /\ all_chars is_digit s = true.
Proof.
  intros s [N A]. destruct s as [|c t]; [congruence|].
  exists c, t. simpl in A. apply andb_true_iff in A as A'.
  destruct A' as [A1 A2]. auto.
Qed.

Lemma number_text_cons :
  forall num, number_text num ->
              exists c t, num = String c t /\ is_digit c = true.
Proof.
  intros num [ip H|ip fp H _];
    destruct (digit_text_cons ip H) as (c & t & E & D & _); subst ip.
  - eauto.
  - exists c, (t ++ "." ++ fp). auto.
Qed.

Lemma match_number_text :
  forall num r,
    number_text num -> ends_number r ->
    match_number (num ++ r) = Some (num, r).
Proof.
  intros num r [ip H|ip fp H G] Hr.
  - destruct (digit_text_cons ip H) as (c & t & E & D & A).
    unfold match_number. rewrite span_digits_append; auto.
    + subst ip. destruct r as [|c' r']; [reflexivity|].
      destruct Hr as [_ P]. now rewrite P.
    + destruct r; [exact I | apply Hr].
  - destruct (digit_text_cons ip H) as (c & t & E & D & A).
    destruct (digit_text_cons fp G) as (c' & t' & E' & D' & A').
    unfold match_number. rewrite append_assoc. simpl append at 2.
    rewrite (span_digits_append ip (String "." (fp ++ r)) A eq_refl).
    rewrite (span_digits_append fp r A').
    + subst ip fp. reflexivity.
    + destruct r; [exact I | apply Hr].
Qed.

Lemma blank_percent_ends_number :
  forall w rest, blank_text w -> ends_number (w ++ String "%" rest).
Proof.
  intros w rest H. destruct w as [|c w]; simpl.
  - split; reflexivity.
  - unfold blank_text in H. simpl in H. apply andb_true_iff in H.
    destruct H as [H _]. split; [now apply space_not_digit | now apply space_not_point].
Qed.

(** *** The end of the suffix pattern *)

Lemma lstrip_blank_then :
  forall w c r, blank_text w -> is_space c = false ->
                lstrip (w ++ String c r) = String c r.
Proof.
  intros w c r H S. rewrite lstrip_blank_append by exact H.
  now apply lstrip_fixed.
Qed.

Lemma match_percent_tail_text :
  forall w1 num w2,
    blank_text w1 -> number_text num -> blank_text w2 ->
    match_percent_tail (w1 ++ num ++ w2 ++ "%") = Some num.
Proof.
  intros w1 num w2 H1 Hn H2. unfold match_percent_tail.
  destruct (number_text_cons num Hn) as (c & t & E & D).
  assert (lstrip (w1 ++ num ++ w2 ++ "%") = num ++ w2 ++ "%") as L.
  { subst num. simpl. apply lstrip_blank_then; auto. now apply digit_not_space. }
  rewrite L, match_number_text; auto using blank_percent_ends_number.
  now rewrite lstrip_blank_then.
Qed.

Lemma at_end_tail_chars : forall r, at_end r = true -> all_chars tail_char r = true.
Proof.
  intros [|c [|c' r]]; simpl; try discriminate; [reflexivity|].
  intros H. apply Ascii.eqb_eq in H. subst c. reflexivity.
Qed.

Lemma match_percent_tail_chars :
  forall t num, match_percent_tail t = Some num -> all_chars tail_char t = true.
Proof.
  intros t num. unfold match_percent_tail.
  destruct (lstrip_spec t) as (w & E & W).
  destruct (match_number (lstrip t)) as [[n r]|] eqn:M; [|discriminate].
  apply match_number_spec in M. destruct M as [M A].
  destruct (lstrip_spec r) as (w' & E' & W').
  destruct (lstrip r) as [|c r']; [discriminate|].
  destruct (Ascii.eqb c "%") eqn:P; [|discriminate].
  destruct (at_end r') eqn:Z; [|discriminate].
  intros _. apply Ascii.eqb_eq in P. subst c.
  rewrite E, M, E'. rewrite !all_chars_append.
  rewrite (all_chars_weaken _ _ _ space_tail_char W), A.
  rewrite (all_chars_weaken _ _ _ space_tail_char W'). simpl.
  now apply at_end_tail_chars.
Qed.

Lemma match_percent_tail_percent :
  forall t num, match_percent_tail t = Some num -> contains "%" t = true.
Proof.
  intros t num. unfold match_percent_tail.
  destruct (lstrip_spec t) as (w & E & W).
  destruct (match_number (lstrip t)) as [[n r]|] eqn:M; [|discriminate].
  apply match_number_spec in M. destruct M as [M A].
  destruct (lstrip_spec r) as (w' & E' & W').
  destruct (lstrip r) as [|c r']; [discriminate|].
  destruct (Ascii.eqb c "%") eqn:P; [|discriminate].
  intros _. rewrite E, M, E'. rewrite !contains_append. simpl. rewrite P.
  now rewrite !orb_true_r.
Qed.

(** *** The suffix pattern *)

Lemma tail_after_sign_fails :
  forall l op t,
    is_sign op = true -> match_percent_tail (l ++ String op t) = None.
Proof.
  intros l op t H.
  destruct (match_percent_tail (l ++ String op t)) as [num|] eqn:M; [|reflexivity].
  apply match_percent_tail_chars in M. rewrite all_chars_append in M.
  simpl in M. rewrite (sign_not_tail_char op H) in M.
  now rewrite andb_false_r in M.
Qed.

Lemma match_suffix_text :
  forall left pre op tail num,
    contains newline left = false ->
    is_sign op = true ->
    match_percent_tail tail = Some num ->
    match_suffix_from pre (left ++ String op tail) = Some (pre ++ left, op, num).
Proof.
  induction left as [|c l IH]; intros pre op tail num Hn Hs Ht.
  - simpl. rewrite Hs, Ht. now rewrite append_empty_r.
  - simpl in Hn. apply orb_false_iff in Hn. destruct Hn as [Hc Hn].
    simpl. rewrite Hc, (tail_after_sign_fails l op tail Hs).
    rewrite (IH (pre ++ String c "") op tail num Hn Hs Ht).
    rewrite append_assoc. simpl. now destruct (is_sign c).
Qed.

Lemma match_suffix_percent :
  forall s pre x, match_suffix_from pre s = Some x -> contains "%" s = true.
Proof.
  induction s as [|c s IH]; simpl; intros pre x H; [discriminate|].
  assert (forall y,
             (if Ascii.eqb c newline then None
              else match_suffix_from (pre ++ String c "") s) = Some y ->
             contains "%" s = true) as N.
  { intros y. destruct (Ascii.eqb c newline); [discriminate | apply IH]. }
  destruct (is_sign c).
  - destruct (match_percent_tail s) as [num|] eqn:T.
    + rewrite (match_percent_tail_percent _ _ T). now rewrite orb_true_r.
    + rewrite (N _ H). now rewrite orb_true_r.
  - rewrite (N _ H). now rewrite orb_true_r.
Qed.

(** *** The rewriting of inline percents *)

Lemma match_inline_percent_percent :
  forall s x, match_inline_percent s = Some x -> contains "%" s = true.
Proof.
  intros s x. unfold match_inline_percent.
  destruct (match_number s) as [[n r]|] eqn:M; [|discriminate].
  apply match_number_spec in M. destruct M as [M _].
  destruct (lstrip_spec r) as (w & E & _).
  destruct (lstrip r) as [|c r']; [discriminate|].
  destruct (Ascii.eqb c "%") eqn:P; [|discriminate].
  intros _. rewrite M, E, !contains_append. simpl. rewrite P.
  now rewrite !orb_true_r.
Qed.

Lemma sub_percent_without_percent :
  forall s, contains "%" s = false -> sub_percent s = s.
Proof.
  unfold sub_percent. induction s as [|c s IH]; intros H; [reflexivity|].
  simpl sub_percent_from.
  destruct (match_inline_percent (String c s)) as [x|] eqn:M.
  - apply match_inline_percent_percent in M. congruence.
  - simpl in H. apply orb_false_iff in H. destruct H as [_ H].
    now rewrite (IH H).
Qed.

Lemma sub_percent_skip :
  forall a rest, sub_percent_from (String.length a) (a ++ rest) = sub_percent rest.
Proof.
  induction a as [|c a IH]; intros rest.
  - simpl. destruct rest; reflexivity.
  - simpl. apply IH.
Qed.

Lemma sub_percent_number :
  forall num w rest,
    number_text num -> blank_text w ->
    sub_percent (num ++ w ++ String "%" rest)
    = "(" ++ num ++ "/100)" ++ sub_percent rest.
Proof.
  intros num w rest Hn Hw.
  destruct (number_text_cons num Hn) as (c & t & E & D).
  assert (match_inline_percent (num ++ w ++ String "%" rest)
          = Some (num, String.length (num ++ w ++ "%"))) as M.
  { unfold match_inline_percent.
    rewrite match_number_text; auto using blank_percent_ends_number.
    rewrite lstrip_blank_then; auto. rewrite Ascii.eqb_refl.
    do 2 f_equal. rewrite !length_append. simpl. lia. }
  unfold sub_percent at 1. subst num. simpl append at 1.
  simpl sub_percent_from. simpl append in M. rewrite M.
  replace (t ++ w ++ String "%" rest) with ((t ++ w ++ "%") ++ rest)
    by (rewrite !append_assoc; reflexivity).
  cbn [String.length Nat.pred]. rewrite sub_percent_skip.
  reflexivity.
Qed.

Lemma sub_percent_other :
  forall c rest,
    is_digit c = false -> sub_percent (String c rest) = String c (sub_percent rest).
Proof.
  intros c rest H. unfold sub_percent. simpl.
  unfold match_inline_percent, match_number. simpl. now rewrite H.
Qed.

Lemma span_digits_text :
  forall s d r, span_digits s = (d, r) -> d <> "" -> digit_text d.
Proof.
  intros s d r H N. apply span_digits_spec in H. destruct H as [_ A].
  now split.
Qed.

Lemma match_number_is_number :
  forall s num r, match_number s = Some (num, r) -> number_text num.
Proof.
  intros s num r. unfold match_number.
  destruct (span_digits s) as [ip t] eqn:E.
  destruct ip as [|c ip]; [discriminate|].
  assert (digit_text (String c ip)) as Hip
    by (eapply span_digits_text; [exact E | discriminate]).
  destruct t as [|c' t'].
  - intros H. inversion H; subst. now apply integer_text.
  - destruct (Ascii.eqb c' ".") eqn:P.
    + destruct (span_digits t') as [fp t''] eqn:F.
      destruct fp as [|f fp]; intros H; inversion H; subst.
      * now apply integer_text.
      * apply (decimal_text (String c ip) (String f fp)); [exact Hip|].
        eapply span_digits_text; [exact F | discriminate].
    + intros H. inversion H; subst. now apply integer_text.
Qed.

(** The pattern of line 77 matches at the start of a text exactly when
    a number, white space and a percent sign stand there. *)
Lemma match_inline_percent_text :
  forall num w rest,
    number_text num -> blank_text w ->
    match_inline_percent (num ++ w ++ String "%" rest)
    = Some (num, String.length (num ++ w ++ "%")).
Proof.
  intros num w rest Hn Hw. unfold match_inline_percent.
  rewrite match_number_text; auto using blank_percent_ends_number.
  rewrite lstrip_blank_then; auto. rewrite Ascii.eqb_refl.
  do 2 f_equal. rewrite !length_append. simpl. lia.
Qed.

Lemma match_inline_percent_shape :
  forall s num len,
    match_inline_percent s = Some (num, len) ->
    exists w rest,
      number_text num /\ blank_text w /\ s = num ++ w ++ String "%" rest
      /\ len = String.length (num ++ w ++ "%").
Proof.
  intros s num len. unfold match_inline_percent.
  destruct (match_number s) as [[n r]|] eqn:M; [|discriminate].
  pose proof (match_number_is_number _ _ _ M) as N.
  apply match_number_spec in M. destruct M as [M _].
  destruct (lstrip_spec r) as (w & E & W).
  destruct (lstrip r) as [|c r']; [discriminate|].
  destruct (Ascii.eqb c "%") eqn:P; [|discriminate].
  apply Ascii.eqb_eq in P. subst c.
  intros H. inversion H; subst n. exists w, r'.
  split; [exact N|]. split; [exact W|].
  assert (s = num ++ w ++ String "%" r') as Es by (now rewrite M, E at 1).
  split; [exact Es|].
  rewrite Es at 1. rewrite !length_append. simpl. lia.
Qed.

Lemma no_percent_here :
  forall s, match_inline_percent s = None -> ~ percent_here s.
Proof.
  intros s M (num & w & rest & N & W & E).
  rewrite E, match_inline_percent_text in M by assumption. discriminate.
Qed.

Lemma sub_percent_kept :
  forall c rest,
    ~ percent_here (String c rest) ->
    sub_percent (String c rest) = String c (sub_percent rest).
Proof.
  intros c rest H. unfold sub_percent. simpl.
  destruct (match_inline_percent (String c rest)) as [[num len]|] eqn:M;
    [|reflexivity].
  exfalso. apply H.
  destruct (match_inline_percent_shape _ _ _ M) as (w & r & N & W & E & _).
  now exists num, w, r.
Qed.

(** [sub_percent] is the rewriting, and the rewriting has one result. *)
Lemma rewritten_sub_percent : forall s t, rewritten s t -> t = sub_percent s.
Proof.
  intros s t H. induction H as [|num w rest t Hn Hw _ IH|c rest t Hc _ IH].
  - reflexivity.
  - rewrite sub_percent_number by assumption. now rewrite IH.
  - rewrite sub_percent_kept by assumption. now rewrite IH.
Qed.

Lemma sub_percent_rewritten : forall s, rewritten s (sub_percent s).
Proof.
  intros s.
  assert (forall n s, (String.length s <= n)%nat -> rewritten s (sub_percent s)) as G.
  { clear s. induction n as [|n IH]; intros s L.
    - destruct s; [constructor | simpl in L; lia].
    - destruct s as [|c r]; [constructor|].
      destruct (match_inline_percent (String c r)) as [[num len]|] eqn:M.
      + destruct (match_inline_percent_shape _ _ _ M) as (w & rest & N & W & E & _).
        rewrite E. rewrite sub_percent_number by assumption.
        constructor; auto. apply IH.
        apply (f_equal String.length) in E. rewrite !length_append in E.
        simpl in E, L.
        destruct (number_text_cons num N) as (c' & t' & -> & _). simpl in E. lia.
      + pose proof (no_percent_here _ M) as NP.
        rewrite sub_percent_kept by exact NP.
        constructor; [exact NP|]. apply IH. simpl in L. lia. }
  now apply (G (String.length s)).
Qed.

(** ** Expression evaluator *)

Section Evaluator.

Variable py_eval_float : string -> option float.

Let safe := safe_eval py_eval_float.
Let evaluate := eval_expression_with_percent py_eval_float.

Lemma safe_eval_with_percent :
  forall s, contains "%" s = true -> safe s = py_eval_float (strip s).
Proof.
  intros s H. unfold safe, safe_eval. rewrite replace_same.
  rewrite contains_strip by reflexivity. rewrite H.
  now rewrite andb_false_r.
Qed.

Lemma safe_eval_rejects :
  forall s,
    all_chars allowed_char s = false -> contains "%" s = false -> safe s = None.
Proof.
  intros s A P. unfold safe, safe_eval. rewrite replace_same.
  rewrite contains_strip by reflexivity. rewrite P.
  assert (allowed_match (strip s) = false) as N.
  { unfold allowed_match.
    pose proof (all_chars_strip allowed_char s space_allowed) as E.
    destruct (strip s); [reflexivity | congruence]. }
  now rewrite N.
Qed.

Lemma safe_eval_strip : forall s, safe (strip s) = safe s.
Proof.
  intros s. unfold safe, safe_eval. now rewrite strip_idempotent.
Qed.

(** Without a percent sign the wrapper is [safe_eval]. *)
Lemma evaluate_without_percent :
  forall s, contains "%" s = false -> evaluate s = safe s.
Proof.
  intros s H. unfold evaluate, eval_expression_with_percent.
  assert (contains "%" (strip s) = false) as H'
    by (rewrite contains_strip; auto).
  destruct (match_percent_suffix (strip s)) as [x|] eqn:M.
  - apply match_suffix_percent in M. congruence.
  - rewrite sub_percent_without_percent by exact H'. apply safe_eval_strip.
Qed.

(** The percent-suffix form: the text before the sign goes to
    [safe_eval], the number after it is the percentage. *)
Lemma evaluate_percent_suffix :
  forall expr left op w1 num w2,
    strip expr = left ++ String op (w1 ++ num ++ w2 ++ "%") ->
    contains newline left = false ->
    is_sign op = true ->
    blank_text w1 -> number_text num -> blank_text w2 ->
    evaluate expr
    = match safe left with
      | None => None
      | Some v =>
          let p := fmul v (fdiv (float_of_number num) (float_of_Z 100)) in
          Some (if Ascii.eqb op "+" then fadd v p else fsub v p)
      end.
Proof.
  intros expr left op w1 num w2 E Hn Hs H1 Hnum H2.
  unfold evaluate, eval_expression_with_percent. rewrite E.
  unfold match_percent_suffix.
  rewrite (match_suffix_text left "" op _ num Hn Hs
             (match_percent_tail_text w1 num w2 H1 Hnum H2)).
  simpl append. fold safe. rewrite safe_eval_strip.
  destruct (safe left); [|reflexivity]. now destruct (Ascii.eqb op "+").
Qed.

Lemma evaluate_plain :
  forall expr,
    match_percent_suffix (strip expr) = None ->
    evaluate expr = safe (sub_percent (strip expr)).
Proof.
  intros expr H. unfold evaluate, eval_expression_with_percent. now rewrite H.
Qed.

End Evaluator.

(** C1, at the failing input. A text with a character outside the
    whitelist and without a percent sign is rejected, whatever [eval]
    would do with it; but line 87 lets every text with a percent sign
    through to [eval]: "(7)%4#x", with the characters "#" and "x",
    evaluates to 3.0. *)
Theorem percent_sign_bypasses_whitelist :
  (forall py_eval_float s,
      all_chars allowed_char s = false -> contains "%" s = false ->
      safe_eval py_eval_float s = None
      /\ eval_expression_with_percent py_eval_float s = None)
  /\ (forall py_eval_float s,
         contains "%" s = true ->
         safe_eval py_eval_float s = py_eval_float (strip s))
  /\ all_chars allowed_char "(7)%4#x" = false
  /\ safe_eval Py.eval_float "(7)%4#x" = Some (float_of_Z 3)
  /\ Sample.evaluate "(7)%4#x" = Some (float_of_Z 3).
Proof.
  split; [|split; [|vm_compute; repeat split]].
  - intros f s A P. split.
    + now apply safe_eval_rejects.
    + rewrite evaluate_without_percent by exact P. now apply safe_eval_rejects.
  - intros f s P. now apply safe_eval_with_percent.
Qed.

(** C4, as the code has it. The text before the sign of a
    percent-suffix expression is evaluated by [safe_eval] (line 68), not
    by [eval_expression_with_percent]: a percent sign in it is not
    rewritten, the text goes to [eval] as it is. When that gives the
    value [v], the result is [v + v * (N / 100)] or [v - v * (N / 100)].
    In "100+10%+10%" the text before the last sign is "100+10%", which
    is not an expression of Python: the evaluation fails. *)
Theorem percent_suffix_left_part_is_plain :
  (forall py_eval_float expr left op w1 num w2,
      strip expr = left ++ String op (w1 ++ num ++ w2 ++ "%") ->
      contains newline left = false ->
      is_sign op = true ->
      blank_text w1 -> number_text num -> blank_text w2 ->
      eval_expression_with_percent py_eval_float expr
      = match safe_eval py_eval_float left with
        | None => None
        | Some v =>
            let p := fmul v (fdiv (float_of_number num) (float_of_Z 100)) in
            Some (if Ascii.eqb op "+" then fadd v p else fsub v p)
        end
      /\ (contains "%" left = true ->
          safe_eval py_eval_float left = py_eval_float (strip left)))
  /\ match_percent_suffix "100+10%+10%" = Some ("100+10%", "+"%char, "10")
  /\ Py.eval_float "100+10%" = None
  /\ Sample.evaluate "100+10%+10%" = None.
Proof.
  split; [|vm_compute; repeat split].
  intros f expr left op w1 num w2 E Hn Hs H1 Hnum H2. split.
  - now apply (evaluate_percent_suffix f expr left op w1 num w2).
  - apply safe_eval_with_percent.
Qed.

(** C7. For a text of the form [left <+|-> N%] (white space allowed
    around [N], no line break in [left]) the evaluator returns
    [v + v * (N / 100)] for the sign "+" and [v - v * (N / 100)] for
    the sign "-", where [v] is the value of [left]; it fails when
    [left] has no value. "100+10%" gives 110.0 and "200-25%" gives
    150.0. *)
Theorem percent_suffix_value :
  (forall py_eval_float expr left op w1 num w2,
      strip expr = left ++ String op (w1 ++ num ++ w2 ++ "%") ->
      contains newline left = false ->
      is_sign op = true ->
      blank_text w1 -> number_text num -> blank_text w2 ->
      eval_expression_with_percent py_eval_float expr
      = match safe_eval py_eval_float left with
        | None => None
        | Some v =>
            let p := fmul v (fdiv (float_of_number num) (float_of_Z 100)) in
            Some (if Ascii.eqb op "+" then fadd v p else fsub v p)
        end)
  /\ Sample.evaluate "100+10%" = Some (float_of_Z 110)
  /\ Sample.evaluate "200-25%" = Some (float_of_Z 150).
Proof.
  split; [|vm_compute; repeat split].
  intros f expr left op w1 num w2. apply evaluate_percent_suffix.
Qed.

(** C8. A text that is not in percent-suffix form is evaluated after
    the rewriting of every [N%] to [(N/100)]. The text that is
    evaluated is the rewriting of the stripped text and nothing else:
    read from left to right, a number with the white space and the
    percent sign after it is replaced by the number between "(" and
    "/100)", and a character at which no such number starts is kept,
    be it a digit or not ("2*50%" becomes "2*(50/100)", "12+50%*2"
    becomes "12+(50/100)*2"). The rewritten text is evaluated with "*"
    and "/" binding more tightly than "+" and "-", and with
    parentheses: "2+3*4" gives 14.0, "(2+3)*4" gives 20.0, and "50%*2",
    rewritten to "(50/100)*2", gives 1.0. *)
Theorem plain_form_rewrites_percent :
  (forall py_eval_float expr,
      match_percent_suffix (strip expr) = None ->
      eval_expression_with_percent py_eval_float expr
      = safe_eval py_eval_float (sub_percent (strip expr)))
  /\ (forall s, rewritten s (sub_percent s))
  /\ (forall s t, rewritten s t -> t = sub_percent s)
  /\ (forall num w rest,
         number_text num -> blank_text w ->
         sub_percent (num ++ w ++ String "%" rest)
         = "(" ++ num ++ "/100)" ++ sub_percent rest)
  /\ (forall c rest,
         ~ percent_here (String c rest) ->
         sub_percent (String c rest) = String c (sub_percent rest))
  /\ (forall c rest,
         is_digit c = false ->
         sub_percent (String c rest) = String c (sub_percent rest))
  /\ (forall a b c,
         Py.parse true [] [] [Py.TNum a; Py.TOp Py.Add; Py.TNum b; Py.TOp Py.Mul; Py.TNum c]
         = Some (Py.Bin Py.Add (Py.Num a) (Py.Bin Py.Mul (Py.Num b) (Py.Num c)))
         /\ Py.parse true [] [] [Py.TNum a; Py.TOp Py.Mul; Py.TNum b; Py.TOp Py.Add; Py.TNum c]
            = Some (Py.Bin Py.Add (Py.Bin Py.Mul (Py.Num a) (Py.Num b)) (Py.Num c))
         /\ Py.parse true [] []
              [Py.TLParen; Py.TNum a; Py.TOp Py.Add; Py.TNum b; Py.TRParen;
               Py.TOp Py.Mul; Py.TNum c]
            = Some (Py.Bin Py.Mul (Py.Bin Py.Add (Py.Num a) (Py.Num b)) (Py.Num c)))
  /\ sub_percent "50%*2" = "(50/100)*2"
  /\ sub_percent "2*50%" = "2*(50/100)"
  /\ sub_percent "12+50%*2" = "12+(50/100)*2"
  /\ Sample.evaluate "2+3*4" = Some (float_of_Z 14)
  /\ Sample.evaluate "(2+3)*4" = Some (float_of_Z 20)
  /\ Sample.evaluate "50%*2" = Some (float_of_Z 1)
  /\ Sample.evaluate "2*50%" = Some (float_of_Z 1)
  /\ Sample.evaluate "12+50%*2" = Some (float_of_Z 13).
Proof.
  split; [|split; [|split; [|split; [|split; [|split; [|split]]]]]].
  - intros f expr. apply evaluate_plain.
  - apply sub_percent_rewritten.
  - apply rewritten_sub_percent.
  - apply sub_percent_number.
  - apply sub_percent_kept.
  - apply sub_percent_other.
  - intros a b c. repeat split.
  - vm_compute. repeat split.
Qed.

(** ** Archival *)

Lemma lookup_app_skip :
  forall k l1 l2, ~ In k (keys l1) -> lookup k (l1 ++ l2)%list = lookup k l2.
Proof.
  intros k l1 l2. induction l1 as [|[k' a'] r IH]; simpl; [reflexivity|].
  intros H. destruct (String.eqb k k') eqn:E.
  - apply String.eqb_eq in E. subst. tauto.
  - apply IH. tauto.
Qed.

Lemma update_app_skip :
  forall k f l1 l2,
    ~ In k (keys l1) -> update k f (l1 ++ l2)%list = (l1 ++ update k f l2)%list.
Proof.
  intros k f l1 l2. induction l1 as [|[k' a'] r IH]; simpl; [reflexivity|].
  intros H. destruct (String.eqb k k') eqn:E.
  - apply String.eqb_eq in E. subst. tauto.
  - rewrite IH; tauto.
Qed.

Lemma keys_app : forall l1 l2, keys (l1 ++ l2)%list = (keys l1 ++ keys l2)%list.
Proof. intros. unfold keys. apply map_app. Qed.

Lemma keys_cleared : forall l, keys (cleared l) = keys l.
Proof.
  intros l. unfold keys, cleared. rewrite map_map. reflexivity.
Qed.

Lemma clear_history_empty :
  forall a, acc_history a = [] -> clear_history a = a.
Proof. intros [b d h] H. simpl in H. subst. reflexivity. Qed.

Section Archival.

Variable utcnow_isoformat : nat -> string.

Let entries := archive_entries utcnow_isoformat.

Lemma archive_account_skips :
  forall k a st, acc_history a = [] -> archive_account utcnow_isoformat (k, a) st = (Ret tt, st).
Proof.
  intros k a st H. unfold archive_account. now rewrite H.
Qed.

Lemma archive_account_moves :
  forall k a a' st,
    acc_history a <> [] ->
    lookup k (accounts st) = Some a' ->
    archive_account utcnow_isoformat (k, a) st
    = (Ret tt,
       mkState (update k clear_history (accounts st))
               (archive st
                ++ [mkArchiveEntry k (acc_history a) (utcnow_isoformat (clock st))])
               (accounts_file st) (archive_file st) (S (clock st))).
Proof.
  intros k a a' st H L. unfold archive_account.
  destruct (acc_history a) as [|t h]; [congruence|].
  unfold_m. now rewrite L.
Qed.

(** The loop of line 279, started when the items [done] have been
    processed and [items] are left. *)
Lemma archive_loop :
  forall items done ar af arf n,
    NoDup (keys (done ++ items)%list) ->
    for_each items (archive_account utcnow_isoformat)
      (mkState (done ++ items)%list ar af arf n)
    = (Ret tt,
       mkState (done ++ cleared items)%list (ar ++ entries n items)%list af arf
               (n + List.length (entries n items))).
Proof.
  induction items as [|[k a] items IH]; intros done ar af arf n ND.
  - simpl. unfold ret. rewrite !app_nil_r, Nat.add_0_r. reflexivity.
  - assert (~ In k (keys done)) as Hk.
    { rewrite keys_app in ND. simpl in ND. apply NoDup_remove_2 in ND.
      intros H. apply ND. apply in_or_app. now left. }
    assert (forall x, (done ++ x :: items)%list = ((done ++ [x]) ++ items)%list) as R
      by (intros; now rewrite <- app_assoc).
    cbn [for_each]. unfold bind at 1.
    destruct (acc_history a) as [|t h] eqn:H.
    + rewrite (archive_account_skips k a _ H).
      rewrite R. rewrite IH by (now rewrite <- R).
      unfold entries. simpl. rewrite H. fold entries.
      rewrite <- app_assoc. simpl. unfold cleared at 2. simpl.
      now rewrite (clear_history_empty a H).
    + rewrite (archive_account_moves k a a).
      * simpl. rewrite update_app_skip by exact Hk. simpl.
        rewrite String.eqb_refl. rewrite (R (k, clear_history a)).
        rewrite IH.
        -- unfold entries. simpl. rewrite H. fold entries.
           rewrite <- !app_assoc. simpl. unfold cleared at 2. simpl.
           now rewrite Nat.add_succ_r.
        -- rewrite <- R. rewrite keys_app in *. exact ND.
      * now rewrite H.
      * simpl. rewrite lookup_app_skip by exact Hk. simpl.
        now rewrite String.eqb_refl.
Qed.

Lemma archive_verified_state :
  forall st,
    NoDup (keys (accounts st)) ->
    let new := entries (clock st) (accounts st) in
    archive_verified utcnow_isoformat st
    = (Ret "Verified. Past movements moved to archive.",
       mkState (cleared (accounts st)) (archive st ++ new)%list
               (Some (cleared (accounts st))) (Some (archive st ++ new)%list)
               (clock st + List.length new)).
Proof.
  intros [accs ar af arf n] ND new. simpl in ND.
  pose proof (archive_loop accs [] ar af arf n ND) as L. simpl app in L.
  unfold archive_verified. unfold bind at 1. unfold get_accounts at 1.
  unfold bind at 1. cbn [accounts]. rewrite L.
  reflexivity.
Qed.

Lemma lookup_cleared :
  forall k l,
    lookup k (cleared l) = option_map clear_history (lookup k l).
Proof.
  intros k l. induction l as [|[k' a'] r IH]; simpl; [reflexivity|].
  now destruct (String.eqb k k').
Qed.

Lemma entries_of_accounts :
  forall l n,
    map (fun e => (ar_account e, ar_history e)) (entries n l)
    = map (fun item => (fst item, acc_history (snd item))) (filter has_history l).
Proof.
  induction l as [|[k a] l IH]; intros n; [reflexivity|].
  unfold entries, has_history. simpl.
  destruct (acc_history a) as [|t h] eqn:H; simpl.
  - apply IH.
  - rewrite H. f_equal. apply IH.
Qed.

Lemma entries_stamps :
  forall l n,
    map ar_archived_at (entries n l)
    = map utcnow_isoformat (seq n (List.length (entries n l))).
Proof.
  induction l as [|[k a] l IH]; intros n; [reflexivity|].
  unfold entries. simpl.
  destruct (acc_history a) as [|t h] eqn:H; simpl.
  - apply IH.
  - f_equal. apply IH.
Qed.

Lemma entries_length :
  forall l n, List.length (entries n l) = List.length (filter has_history l).
Proof.
  intros l n.
  rewrite <- (length_map (fun e => (ar_account e, ar_history e))).
  rewrite entries_of_accounts. apply length_map.
Qed.

End Archival.

(** C6. One archival run over a ledger: the accounts and their order,
    balances and digits are as before and every history is empty; an
    account whose history was empty is exactly as before; the archive
    has grown by one entry for each account that had a history, in the
    order of the ledger, with the id and the whole history of that
    account, stamped with the successive readings of the clock; both
    files have been written. *)
Theorem archival_moves_histories :
  forall utcnow_isoformat st,
    NoDup (keys (accounts st)) ->
    let st' := snd (archive_verified utcnow_isoformat st) in
    let new := archive_entries utcnow_isoformat (clock st) (accounts st) in
    fst (archive_verified utcnow_isoformat st)
    = Ret "Verified. Past movements moved to archive."
    /\ keys (accounts st') = keys (accounts st)
    /\ (forall k a,
           lookup k (accounts st) = Some a ->
           lookup k (accounts st')
           = Some (mkAccount (acc_balance a) (acc_digits a) [])
           /\ (acc_history a = [] -> lookup k (accounts st') = Some a))
    /\ archive st' = (archive st ++ new)%list
    /\ List.length new = List.length (filter has_history (accounts st))
    /\ map (fun e => (ar_account e, ar_history e)) new
       = map (fun item => (fst item, acc_history (snd item)))
             (filter has_history (accounts st))
    /\ map ar_archived_at new
       = map utcnow_isoformat (seq (clock st) (List.length new))
    /\ accounts_file st' = Some (accounts st')
    /\ archive_file st' = Some (archive st').
Proof.
  intros utcnow_isoformat st ND st' new. subst st'.
  rewrite (archive_verified_state utcnow_isoformat st ND). fold new. simpl.
  split; [reflexivity|]. split; [apply keys_cleared|].
  split; [|split; [reflexivity|]].
  - intros k a L. rewrite lookup_cleared, L. simpl. split; [reflexivity|].
    intros H. f_equal. now apply clear_history_empty.
  - split; [apply entries_length|].
    split; [apply entries_of_accounts|].
    split; [apply entries_stamps|]. split; reflexivity.
Qed.

(** ** The balance and the recorded amounts *)








(** *** Computations that leave the state alone *)

Lemma reads_only_ret : forall A (a : A), reads_only (ret a).
Proof. intros A a st. reflexivity. Qed.

Lemma reads_only_lift : forall A (r : result A), reads_only (lift r).
Proof. intros A r st. reflexivity. Qed.

Lemma reads_only_bind :
  forall A B (c : M A) (k : A -> M B),
    reads_only c -> (forall a, reads_only (k a)) -> reads_only (bind c k).
Proof.
  intros A B c k Hc Hk st. unfold bind. specialize (Hc st).
  destruct (c st) as [[a|e] st']; simpl in Hc; subst; [apply Hk | reflexivity].
Qed.

Lemma reads_only_map_m :
  forall A B (f : A -> M B) l,
    (forall x, reads_only (f x)) -> reads_only (map_m f l).
Proof.
  intros A B f l Hf. induction l as [|x l IH]; simpl.
  - apply reads_only_ret.
  - apply reads_only_bind; [apply Hf|]. intros y.
    apply reads_only_bind; [exact IH|]. intros ys. apply reads_only_ret.
Qed.

Lemma give_balances_reads_only : forall lower, reads_only (give_balances lower).
Proof.
  intros lower. unfold give_balances.
  apply reads_only_bind; [intros st; reflexivity|]. intros accs.
  apply reads_only_bind.
  - apply reads_only_map_m. intros [acc info].
    apply reads_only_bind; [apply reads_only_lift|]. intros. apply reads_only_ret.
  - intros [|l ls]; apply reads_only_ret.
Qed.

Lemma give_account_statement_reads_only :
  forall upper date_and_time account full,
    reads_only (give_account_statement upper date_and_time account full).
Proof.
  intros upper date_and_time account full. unfold give_account_statement.
  apply reads_only_bind; [intros st; reflexivity|]. intros accs.
  destruct (lookup (upper account) accs) as [info|]; [|apply reads_only_ret].
  apply reads_only_bind; [|intros; apply reads_only_ret].
  apply reads_only_map_m. intros e.
  destruct (date_and_time (tx_timestamp e)) as [d t].
  apply reads_only_bind; [apply reads_only_lift|]. intros. apply reads_only_ret.
Qed.

(** ** Deletion *)

Lemma dict_del_new :
  forall k a l, ~ In k (keys l) -> dict_del k (l ++ [(k, a)])%list = l.
Proof.
  intros k a l. induction l as [|[k' a'] r IH]; simpl; intros H.
  - now rewrite String.eqb_refl.
  - destruct (String.eqb k k') eqn:E.
    + apply String.eqb_eq in E. subst. tauto.
    + rewrite IH; tauto.
Qed.

Lemma lookup_dict_del_same :
  forall k l, NoDup (keys l) -> lookup k (dict_del k l) = None.
Proof.
  intros k l. induction l as [|[k' a'] r IH]; simpl; intros ND; [reflexivity|].
  inversion ND as [|? ? Hn ND']; subst.
  destruct (String.eqb k k') eqn:E.
  - apply String.eqb_eq in E. subst k'.
    apply mem_lookup_none. now apply not_mem_In.
  - simpl. rewrite E. now apply IH.
Qed.

Lemma lookup_dict_del_other :
  forall k k' l, k <> k' -> lookup k' (dict_del k l) = lookup k' l.
Proof.
  intros k k' l Hne. induction l as [|[k0 a0] r IH]; simpl; [reflexivity|].
  destruct (String.eqb k k0) eqn:E.
  - apply String.eqb_eq in E. subst k0.
    destruct (String.eqb k' k) eqn:E'; [|reflexivity].
    apply String.eqb_eq in E'. congruence.
  - simpl. now rewrite IH.
Qed.

Lemma keys_dict_del_incl :
  forall k l x, In x (keys (dict_del k l)) -> In x (keys l).
Proof.
  intros k l x. induction l as [|[k0 a0] r IH]; simpl; [tauto|].
  destruct (String.eqb k k0); simpl; tauto.
Qed.


Lemma NoDup_dict_del :
  forall k l, NoDup (keys l) -> NoDup (keys (dict_del k l)).
Proof.
  intros k l. induction l as [|[k0 a0] r IH]; simpl; intros ND; [constructor|].
  inversion ND as [|? ? Hn ND']; subst.
  destruct (String.eqb k k0); [exact ND'|].
  simpl. constructor; [|now apply IH].
  intros H. apply Hn. eapply keys_dict_del_incl. exact H.
Qed.

Lemma delete_account_existing :
  forall upper st name,
    mem (upper name) (accounts st) = true ->
    let accs := dict_del (upper name) (accounts st) in
    delete_account upper name st
    = (Ret (true, "The account was deleted."),
       mkState accs (archive st) (Some accs) (archive_file st) (clock st)).
Proof.
  intros upper st name H accs. unfold delete_account. unfold_m. now rewrite H.
Qed.

(** ** The invariant along the runs of the bot *)

Lemma NoDup_snoc :
  forall (l : list string) x, NoDup l -> ~ In x l -> NoDup (l ++ [x]).
Proof.
  induction l as [|y l IH]; simpl; intros x ND H.
  - constructor; [tauto | constructor].
  - inversion ND; subst. constructor.
    + rewrite in_app_iff. simpl. intros [A|[A|[]]]; [tauto | subst; tauto].
    + apply IH; tauto.
Qed.



Section Invariant.

Variable py_eval_float : string -> option float.
Variables upper lower : string -> string.
Variable utcnow_isoformat : nat -> string.
Variable date_and_time : string -> string * string.

Let record := record_transaction py_eval_float upper utcnow_isoformat.


Lemma record_after_creation :
  forall st account expr comment,
    let k := upper account in
    let st1 := if mem k (accounts st) then st
               else snd (add_account upper k 2 st) in
    record account expr comment st
    = match eval_expression_with_percent py_eval_float expr with
      | None => (Ret (Rejected "Couldn't evaluate expression."), st1)
      | Some val =>
          match lookup k (accounts st1) with
          | None => (Raise KeyError, st1)
          | Some info =>
              match quantize val (get_digits info) with
              | Raise e => (Raise e, st1)
              | Ret d =>
                  let q := float_of_decimal d in
                  let entry := mkTransaction (utcnow_isoformat (clock st1)) q expr comment in
                  let accs := update k (fun a => append_history entry (add_to_balance q a))
                                (accounts st1) in
                  (Ret (Applied q),
                   mkState accs (archive st1) (Some accs) (archive_file st1)
                           (S (clock st1)))
              end
          end
      end.
Proof.
  intros st account expr comment k st1.
  unfold record, record_transaction. fold k.
  unfold bind at 1. unfold get_accounts at 1.
  unfold bind at 1.
  assert ((if mem k (accounts st) then ret tt else add_account upper k 2;;; ret tt) st
          = (Ret tt, st1)) as E.
  { subst st1. destruct (mem k (accounts st)); [reflexivity|].
    unfold bind. destruct (add_account upper k 2 st) as [[r|e] s'] eqn:A; [reflexivity|].
    exfalso. revert A. unfold add_account. unfold_m.
    destruct (mem (upper k) (accounts st)); discriminate. }
  rewrite E. clearbody st1. clear E.
  destruct (eval_expression_with_percent py_eval_float expr) as [val|]; [|reflexivity].
  unfold_m.
  destruct (lookup k (accounts st1)) as [info|] eqn:L; [|reflexivity].
  destruct (quantize val (get_digits info)) as [d|e]; [|reflexivity].
  simpl. rewrite L. simpl. rewrite (lookup_update_same _ _ _ _ L). simpl.
  now rewrite update_update.
Qed.







End Invariant.


(** ** The claims of the specification that the code does not meet *)

(** C2 as stated fails for an unknown id: recording the text "abc" for
    the id "xyz" on the empty ledger returns the error, and the ledger
    holds the account XYZ afterwards. *)
Lemma failed_recording_creates_account :
  Sample.evaluate "abc" = None
  /\ fst (Sample.record "xyz" "abc" "" initial_state)
     = Ret (Rejected "Couldn't evaluate expression.")
  /\ accounts (snd (Sample.record "xyz" "abc" "" initial_state))
     = [("XYZ", mkAccount (S754_zero false) (Some 2) [])]
  /\ snd (Sample.record "xyz" "abc" "" initial_state) <> initial_state.
Proof.
  split; [reflexivity|]. split; [reflexivity|]. split; [reflexivity|].
  intros H. apply (f_equal accounts) in H. vm_compute in H. discriminate.
Qed.


(** C4 as stated fails at its example: "100+10%" evaluates to 110.0,
    but "100+10%+10%", whose left part is "100+10%", does not
    evaluate. *)
Lemma chained_percent_suffix_fails :
  match_percent_suffix "100+10%+10%" = Some ("100+10%", "+"%char, "10")
  /\ Sample.evaluate "100+10%" = Some (float_of_Z 110)
  /\ Sample.evaluate "100+10%+10%" = None.
Proof. repeat split. Qed.


(** ** The properties at concrete inputs *)

Lemma number_text_10 : number_text "10".
Proof. apply integer_text. split; [discriminate | reflexivity]. Qed.

Lemma number_text_50 : number_text "50".
Proof. apply integer_text. split; [discriminate | reflexivity]. Qed.

Lemma percent_sign_bypasses_whitelist_witness :
  safe_eval Py.eval_float "abc" = None
  /\ eval_expression_with_percent Py.eval_float "abc" = None
  /\ safe_eval Py.eval_float "(7)%4#x" = Py.eval_float (strip "(7)%4#x").
Proof.
  destruct percent_sign_bypasses_whitelist as (R & B & _).
  destruct (R Py.eval_float "abc") as [R1 R2]; [reflexivity | reflexivity |].
  split; [exact R1|]. split; [exact R2|].
  apply B. reflexivity.
Defined.

Lemma failed_recording_records_nothing_witness :
  let st := Sample.after (Sample.add "usd" 2) initial_state in
  Sample.record "USD" "5/" "" st = (Ret (Rejected "Couldn't evaluate expression."), st)
  /\ Sample.record "eur" "5/" "" st
     = (Ret (Rejected "Couldn't evaluate expression."),
        let accs := (accounts st ++ [("EUR", mkAccount (S754_zero false) (Some 2) [])])%list in
        mkState accs (archive st) (Some accs) (archive_file st) (clock st)).
Proof.
  intros st. split.
  - apply (failed_recording_records_nothing Py.eval_float Sample.upper
             Sample.utcnow_isoformat st "USD" "5/" "").
    + reflexivity.
    + reflexivity.
    + vm_compute. left. reflexivity.
  - apply (failed_recording_records_nothing Py.eval_float Sample.upper
             Sample.utcnow_isoformat st "eur" "5/" "").
    + reflexivity.
    + reflexivity.
    + vm_compute. intros [H|[]]. discriminate.
    + reflexivity.
Defined.


Lemma percent_suffix_left_part_is_plain_witness :
  eval_expression_with_percent Py.eval_float " 100+10% + 10 %"
  = match safe_eval Py.eval_float "100+10% " with
    | None => None
    | Some v =>
        let p := fmul v (fdiv (float_of_number "10") (float_of_Z 100)) in
        Some (fadd v p)
    end
  /\ safe_eval Py.eval_float "100+10% " = Py.eval_float "100+10%".
Proof.
  destruct (proj1 percent_suffix_left_part_is_plain
              Py.eval_float " 100+10% + 10 %" "100+10% " "+"%char " " "10" " ")
    as [E S].
  - reflexivity.
  - reflexivity.
  - reflexivity.
  - reflexivity.
  - exact number_text_10.
  - reflexivity.
  - split; [exact E|]. apply S. reflexivity.
Defined.

Lemma percent_suffix_value_witness :
  eval_expression_with_percent Py.eval_float "200 - 10 %"
  = match safe_eval Py.eval_float "200 " with
    | None => None
    | Some v =>
        let p := fmul v (fdiv (float_of_number "10") (float_of_Z 100)) in
        Some (fsub v p)
    end.
Proof.
  apply (proj1 percent_suffix_value
           Py.eval_float "200 - 10 %" "200 " "-"%char " " "10" " ").
  - reflexivity.
  - reflexivity.
  - reflexivity.
  - reflexivity.
  - exact number_text_10.
  - reflexivity.
Defined.

Lemma plain_form_rewrites_percent_witness :
  eval_expression_with_percent Py.eval_float "50%*2"
  = safe_eval Py.eval_float (sub_percent "50%*2")
  /\ "2*(50/100)" = sub_percent "2*50 %"
  /\ sub_percent "50 %*2" = "(50/100)" ++ sub_percent "*2"
  /\ sub_percent "2*50%" = String "2" (sub_percent "*50%")
  /\ sub_percent "*2" = String "*" (sub_percent "2").
Proof.
  destruct plain_form_rewrites_percent as (P & _ & U & N & K & O & _).
  split; [|split; [|split; [|split]]].
  - apply (P Py.eval_float "50%*2"). reflexivity.
  - apply (U "2*50 %" "2*(50/100)").
    apply (rewritten_kept "2" "*50 %" "*(50/100)").
    + apply no_percent_here. reflexivity.
    + apply (rewritten_kept "*" "50 %" "(50/100)").
      * apply no_percent_here. reflexivity.
      * apply (rewritten_percent "50" " " "" "");
          [exact number_text_50 | reflexivity | apply rewritten_end].
  - apply (N "50" " " "*2"); [exact number_text_50 | reflexivity].
  - apply (K "2"%char "*50%"). apply no_percent_here. reflexivity.
  - apply (O "*"%char "2"). reflexivity.
Defined.

Lemma rejected_create_and_delete_leave_ledger_witness :
  let st := Sample.after (Sample.add "usd" 2) initial_state in
  Sample.add "Usd" 3 st = (Ret (false, "Account already exists."), st)
  /\ Sample.delete "eur" st = (Ret (false, "Account not found."), st)
  /\ (let st1 := snd (Sample.add "eur" 2 st) in
      Sample.add "EUR" 4 st1 = (Ret (false, "Account already exists."), st1)).
Proof.
  intros st.
  destruct (rejected_create_and_delete_leave_ledger Sample.upper st "Usd") as [A _].
  destruct (rejected_create_and_delete_leave_ledger Sample.upper st "eur") as [_ D].
  split; [|split].
  - apply A. vm_compute. left. reflexivity.
  - apply D. vm_compute. intros [H|[]]. discriminate.
  - apply D.
    + vm_compute. intros [H|[]]. discriminate.
    + reflexivity.
Defined.

Lemma statement_of_unknown_account_witness :
  let st := Sample.after (Sample.add "usd" 2) initial_state in
  give_account_statement Sample.upper Sample.date_and_time "eur" false st
  = (Ret "Account EUR not found.", st).
Proof.
  intros st.
  apply (statement_of_unknown_account Sample.upper Sample.date_and_time st "eur" false).
  vm_compute. intros [H|[]]. discriminate.
Defined.

Lemma archival_moves_histories_witness :
  let st :=
    run_all Py.eval_float Sample.upper Sample.lower Sample.utcnow_isoformat
      Sample.date_and_time
      [CmdAdd "eur" 2; CmdRecord "usd" "5" "a"; CmdRecord "usd" "2.5" "b"]
      initial_state in
  let st' := snd (Sample.verified st) in
  keys (accounts st') = ["EUR"; "USD"]
  /\ List.length (archive_entries Sample.utcnow_isoformat (clock st) (accounts st)) = 1%nat
  /\ archive st'
     = (archive st
        ++ archive_entries Sample.utcnow_isoformat (clock st) (accounts st))%list.
Proof.
  intros st st'.
  destruct (archival_moves_histories Sample.utcnow_isoformat st)
    as (_ & K & _ & A & N & _).
  - vm_compute. repeat constructor; simpl; intuition discriminate.
  - split; [exact K|]. split; [exact N | exact A].
Defined.


(** * Further properties of the code *)

(** ** Ledger store: creation and deletion *)

(** X1. Creating an account whose upper-case id is not a key puts it
    at the end of the ledger with balance 0.0, the given digits and an
    empty history, and leaves every other account as it was; deleting
    it again gives back exactly the ledger of before. *)
Theorem create_then_delete_restores_ledger :
  forall upper st name digits,
    ~ In (upper name) (keys (accounts st)) ->
    let st1 := snd (add_account upper name digits st) in
    let st2 := snd (delete_account upper name st1) in
    accounts st1
    = (accounts st ++ [(upper name, mkAccount (S754_zero false) (Some digits) [])])%list
    /\ lookup (upper name) (accounts st1)
       = Some (mkAccount (S754_zero false) (Some digits) [])
    /\ (forall k, k <> upper name ->
                  lookup k (accounts st1) = lookup k (accounts st))
    /\ fst (delete_account upper name st1) = Ret (true, "The account was deleted.")
    /\ accounts st2 = accounts st
    /\ accounts_file st2 = Some (accounts st)
    /\ archive st2 = archive st.
Proof.
  intros upper st name digits H st1 st2.
  pose proof H as Hm. apply not_mem_In in Hm.
  assert (mem (upper name) (accounts st1) = true) as H1.
  { subst st1. rewrite add_account_new by exact Hm. simpl.
    unfold mem. now rewrite lookup_app_new. }
  subst st2. rewrite (delete_account_existing upper st1 name H1).
  subst st1. rewrite add_account_new by exact Hm. simpl.
  rewrite (dict_del_new _ _ _ H).
  split; [reflexivity|].
  split; [now apply lookup_app_new|].
  split; [|now repeat split].
  intros k Hk. clear - Hk. induction (accounts st) as [|[k' a'] r IH]; simpl.
  - apply String.eqb_neq in Hk. now rewrite Hk.
  - destruct (String.eqb k k'); [reflexivity | exact IH].
Qed.

(** X2. Deleting an account whose upper-case id is a key removes that
    account with its balance and history and no other: its id is no
    key any more, every other id finds the account it found before, the
    ledger is saved, and the archive, with the entries of the deleted
    account, is as before. *)
Theorem delete_removes_one_account :
  forall upper st name,
    NoDup (keys (accounts st)) ->
    In (upper name) (keys (accounts st)) ->
    let st' := snd (delete_account upper name st) in
    fst (delete_account upper name st) = Ret (true, "The account was deleted.")
    /\ lookup (upper name) (accounts st') = None
    /\ (forall k, k <> upper name ->
                  lookup k (accounts st') = lookup k (accounts st))
    /\ accounts_file st' = Some (accounts st')
    /\ archive st' = archive st
    /\ archive_file st' = archive_file st.
Proof.
  intros upper st name ND H st'. apply mem_In in H.
  subst st'. rewrite (delete_account_existing upper st name H). simpl.
  split; [reflexivity|]. split; [now apply lookup_dict_del_same|].
  split; [|now repeat split].
  intros k Hk. apply lookup_dict_del_other. congruence.
Qed.

(** ** The keys of the ledger along a run *)

Section Keys.

Variable py_eval_float : string -> option float.
Variables upper lower : string -> string.
Variable utcnow_isoformat : nat -> string.
Variable date_and_time : string -> string * string.

Lemma keys_add :
  forall st name digits k,
    In k (keys (accounts (snd (add_account upper name digits st)))) ->
    In k (keys (accounts st)) \/ k = upper name.
Proof.
  intros st name digits k.
  destruct (mem (upper name) (accounts st)) eqn:E.
  - rewrite add_account_existing by exact E. now left.
  - rewrite add_account_new by exact E. simpl. rewrite keys_app.
    intros H. apply in_app_or in H. destruct H as [H|[H|[]]]; auto.
Qed.

Lemma NoDup_add :
  forall st name digits,
    NoDup (keys (accounts st)) ->
    NoDup (keys (accounts (snd (add_account upper name digits st)))).
Proof.
  intros st name digits ND.
  destruct (mem (upper name) (accounts st)) eqn:E.
  - now rewrite add_account_existing by exact E.
  - rewrite add_account_new by exact E. simpl. rewrite keys_app. simpl.
    apply NoDup_snoc; [exact ND|]. now apply not_mem_In.
Qed.

Lemma keys_delete :
  forall st name k,
    In k (keys (accounts (snd (delete_account upper name st)))) ->
    In k (keys (accounts st)).
Proof.
  intros st name k.
  destruct (mem (upper name) (accounts st)) eqn:E.
  - rewrite delete_account_existing by exact E. simpl.
    apply keys_dict_del_incl.
  - now rewrite delete_account_absent by exact E.
Qed.

Lemma NoDup_delete :
  forall st name,
    NoDup (keys (accounts st)) ->
    NoDup (keys (accounts (snd (delete_account upper name st)))).
Proof.
  intros st name ND.
  destruct (mem (upper name) (accounts st)) eqn:E.
  - rewrite delete_account_existing by exact E. simpl. now apply NoDup_dict_del.
  - now rewrite delete_account_absent by exact E.
Qed.

(** A recording changes the keys only by the account it creates. *)
Lemma keys_record_state :
  forall st account expr comment,
    let k0 := upper account in
    let st1 := if mem k0 (accounts st) then st
               else snd (add_account upper k0 2 st) in
    keys (accounts (snd (record_transaction py_eval_float upper utcnow_isoformat
                           account expr comment st)))
    = keys (accounts st1).
Proof.
  intros st account expr comment k0 st1.
  rewrite record_after_creation. fold k0. fold st1.
  destruct (eval_expression_with_percent py_eval_float expr) as [val|]; [|reflexivity].
  destruct (lookup k0 (accounts st1)) as [info|]; [|reflexivity].
  destruct (quantize val (get_digits info)) as [d|e]; [|reflexivity].
  cbv zeta. cbn [snd accounts]. apply keys_update.
Qed.

Lemma keys_record :
  forall st account expr comment k,
    In k (keys (accounts (snd (record_transaction py_eval_float upper
                                 utcnow_isoformat account expr comment st)))) ->
    In k (keys (accounts st)) \/ k = upper (upper account).
Proof.
  intros st account expr comment k. rewrite keys_record_state.
  destruct (mem (upper account) (accounts st)); [now left | apply keys_add].
Qed.

Lemma NoDup_record :
  forall st account expr comment,
    NoDup (keys (accounts st)) ->
    NoDup (keys (accounts (snd (record_transaction py_eval_float upper
                                  utcnow_isoformat account expr comment st)))).
Proof.
  intros st account expr comment ND. rewrite keys_record_state.
  destruct (mem (upper account) (accounts st)); [exact ND | now apply NoDup_add].
Qed.

Lemma keys_verified :
  forall st,
    NoDup (keys (accounts st)) ->
    keys (accounts (snd (archive_verified utcnow_isoformat st)))
    = keys (accounts st).
Proof.
  intros st ND. rewrite (archive_verified_state utcnow_isoformat st ND).
  simpl. apply keys_cleared.
Qed.

Lemma keys_run :
  forall c st k,
    NoDup (keys (accounts st)) ->
    (forall name, In name (given_names [c]) -> upper (upper name) = upper name) ->
    In k (keys (accounts (run py_eval_float upper lower utcnow_isoformat
                            date_and_time c st))) ->
    In k (keys (accounts st))
    \/ exists name, In name (given_names [c]) /\ k = upper name.
Proof.
  intros [name digits|name|account expr comment| |account full|] st k ND U; simpl.
  - intros H. apply keys_add in H. destruct H as [H| ->]; [now left|].
    right. exists name. split; [now left | reflexivity].
  - intros H. left. eapply keys_delete. exact H.
  - intros H. apply keys_record in H. destruct H as [H| ->]; [now left|].
    right. exists account. split; [now left|]. apply U. now left.
  - rewrite give_balances_reads_only. now left.
  - rewrite give_account_statement_reads_only. now left.
  - rewrite keys_verified by exact ND. now left.
Qed.

Lemma NoDup_run :
  forall c st,
    NoDup (keys (accounts st)) ->
    NoDup (keys (accounts (run py_eval_float upper lower utcnow_isoformat
                             date_and_time c st))).
Proof.
  intros [name digits|name|account expr comment| |account full|] st ND; simpl.
  - now apply NoDup_add.
  - now apply NoDup_delete.
  - now apply NoDup_record.
  - now rewrite give_balances_reads_only.
  - now rewrite give_account_statement_reads_only.
  - now rewrite keys_verified.
Qed.

Lemma keys_run_all :
  forall cs st,
    NoDup (keys (accounts st)) ->
    (forall name, In name (given_names cs) -> upper (upper name) = upper name) ->
    let st' := run_all py_eval_float upper lower utcnow_isoformat date_and_time
                 cs st in
    NoDup (keys (accounts st'))
    /\ forall k, In k (keys (accounts st')) ->
                 In k (keys (accounts st))
                 \/ exists name, In name (given_names cs) /\ k = upper name.
Proof.
  unfold run_all. induction cs as [|c cs IH]; intros st ND U; simpl.
  - split; [exact ND | now left].
  - assert (forall name, In name (given_names [c]) -> upper (upper name) = upper name)
      as Uc.
    { intros name H. apply U. unfold given_names in *. simpl in *.
      rewrite app_nil_r in H. apply in_or_app. now left. }
    assert (forall name, In name (given_names cs) -> upper (upper name) = upper name)
      as Us.
    { intros name H. apply U. unfold given_names in *. simpl.
      apply in_or_app. now right. }
    destruct (IH _ (NoDup_run c st ND) Us) as [ND' K].
    split; [exact ND'|]. intros k H.
    destruct (K k H) as [H1|(name & I & E)].
    + destruct (keys_run c st k ND Uc H1) as [H2|(name & I & E)]; [now left|].
      right. exists name. split; [|exact E].
      unfold given_names in *. simpl in *. rewrite app_nil_r in I.
      apply in_or_app. now left.
    + right. exists name. split; [|exact E].
      unfold given_names in *. simpl. apply in_or_app. now right.
Qed.

End Keys.

(** X3. Take any run of commands from the empty ledger, deletions
    included, with [guarded] expressions and names whose upper-case
    form is not changed by [upper] (as the results of [str.upper] are).
    In the state that the run reaches, every id of the ledger is the
    upper-case form of a name that a command of the run gave to
    [add_account] or to [record_transaction], and no two ids are equal
    up to case: ids with the same upper-case form are the same id. *)
Theorem account_ids_are_distinct_upper_case :
  forall py_eval_float upper lower utcnow_isoformat date_and_time cs,
    forallb guarded_command cs = true ->
    (forall name, In name (given_names cs) -> upper (upper name) = upper name) ->
    let st :=
      run_all py_eval_float upper lower utcnow_isoformat date_and_time
        cs initial_state in
    NoDup (keys (accounts st))
    /\ (forall k,
           In k (keys (accounts st)) ->
           exists name, In name (given_names cs) /\ k = upper name)
    /\ (forall k1 k2,
           In k1 (keys (accounts st)) -> In k2 (keys (accounts st)) ->
           upper k1 = upper k2 -> k1 = k2).
Proof.
  intros f upper lower u dt cs _ U st.
  destruct (keys_run_all f upper lower u dt cs initial_state) as [ND K];
    [constructor | exact U |].
  assert (forall k, In k (keys (accounts st)) ->
                    exists name, In name (given_names cs) /\ k = upper name) as G.
  { intros k H. destruct (K k H) as [[]|E]. exact E. }
  split; [exact ND|]. split; [exact G|].
  intros k1 k2 H1 H2 E.
  destruct (G k1 H1) as (n1 & I1 & ->). destruct (G k2 H2) as (n2 & I2 & ->).
  now rewrite (U n1 I1), (U n2 I2) in E.
Qed.

(** ** Transaction recorder: further properties *)

Lemma lookup_app_other :
  forall k k' a l, k <> k' -> lookup k (l ++ [(k', a)])%list = lookup k l.
Proof.
  intros k k' a l Hne. induction l as [|[k0 a0] r IH]; simpl.
  - apply String.eqb_neq in Hne. now rewrite Hne.
  - destruct (String.eqb k k0); [reflexivity | exact IH].
Qed.

(** X5. The first recording for an id that is not in the ledger, with
    a [guarded] expression that evaluates and rounds, creates the account with 2
    digits and records the amount in it: the balance is 0.0 plus the
    amount, the history is the one new entry, every other account is
    as before, and the ledger is saved. *)
Theorem first_recording_creates_account :
  forall py_eval_float upper utcnow_isoformat st account expr comment val d,
    ~ In (upper account) (keys (accounts st)) ->
    upper (upper account) = upper account ->
    guarded expr = true ->
    eval_expression_with_percent py_eval_float expr = Some val ->
    quantize val 2 = Ret d ->
    let q := float_of_decimal d in
    let r := record_transaction py_eval_float upper utcnow_isoformat
               account expr comment st in
    fst r = Ret (Applied q)
    /\ lookup (upper account) (accounts (snd r))
       = Some (mkAccount (fadd (S754_zero false) q) (Some 2)
                 [mkTransaction (utcnow_isoformat (clock st)) q expr comment])
    /\ (forall k, k <> upper account ->
                  lookup k (accounts (snd r)) = lookup k (accounts st))
    /\ accounts_file (snd r) = Some (accounts (snd r)).
Proof.
  intros f upper u st account expr comment val d Hn Hu _ He Hq q r. subst r.
  rewrite record_after_creation. rewrite He.
  apply not_mem_In in Hn. rewrite Hn.
  assert (mem (upper (upper account)) (accounts st) = false) as Hn'
    by now rewrite Hu.
  rewrite (add_account_new upper st (upper account) 2 Hn'). rewrite Hu.
  cbn [snd accounts archive accounts_file archive_file clock].
  rewrite (lookup_app_new _ _ _ Hn).
  change (get_digits (mkAccount (S754_zero false) (Some 2) [])) with 2.
  rewrite Hq. cbv zeta. cbn [fst snd accounts accounts_file].
  split; [reflexivity|]. split; [|split; [|reflexivity]].
  - erewrite lookup_update_same by (now apply lookup_app_new). reflexivity.
  - intros k Hk. rewrite lookup_update_other by congruence.
    now apply lookup_app_other.
Qed.

(** X6. Whatever [record_transaction] returns or raises for a
    [guarded] expression, it changes at
    most the account of its id: every account with another id is as it
    was before, the archive and its file are untouched, and the clock
    has been read at most once. *)
Theorem recording_touches_one_account :
  forall py_eval_float upper utcnow_isoformat st account expr comment,
    guarded expr = true ->
    let st' := snd (record_transaction py_eval_float upper utcnow_isoformat
                      account expr comment st) in
    (forall k, k <> upper account -> k <> upper (upper account) ->
               lookup k (accounts st') = lookup k (accounts st))
    /\ archive st' = archive st
    /\ archive_file st' = archive_file st
    /\ (clock st' = clock st \/ clock st' = S (clock st)).
Proof.
  intros f upper u st account expr comment _ st'. subst st'.
  rewrite record_after_creation.
  set (k0 := upper account).
  set (st1 := if mem k0 (accounts st) then st else snd (add_account upper k0 2 st)).
  assert ((forall k, k <> upper k0 -> lookup k (accounts st1) = lookup k (accounts st))
          /\ archive st1 = archive st /\ archive_file st1 = archive_file st
          /\ clock st1 = clock st) as (F & A & AF & C).
  { subst st1. destruct (mem k0 (accounts st)); [now repeat split|].
    destruct (mem (upper k0) (accounts st)) eqn:E.
    - rewrite add_account_existing by exact E. now repeat split.
    - rewrite add_account_new by exact E. simpl. repeat split.
      intros k Hk. now apply lookup_app_other. }
  clearbody st1.
  assert ((forall k : string,
              k <> k0 -> k <> upper k0 -> lookup k (accounts st1) = lookup k (accounts st))
          /\ archive st1 = archive st /\ archive_file st1 = archive_file st
          /\ (clock st1 = clock st \/ clock st1 = S (clock st))) as Same
    by (repeat split; auto).
  destruct (eval_expression_with_percent f expr) as [val|]; [|exact Same].
  destruct (lookup k0 (accounts st1)) as [info|] eqn:L; [|exact Same].
  destruct (quantize val (get_digits info)) as [d|e]; [|exact Same].
  cbv zeta. cbn [snd accounts archive archive_file clock].
  split; [|split; [exact A | split; [exact AF | right; now rewrite C]]].
  intros k Hk Hk'. rewrite lookup_update_other by congruence. now apply F.
Qed.

(** X7. Under every command but a deletion, with a [guarded]
    expression if it has one, an account of the ledger
    stays in the ledger with the digits it has: they are fixed at
    creation. Its history is emptied by an archival run, which keeps
    the balance; under every other command the history only grows at
    its end, by one entry at most. *)
Theorem digits_fixed_history_append_only :
  forall py_eval_float upper lower utcnow_isoformat date_and_time c st k a,
    NoDup (keys (accounts st)) ->
    is_delete c = false ->
    guarded_command c = true ->
    lookup k (accounts st) = Some a ->
    exists a',
      lookup k (accounts (run py_eval_float upper lower utcnow_isoformat
                            date_and_time c st)) = Some a'
      /\ acc_digits a' = acc_digits a
      /\ match c with
         | CmdVerified => acc_history a' = [] /\ acc_balance a' = acc_balance a
         | _ => exists new, acc_history a' = (acc_history a ++ new)%list
                            /\ (List.length new <= 1)%nat
         end.
Proof.
  intros f upper lower u dt c st k a ND D _ L.
  assert (forall st1,
             lookup k (accounts st1) = Some a ->
             exists a', lookup k (accounts st1) = Some a'
                        /\ acc_digits a' = acc_digits a
                        /\ exists new, acc_history a' = (acc_history a ++ new)%list
                                       /\ (List.length new <= 1)%nat) as Same.
  { intros st1 L1. exists a. split; [exact L1|]. split; [reflexivity|].
    exists []. split; [now rewrite app_nil_r | simpl; lia]. }
  assert (forall name digits,
             lookup k (accounts (snd (add_account upper name digits st))) = Some a)
    as Add.
  { intros name digits. destruct (mem (upper name) (accounts st)) eqn:E.
    - now rewrite add_account_existing by exact E.
    - rewrite add_account_new by exact E. simpl. now apply lookup_app_old. }
  destruct c as [name digits|name|account expr comment| |account full|]; simpl.
  - apply Same, Add.
  - discriminate.
  - rewrite record_after_creation.
    set (k0 := upper account).
    set (st1 := if mem k0 (accounts st) then st else snd (add_account upper k0 2 st)).
    assert (lookup k (accounts st1) = Some a) as L1.
    { subst st1. destruct (mem k0 (accounts st)); [exact L | apply Add]. }
    clearbody st1.
    destruct (eval_expression_with_percent f expr) as [val|]; [|now apply Same].
    destruct (lookup k0 (accounts st1)) as [info|] eqn:L0; [|now apply Same].
    destruct (quantize val (get_digits info)) as [d|e]; [|now apply Same].
    cbv zeta. cbn [snd accounts].
    destruct (String.eqb k0 k) eqn:E.
    + apply String.eqb_eq in E. subst k.
      rewrite (lookup_update_same _ _ _ _ L1).
      eexists. split; [reflexivity|]. split; [reflexivity|].
      simpl. eexists. split; [reflexivity | simpl; lia].
    + apply String.eqb_neq in E. rewrite lookup_update_other by exact E.
      apply (Same (mkState (accounts st1) [] None None 0)). exact L1.
  - rewrite give_balances_reads_only. now apply Same.
  - rewrite give_account_statement_reads_only. now apply Same.
  - rewrite (archive_verified_state u st ND). simpl.
    rewrite lookup_cleared, L. simpl. eexists. split; [reflexivity|].
    now repeat split.
Qed.

(** X8. For an account of the ledger whose digits are not below
    -999999 and a [guarded] expression: an expression that evaluates to an infinity raises
    [InvalidOperation] and the state is untouched; an expression that
    evaluates to a NaN is recorded, with NaN as the amount, and the
    balance of the account is NaN from then on. *)
Theorem recording_infinity_and_nan :
  forall py_eval_float upper utcnow_isoformat st account expr comment info,
    lookup (upper account) (accounts st) = Some info ->
    - 999999 <= get_digits info ->
    guarded expr = true ->
    let r := record_transaction py_eval_float upper utcnow_isoformat
               account expr comment st in
    (forall s,
        eval_expression_with_percent py_eval_float expr = Some (S754_infinity s) ->
        r = (Raise InvalidOperation, st))
    /\ (eval_expression_with_percent py_eval_float expr = Some S754_nan ->
        fst r = Ret (Applied S754_nan)
        /\ option_map acc_balance (lookup (upper account) (accounts (snd r)))
           = Some S754_nan)
    /\ (acc_balance info = S754_nan ->
        option_map acc_balance (lookup (upper account) (accounts (snd r)))
        = Some S754_nan).
Proof.
  intros f upper u st account expr comment info L D _ r.
  assert (exists qe, quantum_exponent (get_digits info) = Ret qe) as [qe Q].
  { unfold quantum_exponent. destruct (0 <=? get_digits info); [eauto|].
    unfold context_Emax. destruct (999999 <? - get_digits info) eqn:E; [lia | eauto]. }
  split; [|split].
  - intros s He. subst r.
    apply (record_raises f upper u st account expr comment info _ _ L He).
    unfold quantize. now rewrite Q.
  - intros He. subst r.
    rewrite (record_applied f upper u st account expr comment info S754_nan DecNaN L He)
      by (unfold quantize; now rewrite Q).
    cbn [fst snd accounts float_of_decimal]. split; [reflexivity|].
    rewrite (lookup_update_same _ _ _ _ L). simpl.
    unfold fadd. now destruct (acc_balance info).
  - intros B. subst r. rewrite record_after_creation.
    unfold mem. rewrite L.
    destruct (eval_expression_with_percent f expr) as [val|];
      [|cbn [snd]; now rewrite L; simpl; rewrite B].
    rewrite L.
    destruct (quantize val (get_digits info)) as [d|e];
      [|cbn [snd]; now rewrite L; simpl; rewrite B].
    cbv zeta. cbn [snd accounts].
    rewrite (lookup_update_same _ _ _ _ L). simpl. now rewrite B.
Qed.

(** ** The bound of 28 digits *)

Lemma round_half_up_bound :
  forall n d b,
    (b <= round_half_up n d <-> 2 * b * Zpos d <= 2 * n + Zpos d).
Proof.
  intros n d b. unfold round_half_up.
  assert (0 < 2 * Zpos d) as P by lia.
  split; intros H.
  - pose proof (Z.mul_div_le (2 * n + Zpos d) (2 * Zpos d) P). nia.
  - apply Z.div_le_lower_bound; [exact P | lia].
Qed.

Lemma quantize_finite_bound :
  forall s m e digits,
    0 <= digits <= 1000026 ->
    let x := S754_finite s m e in
    let num := fst (magnitude x) in
    let den := Zpos (snd (magnitude x)) in
    (2 * 10 ^ 28 * den <= 2 * (num * 10 ^ digits) + den ->
     quantize x digits = Raise InvalidOperation)
    /\ (2 * (num * 10 ^ digits) + den < 2 * 10 ^ 28 * den ->
        quantize x digits = Ret (Dec s (rescale_half_up x (- digits)) (- digits))).
Proof.
  intros s m e digits H x num den.
  pose proof (quantize_finite s m e digits H) as Q. cbv zeta in Q. fold x in Q.
  assert (10 ^ context_prec <= rescale_half_up x (- digits)
          <-> 2 * 10 ^ 28 * den <= 2 * (num * 10 ^ digits) + den) as B.
  { subst num den. unfold rescale_half_up.
    destruct (magnitude x) as [n d]. simpl fst. simpl snd.
    change context_prec with 28.
    destruct digits as [|p|p]; simpl Z.opp; cbv iota.
    - rewrite Z.pow_0_r, Z.mul_1_r. apply round_half_up_bound.
    - rewrite Pos2Z.inj_pow. apply round_half_up_bound.
    - lia. }
  split; intros Hb; rewrite Q.
  - apply B in Hb. apply Z.leb_le in Hb. now rewrite Hb.
  - destruct (10 ^ context_prec <=? rescale_half_up x (- digits)) eqn:E;
      [|reflexivity].
    apply Z.leb_le in E. apply B in E. lia.
Qed.

(** X9. An amount must fit in 28 digits. For an account of the ledger
    with digits [d] (0 to 1000026) and a [guarded] expression whose
    value is a finite float of magnitude [num / den]: when that
    magnitude times 10^d is 10^28 - 1/2 or more, [record_transaction]
    raises [InvalidOperation] and the state is untouched; when it is
    less, the amount [q] is recorded and returned: [q] is the float of
    the value rounded half up to [d] digits, the balance of the account
    is the balance of before plus [q], its history has the entry with
    [q], the expression and the comment at its end, every other account
    is as before, and the ledger is saved. *)
Theorem recording_refuses_more_than_28_digits :
  forall py_eval_float upper utcnow_isoformat st account expr comment info s m e,
    lookup (upper account) (accounts st) = Some info ->
    0 <= get_digits info <= 1000026 ->
    guarded expr = true ->
    eval_expression_with_percent py_eval_float expr = Some (S754_finite s m e) ->
    let x := S754_finite s m e in
    let num := fst (magnitude x) in
    let den := Zpos (snd (magnitude x)) in
    let r := record_transaction py_eval_float upper utcnow_isoformat
               account expr comment st in
    (2 * 10 ^ 28 * den <= 2 * (num * 10 ^ get_digits info) + den ->
     r = (Raise InvalidOperation, st))
    /\ (2 * (num * 10 ^ get_digits info) + den < 2 * 10 ^ 28 * den ->
        let q := float_of_decimal
                   (Dec s (rescale_half_up x (- get_digits info))
                      (- get_digits info)) in
        let entry := mkTransaction (utcnow_isoformat (clock st)) q expr comment in
        fst r = Ret (Applied q)
        /\ lookup (upper account) (accounts (snd r))
           = Some (mkAccount (fadd (acc_balance info) q) (acc_digits info)
                     (acc_history info ++ [entry]))
        /\ (forall k, k <> upper account ->
                      lookup k (accounts (snd r)) = lookup k (accounts st))
        /\ accounts_file (snd r) = Some (accounts (snd r))
        /\ archive (snd r) = archive st).
Proof.
  intros f upper u st account expr comment info s m e L D _ He x num den r.
  destruct (quantize_finite_bound s m e (get_digits info) D) as [Hi Lo].
  split; intros Hb; subst r.
  - apply (record_raises f upper u st account expr comment info _ _ L He).
    now apply Hi.
  - intros q entry.
    rewrite (record_applied f upper u st account expr comment info _ _ L He
               (Lo Hb)).
    cbn [fst snd accounts accounts_file archive].
    split; [reflexivity|]. split; [|split; [|now split]].
    + now rewrite (lookup_update_same _ _ _ _ L).
    + intros k Hk. apply lookup_update_other. congruence.
Qed.

(** ** Statement formatter *)

(** A loop of reads: it returns the list of the values when every
    element gives one, and raises when some element raises. *)
Lemma map_m_values :
  forall A B (f : A -> M B) l ys st,
    Forall2 (fun x y => f x st = (Ret y, st)) l ys ->
    map_m f l st = (Ret ys, st).
Proof.
  intros A B f l ys st H. induction H as [|x y l ys Hx Hl IH]; simpl.
  - reflexivity.
  - unfold bind. rewrite Hx. unfold bind. rewrite IH. reflexivity.
Qed.

Lemma map_m_raises :
  forall A B (f : A -> M B) l st,
    (forall x, exists r, f x st = (r, st)) ->
    (exists x e, In x l /\ f x st = (Raise e, st)) ->
    exists e, map_m f l st = (Raise e, st).
Proof.
  intros A B f l st P. induction l as [|x l IH]; intros (x0 & e & I & R).
  - destruct I.
  - simpl. unfold bind. destruct (P x) as [[y|e'] Hx]; rewrite Hx; [|eauto].
    destruct I as [->|I]; [congruence|].
    destruct IH as [e1 H1]; [eauto|]. unfold bind. rewrite H1. eauto.
Qed.

Lemma format_amount_negative_digits :
  forall x digits, digits < 0 -> exists e, format_amount x digits = Raise e.
Proof.
  intros x digits H. unfold format_amount.
  destruct (quantize x digits) as [q|e]; [|eauto].
  unfold format_decimal. apply Z.ltb_lt in H. rewrite H. eauto.
Qed.

Lemma give_balances_line :
  forall lower (item : string * Account) st,
    (fun '(acc, info) =>
       bal <- lift (format_amount (acc_balance info) (get_digits info)) ;;
       ret (bal ++ " " ++ lower acc)) item st
    = (match format_amount (acc_balance (snd item)) (get_digits (snd item)) with
       | Ret bal => Ret (bal ++ " " ++ lower (fst item))
       | Raise e => Raise e
       end, st).
Proof.
  intros lower [acc info] st. unfold bind, lift, ret. simpl.
  now destruct (format_amount (acc_balance info) (get_digits info)).
Qed.

(** X10. [give_balances] writes one line for each account, in the
    order of the ledger, the balance formatted to the digits of the
    account and the id in lower case, under the heading "Of your
    funds:"; for an empty ledger it answers "No accounts yet."; it
    never changes the state. *)
Theorem balances_listing :
  forall lower st lines,
    Forall2 (fun (item : string * Account) line =>
               exists bal,
                 format_amount (acc_balance (snd item)) (get_digits (snd item))
                 = Ret bal
                 /\ line = bal ++ " " ++ lower (fst item))
            (accounts st) lines ->
    give_balances lower st
    = (Ret (match lines with
            | [] => "No accounts yet."
            | _ => "Of your funds:" ++ String newline (join_lines lines)
            end), st).
Proof.
  intros lower st lines H. unfold give_balances.
  unfold bind at 1. unfold get_accounts at 1. unfold bind at 1.
  rewrite (map_m_values _ _ _ (accounts st) lines st).
  - now destruct lines.
  - eapply Forall2_impl; [|exact H]. intros item line (bal & F & ->).
    etransitivity; [exact (give_balances_line lower item st)|]. now rewrite F.
Qed.

(** X11. One account with negative digits makes the listing of all
    balances fail: [give_balances] raises, whatever the other accounts
    are. The handler [/add] accepts such digits: after
    [/add <name> <d>] with a negative [d] for a new name, [/give]
    raises instead of replying. *)
Theorem negative_digits_break_balances :
  (forall lower st k a,
      In (k, a) (accounts st) -> get_digits a < 0 ->
      exists e, give_balances lower st = (Raise e, st))
  /\ (forall upper lower date_and_time py_int st name d more n,
         py_int d = Some n -> n < 0 ->
         ~ In (upper name) (keys (accounts st)) ->
         let st1 := snd (add_cmd upper py_int (name :: d :: more) st) in
         fst (add_cmd upper py_int (name :: d :: more) st)
         = Replied ("The account was added. The accuracy of " ++ str_of_Z n
                    ++ " digits after the decimal point is established.")
         /\ exists e,
             give_cmd upper lower date_and_time [] st1 = (Raised e, st1)).
Proof.
  assert (forall lower st k a,
             In (k, a) (accounts st) -> get_digits a < 0 ->
             exists e, give_balances lower st = (Raise e, st)) as G.
  { intros lower st k a I D. unfold give_balances.
    unfold bind at 1. unfold get_accounts at 1. unfold bind at 1.
    destruct (map_m_raises _ _
                (fun item : string * Account =>
                   let (acc, info) return M string := item in
                   bal <- lift (format_amount (acc_balance info) (get_digits info)) ;;
                   ret (bal ++ " " ++ lower acc))
                (accounts st) st) as [e E].
    - intros item. eexists. exact (give_balances_line lower item st).
    - destruct (format_amount_negative_digits (acc_balance a) _ D) as [e E].
      exists (k, a), e. split; [exact I|].
      etransitivity; [exact (give_balances_line lower (k, a) st)|].
      simpl. now rewrite E.
    - rewrite E. eauto. }
  split; [exact G|].
  intros upper lower dt py_int st name d more n Hd Hn Hk st1.
  apply not_mem_In in Hk.
  assert (add_cmd upper py_int (name :: d :: more) st
          = (Replied ("The account was added. The accuracy of " ++ str_of_Z n
                      ++ " digits after the decimal point is established."),
             snd (add_account upper name n st))) as A.
  { unfold add_cmd. rewrite Hd. unfold react, bind.
    rewrite (add_account_new upper st name n Hk). reflexivity. }
  subst st1. rewrite A. split; [reflexivity|]. cbn [snd].
  destruct (G lower (snd (add_account upper name n st)) (upper name)
              (mkAccount (S754_zero false) (Some n) [])) as [e E].
  - rewrite (add_account_new upper st name n Hk). simpl.
    apply in_or_app. right. now left.
  - exact Hn.
  - exists e. unfold give_cmd, react. now rewrite E.
Qed.

Lemma statement_line :
  forall (date_and_time : string -> string * string) digits (e : Transaction) st,
    (let (date, time) := date_and_time (tx_timestamp e) in
     amt <- lift (format_amount (tx_amount e) digits) ;;
     ret (pad_left 10 amt ++ " " ++ date ++ " " ++ time ++ " " ++ tx_comment e)) st
    = (match format_amount (tx_amount e) digits with
       | Ret amt =>
           Ret (pad_left 10 amt ++ " " ++ fst (date_and_time (tx_timestamp e))
                ++ " " ++ snd (date_and_time (tx_timestamp e))
                ++ " " ++ tx_comment e)
       | Raise x => Raise x
       end, st).
Proof.
  intros dt digits e st. destruct (dt (tx_timestamp e)) as [d t].
  unfold bind, lift, ret. simpl. now destruct (format_amount (tx_amount e) digits).
Qed.

(** X12. The statement that [/give <account>] sends for an account of
    the ledger has the two heading lines and then one line for each of
    the last 20 entries of the history, the newest first, with the
    amount formatted to the digits of the account and pushed right in
    10 columns, the date, the time and the comment; the handler never
    asks for the full history, and the state is not changed. *)
Theorem statement_shows_last_20_newest_first :
  forall upper lower date_and_time st account more info lines,
    lookup (upper account) (accounts st) = Some info ->
    let shown := firstn 20 (rev (acc_history info)) in
    Forall2 (fun e line =>
               exists amt,
                 format_amount (tx_amount e) (get_digits info) = Ret amt
                 /\ line = pad_left 10 amt
                           ++ " " ++ fst (date_and_time (tx_timestamp e))
                           ++ " " ++ snd (date_and_time (tx_timestamp e))
                           ++ " " ++ tx_comment e)
            shown lines ->
    give_cmd upper lower date_and_time (account :: more) st
    = (Replied (join_lines (("Details /" ++ upper account)
                            :: " sum          date  time  comment" :: lines)),
       st)
    /\ List.length lines = Nat.min 20 (List.length (acc_history info)).
Proof.
  intros upper lower dt st account more info lines L shown H.
  split.
  - unfold give_cmd, react, give_account_statement.
    unfold bind at 1. unfold get_accounts at 1. rewrite L.
    unfold bind at 1.
    replace (rev (skipn (List.length (acc_history info) - 20) (acc_history info)))
      with shown by (subst shown; apply firstn_rev).
    rewrite (map_m_values _ _ _ shown lines st); [reflexivity|].
    eapply Forall2_impl; [|exact H]. intros e line (amt & F & ->).
    etransitivity; [exact (statement_line dt (get_digits info) e st)|].
    now rewrite F.
  - rewrite <- (Forall2_length H). subst shown.
    rewrite length_firstn, length_rev. reflexivity.
Qed.

(** ** The text of an amount *)

Lemma digits_value_uint_acc :
  forall u acc,
    digits_value (Zpos acc) (NilEmpty.string_of_uint u)
    = Zpos (Pos.of_uint_acc u acc).
Proof.
  induction u as [|u IH|u IH|u IH|u IH|u IH|u IH|u IH|u IH|u IH|u IH];
    intros acc; cbn [digits_value NilEmpty.string_of_uint Pos.of_uint_acc];
    [reflexivity|..];
    rewrite <- IH; f_equal;
    match goal with
    | |- context [N_of_ascii ?c] =>
        let v := eval vm_compute in (N_of_ascii c) in
        change (N_of_ascii c) with v
    end; lia.
Qed.

Lemma digits_value_uint :
  forall u, digits_value 0 (NilEmpty.string_of_uint u) = Z.of_N (Pos.of_uint u).
Proof.
  induction u as [|u IH|u IH|u IH|u IH|u IH|u IH|u IH|u IH|u IH|u IH];
    cbn [digits_value NilEmpty.string_of_uint Pos.of_uint];
    [reflexivity | exact IH |..];
    apply (digits_value_uint_acc u).
Qed.

Lemma all_digits_uint :
  forall u, all_chars is_digit (NilEmpty.string_of_uint u) = true.
Proof.
  induction u as [|u IH|u IH|u IH|u IH|u IH|u IH|u IH|u IH|u IH|u IH];
    simpl; [reflexivity|..]; exact IH.
Qed.

Lemma string_of_uint_nonnil :
  forall u, u <> Decimal.Nil ->
            NilZero.string_of_uint u = NilEmpty.string_of_uint u
            /\ NilEmpty.string_of_uint u <> "".
Proof.
  intros u H. destruct u; [congruence|..]; split; (reflexivity || discriminate).
Qed.

Lemma str_of_Z_spec :
  forall k,
    0 <= k ->
    str_of_Z k <> ""
    /\ all_chars is_digit (str_of_Z k) = true
    /\ digits_value 0 (str_of_Z k) = k.
Proof.
  intros [|p|p] H; [now repeat split | | lia].
  unfold str_of_Z. cbn [Z.to_int NilZero.string_of_int].
  destruct (string_of_uint_nonnil _ (DecimalPos.Unsigned.to_uint_nonnil p))
    as [E N].
  rewrite E. split; [exact N|]. split; [apply all_digits_uint|].
  now rewrite digits_value_uint, DecimalPos.Unsigned.of_to.
Qed.

Lemma substring_all : forall s, substring 0 (String.length s) s = s.
Proof. induction s as [|c s IH]; simpl; [reflexivity | now rewrite IH]. Qed.

Lemma substring_split :
  forall s n,
    (n <= String.length s)%nat ->
    substring 0 n s ++ substring n (String.length s - n) s = s.
Proof.
  induction s as [|c s IH]; intros [|n] H.
  - reflexivity.
  - simpl in H. lia.
  - cbn [String.length Nat.sub]. cbn [substring append]. now rewrite substring_all.
  - cbn [String.length Nat.sub substring append]. f_equal. apply IH.
    simpl in H. lia.
Qed.

Lemma length_substring :
  forall s n m,
    (n + m <= String.length s)%nat -> String.length (substring n m s) = m.
Proof.
  induction s as [|c s IH]; intros [|n] [|m] H; simpl in *; try reflexivity; try lia.
  - f_equal. apply (IH 0%nat). simpl. lia.
  - apply IH. lia.
  - apply IH. lia.
Qed.

Lemma length_repeat_char : forall c n, String.length (repeat_char c n) = n.
Proof. induction n as [|n IH]; simpl; [reflexivity | now rewrite IH]. Qed.

Lemma digits_value_zeros :
  forall n t, digits_value 0 (repeat_char "0" n ++ t) = digits_value 0 t.
Proof. induction n as [|n IH]; intros t; simpl; [reflexivity | apply IH]. Qed.

Lemma all_digits_zeros : forall n, all_chars is_digit (repeat_char "0" n) = true.
Proof. induction n as [|n IH]; simpl; [reflexivity | exact IH]. Qed.

Lemma round_half_up_nonneg : forall n d, 0 <= n -> 0 <= round_half_up n d.
Proof.
  intros n d H. unfold round_half_up. apply Z.div_pos; lia.
Qed.

Lemma rescale_half_up_nonneg : forall x qe, 0 <= rescale_half_up x qe.
Proof.
  intros x qe. unfold rescale_half_up.
  assert (0 <= fst (magnitude x)) as H.
  { destruct x as [s|s| |s m e]; cbn [magnitude fst]; try lia.
    destruct e; cbn [fst]; try lia;
      (apply Z.mul_nonneg_nonneg; [lia | apply Z.pow_nonneg; lia]). }
  destruct (magnitude x) as [num den]. simpl in H.
  destruct qe; apply round_half_up_nonneg; lia.
Qed.

Lemma format_amount_text :
  forall s m e digits,
    0 <= digits <= 1000026 ->
    let x := S754_finite s m e in
    let k := rescale_half_up x (- digits) in
    k < 10 ^ 28 ->
    exists ip fp,
      format_amount x digits
      = Ret ((if s then "-" else "") ++ ip
             ++ (if digits =? 0 then "" else "." ++ fp))
      /\ ip <> ""
      /\ all_chars is_digit (ip ++ fp) = true
      /\ Z.of_nat (String.length fp) = digits
      /\ digits_value 0 (ip ++ fp) = k.
Proof.
  intros s m e digits D x k K.
  pose proof (quantize_finite s m e digits D) as Q. cbv zeta in Q.
  fold x in Q. fold k in Q.
  assert ((10 ^ context_prec <=? k) = false) as Hk by (apply Z.leb_gt; exact K).
  rewrite Hk in Q.
  pose proof (rescale_half_up_nonneg x (- digits)) as K0. fold k in K0.
  destruct (str_of_Z_spec k K0) as (SN & SD & SV).
  set (d := Z.to_nat digits).
  set (ds := repeat_char "0" (S d - String.length (str_of_Z k)) ++ str_of_Z k).
  assert (S d <= String.length ds)%nat as L.
  { subst ds. rewrite length_append, length_repeat_char. lia. }
  exists (substring 0 (String.length ds - d) ds),
         (substring (String.length ds - d) d ds).
  assert (substring 0 (String.length ds - d) ds
          ++ substring (String.length ds - d) d ds = ds) as Split.
  { pose proof (substring_split ds (String.length ds - d)) as P.
    replace (String.length ds - (String.length ds - d))%nat with d in P by lia.
    apply P. lia. }
  split; [|split; [|split; [|split]]].
  - unfold format_amount. rewrite Q. unfold format_decimal.
    destruct (digits <? 0) eqn:N; [lia|].
    replace (- digits + digits) with 0 by lia.
    rewrite Z.pow_0_r, Z.mul_1_r. fold d. fold ds.
    replace (Nat.eqb d 0) with (digits =? 0); [reflexivity|].
    subst d. destruct digits; simpl; try reflexivity; try lia.
    destruct (Pos2Nat.is_succ p) as [n ->]. reflexivity.
  - intros E. apply (f_equal String.length) in E.
    rewrite length_substring in E by lia. simpl in E. lia.
  - rewrite Split. subst ds. rewrite all_chars_append, all_digits_zeros, SD.
    reflexivity.
  - rewrite length_substring by lia. subst d. lia.
  - rewrite Split. subst ds. now rewrite digits_value_zeros.
Qed.

(** X13. The text of a finite amount shows the rounded value: for
    digits [d] from 0 to 1000026 and a value whose magnitude times 10^d
    rounds half up to [k] below 10^28, [format_amount] gives the sign
    "-" of a negative value (also of a negative zero), then the decimal
    digits of [k], at least one before the point and exactly [d] after
    it, with no point for [d = 0]. *)
Theorem format_amount_shows_rounded_value :
  forall s m e digits,
    0 <= digits <= 1000026 ->
    let x := S754_finite s m e in
    let k := rescale_half_up x (- digits) in
    k < 10 ^ 28 ->
    exists ip fp,
      format_amount x digits
      = Ret ((if s then "-" else "") ++ ip
             ++ (if digits =? 0 then "" else "." ++ fp))
      /\ ip <> ""
      /\ all_chars is_digit (ip ++ fp) = true
      /\ Z.of_nat (String.length fp) = digits
      /\ digits_value 0 (ip ++ fp) = k.
Proof. exact format_amount_text. Qed.

(** ** Expression evaluator: further properties *)

Lemma strip_blank : forall s, blank_text s -> strip s = "".
Proof.
  intros s H. unfold strip.
  rewrite <- (append_empty_r s), lstrip_blank_append by exact H. reflexivity.
Qed.

(** X14. An empty text and a text of white space do not reach [eval]:
    [safe_eval] and [eval_expression_with_percent] return [None] for
    them, whatever [eval] would do. *)
Theorem blank_text_is_not_evaluated :
  forall py_eval_float s,
    blank_text s ->
    safe_eval py_eval_float s = None
    /\ eval_expression_with_percent py_eval_float s = None.
Proof.
  intros f s H.
  assert (safe_eval f s = None) as S.
  { unfold safe_eval. now rewrite (strip_blank s H). }
  split; [exact S|].
  unfold eval_expression_with_percent. rewrite (strip_blank s H).
  unfold safe_eval. reflexivity.
Qed.

(** X15. A text without a percent sign is evaluated by [safe_eval] as
    it is: [eval_expression_with_percent] finds no suffix and rewrites
    nothing. *)
Theorem text_without_percent_is_evaluated_as_it_is :
  forall py_eval_float s,
    contains "%" s = false ->
    match_percent_suffix (strip s) = None
    /\ sub_percent (strip s) = strip s
    /\ eval_expression_with_percent py_eval_float s = safe_eval py_eval_float s.
Proof.
  intros f s H.
  assert (contains "%" (strip s) = false) as H'
    by (rewrite contains_strip; auto).
  split; [|split].
  - destruct (match_percent_suffix (strip s)) as [x|] eqn:M; [|reflexivity].
    apply match_suffix_percent in M. congruence.
  - now apply sub_percent_without_percent.
  - now apply evaluate_without_percent.
Qed.

Lemma match_percent_tail_shape :
  forall t num,
    match_percent_tail t = Some num ->
    number_text num
    /\ exists w1 w2 tail,
        t = w1 ++ num ++ w2 ++ String "%" tail
        /\ blank_text w1 /\ blank_text w2 /\ at_end tail = true.
Proof.
  intros t num. unfold match_percent_tail.
  destruct (lstrip_spec t) as (w & E & W).
  destruct (match_number (lstrip t)) as [[n r]|] eqn:M; [|discriminate].
  pose proof (match_number_is_number _ _ _ M) as N.
  apply match_number_spec in M. destruct M as [M _].
  destruct (lstrip_spec r) as (w' & E' & W').
  destruct (lstrip r) as [|c r']; [discriminate|].
  destruct (Ascii.eqb c "%") eqn:P; [|discriminate].
  destruct (at_end r') eqn:Z; [|discriminate].
  intros H. inversion H; subst n. apply Ascii.eqb_eq in P. subst c.
  split; [exact N|]. exists w, w', r'.
  split; [|now repeat split]. now rewrite E at 1; rewrite M, E' at 1.
Qed.

Lemma match_suffix_from_shape :
  forall s pre left op num,
    match_suffix_from pre s = Some (left, op, num) ->
    exists mid t,
      left = pre ++ mid /\ s = mid ++ String op t
      /\ contains newline mid = false /\ is_sign op = true
      /\ match_percent_tail t = Some num.
Proof.
  induction s as [|c s IH]; intros pre left op num H; [discriminate|].
  simpl in H.
  assert ((if Ascii.eqb c newline then None
           else match_suffix_from (pre ++ String c "") s) = Some (left, op, num) ->
          exists mid t,
            left = pre ++ mid /\ String c s = mid ++ String op t
            /\ contains newline mid = false /\ is_sign op = true
            /\ match_percent_tail t = Some num) as Next.
  { destruct (Ascii.eqb c newline) eqn:Nl; [discriminate|]. intros H'.
    destruct (IH _ _ _ _ H') as (mid & t & E1 & E2 & Hn & Hs & Ht).
    exists (String c mid), t. rewrite append_assoc in E1. simpl in E1.
    split; [exact E1|]. split; [simpl; now rewrite E2|].
    split; [simpl; now rewrite Nl|]. now split. }
  destruct (is_sign c) eqn:S; [|now apply Next].
  destruct (match_percent_tail s) as [n|] eqn:T; [|now apply Next].
  inversion H; subst. exists "", s. rewrite append_empty_r. now repeat split.
Qed.

(** ** The texts that [eval] sees

    On a [guarded] text the evaluation consults [eval] at texts of the
    whitelist only: two evaluators that agree on the texts that pass
    the pattern [ALLOWED] give the same result. *)

Lemma number_text_allowed :
  forall num, number_text num -> all_chars allowed_char num = true.
Proof.
  assert (forall d, all_chars is_digit d = true -> all_chars allowed_char d = true) as D.
  { intros d. apply all_chars_weaken. intros c H. unfold allowed_char. now rewrite H. }
  intros num [ip [_ H]|ip fp [_ H1] [_ H2]].
  - now apply D.
  - rewrite !all_chars_append. simpl. now rewrite (D _ H1), (D _ H2).
Qed.

Lemma sub_percent_from_allowed :
  forall s skip,
    all_chars allowed_char s = true ->
    all_chars allowed_char (sub_percent_from skip s) = true.
Proof.
  induction s as [|c r IH]; intros skip H; [reflexivity|].
  simpl in H. apply andb_true_iff in H. destruct H as [Hc Hr].
  destruct skip as [|k]; [|now apply IH].
  cbn [sub_percent_from].
  destruct (match_inline_percent (String c r)) as [[num len]|] eqn:M.
  - destruct (match_inline_percent_shape _ _ _ M) as (w & rest & N & _).
    change (all_chars allowed_char
              ("(" ++ num ++ "/100)" ++ sub_percent_from (Nat.pred len) r) = true).
    rewrite !all_chars_append.
    rewrite (number_text_allowed num N), (IH _ Hr). reflexivity.
  - change (allowed_char c && all_chars allowed_char (sub_percent_from 0 r) = true).
    rewrite Hc. now apply IH.
Qed.

Section Whitelist.

Variables f g : string -> option float.
Hypothesis agree : forall s, allowed_match s = true -> f s = g s.

Lemma safe_eval_agree :
  forall s,
    all_chars allowed_char s = true \/ contains "%" s = false ->
    safe_eval f s = safe_eval g s.
Proof.
  intros s H. unfold safe_eval. rewrite replace_same.
  destruct (allowed_match (strip s)) eqn:A.
  - simpl. now apply agree.
  - simpl. destruct (contains "%" (strip s)) eqn:P; [|reflexivity].
    exfalso. destruct H as [H|H].
    + rewrite <- (all_chars_strip allowed_char s space_allowed) in H.
      unfold allowed_match in A.
      destruct (strip s); [discriminate P | congruence].
    + rewrite contains_strip in P by reflexivity. congruence.
Qed.

Lemma evaluation_sees_whitelist_texts :
  forall expr,
    guarded expr = true ->
    eval_expression_with_percent f expr = eval_expression_with_percent g expr.
Proof.
  intros expr G. unfold guarded in G. apply orb_true_iff in G.
  destruct G as [G|G].
  - unfold eval_expression_with_percent.
    rewrite <- (all_chars_strip allowed_char expr space_allowed) in G.
    destruct (match_percent_suffix (strip expr)) as [[[g1 op] g3]|] eqn:M.
    + destruct (match_suffix_from_shape _ _ _ _ _ M) as (mid & t & E1 & E2 & _).
      simpl in E1. subst mid. rewrite E2, all_chars_append in G.
      apply andb_true_iff in G. destruct G as [G _].
      rewrite (safe_eval_agree (strip g1)); [reflexivity|].
      left. now rewrite (all_chars_strip allowed_char g1 space_allowed).
    + apply safe_eval_agree. left. now apply sub_percent_from_allowed.
  - apply negb_true_iff in G.
    rewrite !evaluate_without_percent by exact G.
    apply safe_eval_agree. now right.
Qed.

End Whitelist.

(** X16. The suffix pattern matches only texts of the percent-suffix
    form: when it matches with the groups [left], [op] and [N], the sign
    is "+" or "-", [left] has no line break, [N] is a number, and the
    text is [left], the sign, white space, [N], white space, "%" and
    nothing more but a possible final line break. *)
Theorem percent_suffix_match_is_exact :
  forall s left op num,
    match_percent_suffix s = Some (left, op, num) ->
    is_sign op = true
    /\ contains newline left = false
    /\ number_text num
    /\ exists w1 w2 tail,
        s = left ++ String op (w1 ++ num ++ w2 ++ String "%" tail)
        /\ blank_text w1 /\ blank_text w2 /\ at_end tail = true.
Proof.
  intros s left op num H. unfold match_percent_suffix in H.
  destruct (match_suffix_from_shape _ _ _ _ _ H) as (mid & t & E1 & E2 & Hn & Hs & Ht).
  simpl in E1. subst mid.
  destruct (match_percent_tail_shape _ _ Ht) as (N & w1 & w2 & tail & Et & B1 & B2 & Z).
  split; [exact Hs|]. split; [exact Hn|]. split; [exact N|].
  exists w1, w2, tail. rewrite E2, Et. now repeat split.
Qed.

(** ** The handlers *)

Lemma span_chars_spec :
  forall p s d r, span_chars p s = (d, r) -> s = d ++ r /\ all_chars p d = true.
Proof.
  intros p. induction s as [|c s IH]; simpl; intros d r H.
  - inversion H. auto.
  - destruct (p c) eqn:D.
    + destruct (span_chars p s) as [d' t]. inversion H; subst.
      destruct (IH d' r eq_refl) as [E A]. simpl. rewrite D, A. now rewrite <- E.
    + inversion H. auto.
Qed.

Lemma split_once_word :
  forall rest w more,
    split_once rest = w :: more -> w <> "" /\ all_chars no_space w = true.
Proof.
  intros rest w more. unfold split_once.
  pose proof (lstrip_starts rest) as S.
  destruct (lstrip rest) as [|c t] eqn:E; [discriminate|].
  destruct (span_chars (fun c => negb (is_space c)) (String c t)) as [word r] eqn:W.
  pose proof (span_chars_spec _ _ _ _ W) as [_ A].
  simpl in W. rewrite S in W. simpl in W.
  destruct (span_chars (fun c => negb (is_space c)) t) as [d t'].
  inversion W; subst word r.
  intros H.
  assert (w = String c d) as -> by (destruct (lstrip t'); now inversion H).
  split; [discriminate | exact A].
Qed.

Lemma split_once_parts :
  forall rest expr more,
    split_once rest = expr :: more ->
    (more = [] \/ exists comment, more = [comment])
    /\ exists w0 w,
        blank_text w0 /\ blank_text w
        /\ rest = w0 ++ expr ++ w ++ hd "" more.
Proof.
  intros rest expr more. unfold split_once.
  destruct (lstrip_spec rest) as (w0 & E0 & W0).
  destruct (lstrip rest) as [|c t] eqn:L; [discriminate|].
  destruct (span_chars (fun c => negb (is_space c)) (String c t)) as [word r] eqn:S.
  apply span_chars_spec in S. destruct S as [S _].
  destruct (lstrip_spec r) as (w & E & W).
  destruct (lstrip r) as [|c' t'] eqn:L'; intros H; inversion H as [[A B]].
  - split; [now left|]. exists w0, w. split; [exact W0|]. split; [exact W|].
    simpl. rewrite E0 at 1. rewrite <- A, S at 1. now rewrite E at 1.
  - split; [right; eauto|]. exists w0, w. split; [exact W0|]. split; [exact W|].
    simpl. rewrite E0 at 1. rewrite <- A, S at 1. now rewrite E at 1.
Qed.

Section HandlerProperties.

Variable py_eval_float : string -> option float.
Variables upper lower : string -> string.
Variable utcnow_isoformat : nat -> string.
Variable date_and_time : string -> string * string.
Variable py_int : string -> option Z.
Variable rate_query : string -> float -> RateOutcome.
Variable address_reply : string -> string.

Let handle :=
  message_handler py_eval_float upper lower utcnow_isoformat
    rate_query address_reply.
Let record := record_transaction py_eval_float upper utcnow_isoformat.
Let book := book_entry py_eval_float upper lower utcnow_isoformat.

(** The branch of a bookkeeping entry. *)
Lemma handle_entry :
  forall text st acc rest expr more,
    String.eqb (lower (strip text)) "yasha, verified" = false ->
    starts_with_slash (strip text) = true ->
    match_rate (message_body text) = None ->
    match_account_entry (message_body text) = Some (acc, rest) ->
    split_once rest = expr :: more ->
    handle text st = book acc expr (hd "" more) st.
Proof.
  intros text st acc rest expr more H1 H2 H3 H4 H5.
  unfold handle, message_handler. rewrite H1, H2.
  fold (message_body text). rewrite H3, H4, H5.
  now destruct more.
Qed.

Lemma book_entry_state :
  forall acc expr comment st,
    snd (book acc expr comment st) = snd (record acc expr comment st).
Proof.
  intros acc expr comment st. unfold book, book_entry. fold record.
  destruct (record acc expr comment st) as [[[msg|q]|e] st']; try reflexivity.
  simpl. destruct (lookup acc (accounts st')) as [info|]; [|reflexivity].
  destruct (format_amount q (get_digits info)); [|reflexivity].
  now destruct (format_amount (acc_balance info) (get_digits info)).
Qed.

(** X17. The reply to a recorded entry looks the account up under the
    id as it was typed, while the ledger holds it under its upper-case
    form. For a message [/<id> <expr> ...] with a [guarded] expression
    and an id that is not the upper-case form of any name, in a state
    whose keys are all upper-case forms of names: when the entry is
    recorded, the handler raises [KeyError] instead of replying, and
    the state is the one with the recorded entry. *)
Theorem typed_id_not_in_upper_case_raises_after_recording :
  forall text st acc rest expr more q,
    (forall k, In k (keys (accounts st)) -> exists name, k = upper name) ->
    (forall name, upper name <> acc) ->
    String.eqb (lower (strip text)) "yasha, verified" = false ->
    starts_with_slash (strip text) = true ->
    match_rate (message_body text) = None ->
    match_account_entry (message_body text) = Some (acc, rest) ->
    split_once rest = expr :: more ->
    guarded expr = true ->
    fst (record acc expr (hd "" more) st) = Ret (Applied q) ->
    handle text st = (Raised KeyError, snd (record acc expr (hd "" more) st)).
Proof.
  intros text st acc rest expr more q S U H1 H2 H3 H4 H5 _ R.
  rewrite (handle_entry text st acc rest expr more H1 H2 H3 H4 H5).
  assert (forall k,
             In k (keys (accounts (snd (record acc expr (hd "" more) st)))) ->
             exists name, k = upper name) as UP.
  { intros k Hk. apply keys_record in Hk. destruct Hk as [Hk| ->]; eauto. }
  unfold book, book_entry. fold record.
  destruct (record acc expr (hd "" more) st) as [r st'] eqn:E.
  simpl in R. subst r. simpl in UP. cbn [snd].
  destruct (lookup acc (accounts st')) as [info|] eqn:L; [|reflexivity].
  exfalso. apply lookup_In in L.
  destruct (UP acc) as [name N].
  - change acc with (fst (acc, info)). now apply in_map.
  - apply (U name). congruence.
Qed.

(** X18. [message_handler] on a text that is not the phrase of the
    archival changes the state only in the branch of a bookkeeping
    entry [/<id> <expr> ...] that is not a rate query: the rate query,
    the address lookup, the fallback and the calculator on a [guarded]
    text leave the ledger, the archive, the files and the clock as they
    were. *)
Theorem only_entries_and_archival_change_state :
  forall text st,
    String.eqb (lower (strip text)) "yasha, verified" = false ->
    starts_with_slash (strip text) = false
    \/ (exists x, match_rate (message_body text) = Some x)
    \/ (match_account_entry (message_body text) = None
        /\ guarded (message_body text) = true) ->
    snd (handle text st) = st.
Proof.
  intros text st H1 H. unfold handle, message_handler. rewrite H1.
  destruct (starts_with_slash (strip text)) eqn:H2.
  - fold (message_body text).
    assert (forall g2 g3,
               snd (rate_reply rate_query g2 g3 st) = st) as Rate.
    { intros g2 g3. unfold rate_reply.
      destruct (float_of_amount _); [|reflexivity].
      now destruct (rate_query g2 a). }
    destruct (match_rate (message_body text)) as [[g2 g3]|] eqn:H3; [apply Rate|].
    destruct H as [H|[[x H]|[H _]]]; try discriminate. rewrite H.
    unfold calculator_reply.
    destruct (eval_expression_with_percent _ _); [|reflexivity].
    now destruct (format_amount f 8).
  - now destruct (match_address (strip text)).
Qed.

(** X19. The expression of an entry that [message_handler] records is
    the first word after the id, and the comment is what follows the
    white space after that word. Whenever the handler, on a message
    whose evaluated text is [guarded], adds an entry to the history of
    an account: the message is a bookkeeping entry, the account is the
    one of its id in upper case, the expression of the entry is not
    empty and holds no white space, and the text after the id is that
    expression, white space, and the comment of the entry. An
    expression typed with blanks is cut at the first of them. *)
Theorem recorded_expression_is_one_word :
  forall text st k e,
    NoDup (keys (accounts st)) ->
    guarded_message lower text = true ->
    history_of k (snd (handle text st)) = (history_of k st ++ [e])%list ->
    exists acc rest more,
      match_account_entry (message_body text) = Some (acc, rest)
      /\ split_once rest = tx_expr e :: more
      /\ k = upper acc
      /\ tx_comment e = hd "" more
      /\ tx_expr e <> "" /\ all_chars no_space (tx_expr e) = true
      /\ exists w0 w,
          blank_text w0 /\ blank_text w
          /\ rest = w0 ++ tx_expr e ++ w ++ tx_comment e.
Proof.
  intros text st k e ND _ H.
  assert (forall l : list Transaction, l <> (l ++ [e])%list) as Grow.
  { intros l E. apply (f_equal (@List.length _)) in E.
    rewrite length_app in E. simpl in E. lia. }
  assert (forall st1, history_of k st1 = history_of k st ->
                      history_of k st1 <> (history_of k st ++ [e])%list) as Same.
  { intros st1 E. rewrite E. apply Grow. }
  unfold handle, message_handler in H.
  destruct (String.eqb (lower (strip text)) "yasha, verified") eqn:H1.
  { exfalso. unfold react in H.
    rewrite (archive_verified_state utcnow_isoformat st ND) in H. simpl in H.
    unfold history_of in H at 1. simpl in H. rewrite lookup_cleared in H.
    destruct (lookup k (accounts st)); simpl in H;
      now destruct (history_of k st). }
  destruct (starts_with_slash (strip text)) eqn:H2;
    [|exfalso; revert H; destruct (match_address (strip text)); now apply Same].
  fold (message_body text) in H.
  destruct (match_rate (message_body text)) as [[g2 g3]|] eqn:H3.
  { exfalso. revert H. apply Same. unfold rate_reply.
    destruct (float_of_amount _); [|reflexivity].
    now destruct (rate_query g2 a). }
  destruct (match_account_entry (message_body text)) as [[acc rest]|] eqn:H4.
  2:{ exfalso. revert H. apply Same. unfold calculator_reply.
      destruct (eval_expression_with_percent _ _); [|reflexivity].
      now destruct (format_amount f 8). }
  destruct (split_once rest) as [|expr more] eqn:H5;
    [exfalso; revert H; now apply Same|].
  destruct (split_once_word rest expr more H5) as [W1 W2].
  destruct (split_once_parts rest expr more H5) as [_ Parts].
  assert (history_of k (snd (record acc expr (hd "" more) st))
          = (history_of k st ++ [e])%list) as H'.
  { rewrite <- book_entry_state. unfold book. destruct more; exact H. }
  clear H. unfold record in H'. rewrite record_after_creation in H'.
  set (k0 := upper acc) in *.
  set (st1 := if mem k0 (accounts st) then st
              else snd (add_account upper k0 2 st)) in *.
  assert (history_of k st1 = history_of k st) as E1.
  { subst st1. destruct (mem k0 (accounts st)); [reflexivity|].
    destruct (mem (upper k0) (accounts st)) eqn:M.
    - now rewrite add_account_existing by exact M.
    - rewrite add_account_new by exact M. unfold history_of. simpl.
      destruct (String.eqb k (upper k0)) eqn:Q.
      + apply String.eqb_eq in Q. subst k.
        rewrite lookup_app_new by exact M.
        apply mem_lookup_none in M. now rewrite M.
      + apply String.eqb_neq in Q. now rewrite lookup_app_other. }
  clearbody st1.
  destruct (eval_expression_with_percent py_eval_float expr) as [val|];
    [|exfalso; revert H'; now apply Same].
  destruct (lookup k0 (accounts st1)) as [info|] eqn:L0;
    [|exfalso; revert H'; now apply Same].
  destruct (quantize val (get_digits info)) as [d|x];
    [|exfalso; revert H'; now apply Same].
  cbv zeta in H'. unfold history_of in H' at 1. cbn [snd accounts] in H'.
  destruct (String.eqb k0 k) eqn:Q.
  - apply String.eqb_eq in Q. subst k.
    rewrite (lookup_update_same _ _ _ _ L0) in H'. simpl in H'.
    rewrite <- E1 in H'. unfold history_of in H' at 1. rewrite L0 in H'.
    apply app_inv_head in H'. inversion H'; subst e. simpl.
    exists acc, rest, more. now repeat split.
  - exfalso. apply String.eqb_neq in Q.
    rewrite lookup_update_other in H' by exact Q.
    revert H'. now apply Same.
Qed.

End HandlerProperties.

(** ** Ids that read as currency pairs *)

Lemma letter_not_separator :
  forall c, is_letter c = true -> is_pair_separator c = false.
Proof. intros c. each_ascii c. Qed.

Lemma letter_not_space : forall c, is_letter c = true -> is_space c = false.
Proof. intros c. each_ascii c. Qed.

Lemma space_not_letter : forall c, is_space c = true -> is_letter c = false.
Proof. intros c. each_ascii c. Qed.

Lemma amount_char_not_letter :
  forall c, is_amount_char c = true -> is_letter c = false.
Proof. intros c. each_ascii c. Qed.

Lemma amount_char_not_space :
  forall c, is_amount_char c = true -> is_space c = false.
Proof. intros c. each_ascii c. Qed.

Lemma span_chars_all :
  forall p s, all_chars p s = true -> span_chars p s = (s, "").
Proof.
  intros p. induction s as [|c s IH]; simpl; intros H; [reflexivity|].
  apply andb_true_iff in H. destruct H as [H1 H2]. now rewrite H1, IH.
Qed.

(** The text after an id: white space, then an amount. *)
Lemma take_letter_after_id :
  forall w amt n,
    blank_text w -> all_chars is_amount_char amt = true ->
    take_chars is_letter (S n) (w ++ amt) = None.
Proof.
  intros [|c w] amt n W A; simpl.
  - destruct amt as [|a amt]; [reflexivity|]. simpl in A.
    apply andb_true_iff in A. destruct A as [A _].
    now rewrite (amount_char_not_letter a A).
  - unfold blank_text in W. simpl in W. apply andb_true_iff in W.
    destruct W as [W _]. now rewrite (space_not_letter c W).
Qed.

Lemma amount_after_id :
  forall w amt,
    blank_text w -> all_chars is_amount_char amt = true ->
    match_amount_tail (w ++ amt) = Some amt.
Proof.
  intros w amt W A. unfold match_amount_tail.
  rewrite lstrip_blank_append by exact W.
  assert (lstrip amt = amt) as E.
  { destruct amt as [|a amt]; [reflexivity|]. simpl in A.
    apply andb_true_iff in A. destruct A as [A _].
    apply lstrip_fixed. now apply amount_char_not_space. }
  rewrite E, (span_chars_all _ _ A). reflexivity.
Qed.

Lemma take_chars_S :
  forall p n c r,
    take_chars p (S n) (String c r)
    = if p c then
        match take_chars p n r with
        | Some (d, t) => Some (String c d, t)
        | None => None
        end
      else None.
Proof. reflexivity. Qed.

Lemma take_chars_O : forall p s, take_chars p 0 s = Some ("", s).
Proof. reflexivity. Qed.

Ltac letters_of H :=
  simpl in H;
  repeat match type of H with
         | (_ && _) = true => apply andb_true_iff in H; destruct H as [? H]
         end.

Ltac use_letters :=
  repeat match goal with
         | L : is_letter ?c = true |- context [is_letter ?c] => rewrite L
         | L : is_letter ?c = true |- context [is_pair_separator ?c] =>
             rewrite (letter_not_separator c L)
         | L : is_letter ?c = true |- context [is_space ?c] =>
             rewrite (letter_not_space c L)
         end.

Lemma match_rate_of_letters :
  forall id w amt,
    all_chars is_letter id = true ->
    (6 <= String.length id <= 8)%nat ->
    blank_text w -> all_chars is_amount_char amt = true ->
    match_rate (id ++ w ++ amt) = Some (id, amt).
Proof.
  intros id w amt L N W A.
  pose proof (amount_after_id w amt W A) as T.
  pose proof (fun n => take_letter_after_id w amt n W A) as S.
  destruct id as [|c1 [|c2 [|c3 [|c4 [|c5 [|c6 [|c7 [|c8 [|c9 id]]]]]]]]];
    simpl in N; try lia; letters_of L;
    unfold match_rate, match_rate_prefix, match_pair, first_match, match_pair_with;
    repeat first
      [ rewrite take_chars_S | rewrite take_chars_O | rewrite S | rewrite T
      | progress use_letters | progress rewrite ?andb_false_r
      | progress cbn [append] | progress cbv beta iota ];
    reflexivity.
Qed.

(** X20. An id of 6 to 8 letters reads as a currency pair. A message
    [/<id> <amount>] with such an id and an amount of digits, points
    and commas (or none) is answered as a rate query, with the id as
    the pair: nothing is recorded, the state is as before, and the
    reaction is the text of a failed lookup or a [ValueError], for an
    amount that is no number and for the three values of a conversion,
    which do not unpack. *)
Theorem id_of_6_to_8_letters_is_a_rate_query :
  forall py_eval_float upper lower utcnow_isoformat rate_query address_reply
         text st id w amt,
    String.eqb (lower (strip text)) "yasha, verified" = false ->
    starts_with_slash (strip text) = true ->
    message_body text = id ++ w ++ amt ->
    all_chars is_letter id = true ->
    (6 <= String.length id <= 8)%nat ->
    blank_text w -> all_chars is_amount_char amt = true ->
    let r := message_handler py_eval_float upper lower utcnow_isoformat
               rate_query address_reply text st in
    r = rate_reply rate_query id amt st
    /\ snd r = st
    /\ (fst r = Raised ValueError
        \/ exists amount info,
            rate_query id amount = RateFailure info /\ fst r = Replied info).
Proof.
  intros f upper lower u rq ar text st id w amt H1 H2 B L N W A r.
  assert (r = rate_reply rq id amt st) as E.
  { subst r. unfold message_handler. rewrite H1, H2.
    fold (message_body text). rewrite B.
    now rewrite (match_rate_of_letters id w amt L N W A). }
  split; [exact E|]. rewrite E. unfold rate_reply.
  destruct (float_of_amount _) as [amount|e] eqn:F.
  - destruct (rq id amount) as [info|] eqn:Q; simpl.
    + split; [reflexivity|]. right. eauto.
    + split; [reflexivity|]. now left.
  - simpl. split; [reflexivity|]. left.
    revert F. unfold float_of_amount.
    destruct (span_digits _) as [ip r0]. destruct r0 as [|c r'].
    + destruct ip; [|discriminate]. intros F. now inversion F.
    + destruct (span_digits r') as [fp r''].
      destruct (_ && _); [discriminate|]. intros F. now inversion F.
Qed.

(** ** The calculator and the account commands *)

(** X21. The calculator shows 8 decimals and therefore takes values
    below 10^20 only. For a message [/<text>] that is neither a rate
    query nor a bookkeeping entry and whose text is [guarded] and evaluates to a finite
    float of magnitude [num / den]: when that magnitude is
    10^20 - 0.000000005 or more the handler raises [InvalidOperation]
    instead of replying; when it is less the reply is the text, " = ",
    and the value rounded half up to 8 decimals, with its sign, at
    least one digit before the point and 8 after it. The state is not
    touched. *)
Theorem calculator_shows_8_decimals_below_1e20 :
  forall py_eval_float upper lower utcnow_isoformat rate_query address_reply
         text st s m e,
    String.eqb (lower (strip text)) "yasha, verified" = false ->
    starts_with_slash (strip text) = true ->
    match_rate (message_body text) = None ->
    match_account_entry (message_body text) = None ->
    guarded (message_body text) = true ->
    eval_expression_with_percent py_eval_float (message_body text)
    = Some (S754_finite s m e) ->
    let x := S754_finite s m e in
    let num := fst (magnitude x) in
    let den := Zpos (snd (magnitude x)) in
    let r := message_handler py_eval_float upper lower utcnow_isoformat
               rate_query address_reply text st in
    (2 * 10 ^ 28 * den <= 2 * (num * 10 ^ 8) + den ->
     r = (Raised InvalidOperation, st))
    /\ (2 * (num * 10 ^ 8) + den < 2 * 10 ^ 28 * den ->
        exists ip fp,
          r = (Replied (message_body text ++ " = "
                        ++ (if s then "-" else "") ++ ip ++ "." ++ fp), st)
          /\ ip <> ""
          /\ all_chars is_digit (ip ++ fp) = true
          /\ String.length fp = 8%nat
          /\ digits_value 0 (ip ++ fp) = rescale_half_up x (- (8))).
Proof.
  intros f upper lower u rq ar text st s m e H1 H2 H3 H4 _ He x num den r.
  assert (r = calculator_reply f (message_body text) st) as E.
  { subst r. unfold message_handler. rewrite H1, H2.
    fold (message_body text). now rewrite H3, H4. }
  rewrite E. unfold calculator_reply. rewrite He. fold x.
  destruct (quantize_finite_bound s m e 8 ltac:(lia)) as [Hi Lo].
  fold x in Hi, Lo. fold num in Hi, Lo. fold den in Hi, Lo.
  split; intros Hb.
  - unfold format_amount. now rewrite (Hi Hb).
  - assert (rescale_half_up x (- (8)) < 10 ^ 28) as K.
    { pose proof (quantize_finite s m e 8 ltac:(lia)) as Q. cbv zeta in Q.
      fold x in Q. rewrite (Lo Hb) in Q.
      destruct (10 ^ context_prec <=? rescale_half_up x (- (8))) eqn:C;
        [discriminate|]. apply Z.leb_gt in C. exact C. }
    destruct (format_amount_text s m e 8 ltac:(lia) K)
      as (ip & fp & F & N & D & L & V).
    fold x in F. exists ip, fp. rewrite F. simpl (8 =? 0).
    split; [reflexivity|]. split; [exact N|]. split; [exact D|].
    split; [lia | exact V].
Qed.

(** X22. The commands [/add] and [/delete]. Without a name they
    answer with their usage and change nothing; digits that are no
    integer raise [ValueError] before anything is changed. [/add <name>]
    for a new name creates the account with 2 digits, and [/delete]
    with the same name, in any case of its letters, removes it again:
    the ledger is the one of before. *)
Theorem add_and_delete_commands :
  forall upper py_int st,
    add_cmd upper py_int [] st = (Replied "Usage: /add usd [digits]", st)
    /\ delete_cmd upper [] st = (Replied "Usage: /delete usd", st)
    /\ (forall name d more,
           py_int d = None ->
           add_cmd upper py_int (name :: d :: more) st = (Raised ValueError, st))
    /\ (forall name name' more,
           ~ In (upper name) (keys (accounts st)) ->
           upper name' = upper name ->
           let r1 := add_cmd upper py_int [name] st in
           let r2 := delete_cmd upper (name' :: more) (snd r1) in
           fst r1 = Replied ("The account was added. The accuracy of 2 digits"
                             ++ " after the decimal point is established.")
           /\ lookup (upper name) (accounts (snd r1))
              = Some (mkAccount (S754_zero false) (Some 2) [])
           /\ fst r2 = Replied "The account was deleted."
           /\ accounts (snd r2) = accounts st).
Proof.
  intros upper py_int st.
  split; [reflexivity|]. split; [reflexivity|]. split.
  - intros name d more H. unfold add_cmd. now rewrite H.
  - intros name name' more Hn Hu r1 r2.
    pose proof Hn as Hm. apply not_mem_In in Hm.
    assert (r1 = (Replied ("The account was added. The accuracy of 2 digits"
                           ++ " after the decimal point is established."),
                  snd (add_account upper name 2 st))) as E1.
    { subst r1. unfold add_cmd, react, bind.
      now rewrite (add_account_new upper st name 2 Hm). }
    subst r2. rewrite E1. cbn [fst snd].
    rewrite (add_account_new upper st name 2 Hm). cbn [snd accounts].
    split; [reflexivity|]. split; [now apply lookup_app_new|].
    unfold delete_cmd, react, bind.
    rewrite delete_account_existing.
    + cbn [fst snd accounts]. split; [reflexivity|].
      rewrite Hu. now apply dict_del_new.
    + cbn [accounts]. rewrite Hu. unfold mem. now rewrite lookup_app_new.
Qed.

(** ** The further properties at concrete inputs *)

Lemma create_then_delete_restores_ledger_witness :
  let st := Chat.run_all [CmdAdd "eur" 2; CmdRecord "gbp" "5" ""] initial_state in
  keys (accounts (snd (Sample.add "usd" 3 st))) = ["EUR"; "GBP"; "USD"]
  /\ lookup "GBP" (accounts (snd (Sample.add "usd" 3 st)))
     = lookup "GBP" (accounts st)
  /\ accounts (snd (Sample.delete "Usd" (snd (Sample.add "usd" 3 st))))
     = accounts st.
Proof.
  intros st.
  destruct (create_then_delete_restores_ledger Sample.upper st "usd" 3)
    as (P & _ & O & _ & _).
  - vm_compute. intros [H|[H|[]]]; discriminate.
  - split; [|split].
    + unfold Sample.add. rewrite P. reflexivity.
    + apply O. discriminate.
    + reflexivity.
Defined.

Lemma delete_removes_one_account_witness :
  let st := Chat.run_all [CmdAdd "usd" 2; CmdAdd "eur" 2] initial_state in
  lookup "USD" (accounts (snd (Sample.delete "Usd" st))) = None
  /\ lookup "EUR" (accounts (snd (Sample.delete "Usd" st)))
     = lookup "EUR" (accounts st).
Proof.
  intros st.
  destruct (delete_removes_one_account Sample.upper st "Usd")
    as (_ & N & O & _).
  - vm_compute. repeat constructor; simpl; intuition discriminate.
  - vm_compute. left. reflexivity.
  - split; [exact N|]. apply O. vm_compute. discriminate.
Defined.

Lemma account_ids_are_distinct_upper_case_witness :
  let cs := [CmdAdd "usd" 2; CmdDelete "usd"; CmdRecord "eur" "5" "";
             CmdAdd "Eur" 3; CmdRecord "gbp" "1+10%" ""] in
  exists name, In name (given_names cs) /\ "GBP" = Sample.upper name.
Proof.
  intros cs.
  destruct (account_ids_are_distinct_upper_case
              Py.eval_float Sample.upper Sample.lower Sample.utcnow_isoformat
              Sample.date_and_time cs) as (_ & G & _).
  - reflexivity.
  - intros name [<-|[<-|[<-|[<-|[]]]]]; reflexivity.
  - apply G. vm_compute. right. left. reflexivity.
Defined.

Lemma first_recording_creates_account_witness :
  let r := Sample.record "xyz" "5+5" "test" initial_state in
  fst r = Ret (Applied (float_of_Z 10))
  /\ lookup "XYZ" (accounts (snd r))
     = Some (mkAccount (fadd (S754_zero false) (float_of_Z 10)) (Some 2)
               [mkTransaction (Sample.utcnow_isoformat 0) (float_of_Z 10)
                  "5+5" "test"]).
Proof.
  intros r.
  destruct (first_recording_creates_account Py.eval_float Sample.upper
              Sample.utcnow_isoformat initial_state "xyz" "5+5" "test"
              (float_of_Z 10) (Dec false 1000 (-2)))
    as (R & L & _).
  - vm_compute. intros [].
  - reflexivity.
  - reflexivity.
  - reflexivity.
  - reflexivity.
  - split; [exact R | exact L].
Defined.

Lemma recording_touches_one_account_witness :
  let st := Chat.run_all [CmdAdd "usd" 2; CmdAdd "eur" 2] initial_state in
  lookup "EUR" (accounts (snd (Sample.record "usd" "5" "" st)))
  = lookup "EUR" (accounts st).
Proof.
  intros st.
  apply (proj1 (recording_touches_one_account Py.eval_float Sample.upper
                  Sample.utcnow_isoformat st "usd" "5" "" eq_refl));
    vm_compute; discriminate.
Defined.

Lemma digits_fixed_history_append_only_witness :
  let st := Chat.run_all [CmdAdd "usd" 3] initial_state in
  exists a',
    lookup "USD" (accounts (Chat.run_all [CmdRecord "usd" "5" ""] st)) = Some a'
    /\ acc_digits a' = Some 3.
Proof.
  intros st.
  destruct (digits_fixed_history_append_only Py.eval_float Sample.upper Sample.lower
              Sample.utcnow_isoformat Sample.date_and_time
              (CmdRecord "usd" "5" "") st "USD"
              (mkAccount (S754_zero false) (Some 3) []))
    as (a' & L & D & _).
  - vm_compute. repeat constructor; simpl; intuition discriminate.
  - reflexivity.
  - reflexivity.
  - reflexivity.
  - exists a'. split; [exact L | exact D].
Defined.

Lemma recording_infinity_and_nan_witness :
  let st := Chat.run_all [CmdAdd "usd" 2] initial_state in
  let big := "9999999999999999999999999999999999999999999999999999999999999999999999999999999999999999999999999999999999999999999999999999999999999999999999999999999999999999999999999999999999999999999999999999999999999999999999999999999999999999999999999999999999999999999999999999999999999999999999999999999999999999999999999999999999999999999.0" in
  Sample.record "usd" big "" st = (Raise InvalidOperation, st)
  /\ fst (Sample.record "usd" (big ++ "-" ++ big) "" st) = Ret (Applied S754_nan).
Proof.
  intros st big.
  destruct (recording_infinity_and_nan Py.eval_float Sample.upper
              Sample.utcnow_isoformat st "usd" big ""
              (mkAccount (S754_zero false) (Some 2) []))
    as (I & _ & _); [reflexivity | vm_compute; discriminate | reflexivity |].
  destruct (recording_infinity_and_nan Py.eval_float Sample.upper
              Sample.utcnow_isoformat st "usd" (big ++ "-" ++ big) ""
              (mkAccount (S754_zero false) (Some 2) []))
    as (_ & N & _); [reflexivity | vm_compute; discriminate | reflexivity |].
  split.
  - apply (I false). vm_compute. reflexivity.
  - apply N. vm_compute. reflexivity.
Defined.

Lemma recording_refuses_more_than_28_digits_witness :
  let st := Chat.run_all [CmdAdd "usd" 8] initial_state in
  Sample.record "usd" "100000000000000000000" "" st = (Raise InvalidOperation, st)
  /\ fst (Sample.record "usd" "12345.678" "n" st)
     = Ret (Applied (float_of_number "12345.678"))
  /\ lookup "USD" (accounts (snd (Sample.record "usd" "12345.678" "n" st)))
     = Some (mkAccount (fadd (S754_zero false) (float_of_number "12345.678"))
               (Some 8)
               [mkTransaction (Sample.utcnow_isoformat 0)
                  (float_of_number "12345.678") "12345.678" "n"]).
Proof.
  intros st. split.
  - apply (recording_refuses_more_than_28_digits Py.eval_float Sample.upper
             Sample.utcnow_isoformat st "usd" "100000000000000000000" ""
             (mkAccount (S754_zero false) (Some 8) [])
             false 6103515625000000%positive 14).
    + reflexivity.
    + vm_compute. split; discriminate.
    + reflexivity.
    + vm_compute. reflexivity.
    + vm_compute. discriminate.
  - destruct (recording_refuses_more_than_28_digits Py.eval_float
                Sample.upper Sample.utcnow_isoformat st "usd" "12345.678" "n"
                (mkAccount (S754_zero false) (Some 8) [])
                false 6787108256889176%positive (-39))
      as [_ T].
    + reflexivity.
    + vm_compute. split; discriminate.
    + reflexivity.
    + vm_compute. reflexivity.
    + destruct T as (R & L & _); [vm_compute; reflexivity|].
      split; [exact R | exact L].
Defined.

Lemma balances_listing_witness :
  let st := Chat.run_all [CmdAdd "eur" 3; CmdRecord "usd" "0.125" ""] initial_state in
  give_balances Sample.lower st
  = (Ret ("Of your funds:" ++ String newline (join_lines ["0.000 eur"; "0.13 usd"])),
     st).
Proof.
  intros st.
  apply (balances_listing Sample.lower st ["0.000 eur"; "0.13 usd"]).
  set (l := accounts st). vm_compute in l. subst l.
  constructor; [exists "0.000"; split; reflexivity|].
  constructor; [exists "0.13"; split; reflexivity|].
  constructor.
Defined.

Lemma negative_digits_break_balances_witness :
  let st1 := snd (add_cmd Sample.upper Chat.py_int ["tmp"; "-1"] initial_state) in
  exists e,
    give_cmd Sample.upper Sample.lower Sample.date_and_time [] st1 = (Raised e, st1).
Proof.
  intros st1.
  destruct (proj2 negative_digits_break_balances Sample.upper Sample.lower
              Sample.date_and_time Chat.py_int initial_state "tmp" "-1" [] (-1))
    as [_ G].
  - reflexivity.
  - reflexivity.
  - vm_compute. intros [].
  - exact G.
Defined.

Lemma statement_shows_last_20_newest_first_witness :
  let st :=
    Chat.run_all [CmdRecord "usd" "5" "a"; CmdRecord "usd" "2.5" "b"] initial_state in
  give_cmd Sample.upper Sample.lower Sample.date_and_time ["usd"] st
  = (Replied (join_lines ["Details /USD"; " sum          date  time  comment";
                          "      2.50 17.05 10:30 b"; "      5.00 17.05 10:30 a"]),
     st).
Proof.
  intros st.
  apply (statement_shows_last_20_newest_first Sample.upper Sample.lower
           Sample.date_and_time st "usd" []
           (mkAccount (fadd (fadd (S754_zero false) (float_of_Z 5))
                         (float_of_number "2.5"))
              (Some 2)
              [mkTransaction (Sample.utcnow_isoformat 0) (float_of_Z 5) "5" "a";
               mkTransaction (Sample.utcnow_isoformat 1) (float_of_number "2.5")
                 "2.5" "b"])
           ["      2.50 17.05 10:30 b"; "      5.00 17.05 10:30 a"]).
  - reflexivity.
  - cbn [acc_history rev firstn app].
    constructor; [exists "2.50"; split; reflexivity|].
    constructor; [exists "5.00"; split; reflexivity|].
    constructor.
Defined.

Lemma format_amount_shows_rounded_value_witness :
  exists ip fp,
    format_amount (fneg (float_of_number "0.125")) 2
    = Ret ("-" ++ ip ++ "." ++ fp)
    /\ digits_value 0 (ip ++ fp) = 13.
Proof.
  destruct (format_amount_shows_rounded_value true 4503599627370496%positive (-55) 2)
    as (ip & fp & F & _ & _ & _ & V).
  - vm_compute. split; discriminate.
  - vm_compute. reflexivity.
  - exists ip, fp. split; [exact F | exact V].
Defined.

Lemma blank_text_is_not_evaluated_witness :
  eval_expression_with_percent Py.eval_float "   " = None.
Proof.
  apply (blank_text_is_not_evaluated Py.eval_float "   "). reflexivity.
Defined.

Lemma text_without_percent_is_evaluated_as_it_is_witness :
  eval_expression_with_percent Py.eval_float " 2+3*4 "
  = safe_eval Py.eval_float " 2+3*4 ".
Proof.
  apply (text_without_percent_is_evaluated_as_it_is Py.eval_float " 2+3*4 ").
  reflexivity.
Defined.

Lemma percent_suffix_match_is_exact_witness :
  exists w1 w2 tail,
    "200 - 25 %" = "200 " ++ String "-" (w1 ++ "25" ++ w2 ++ String "%" tail)
    /\ blank_text w1 /\ blank_text w2 /\ at_end tail = true.
Proof.
  apply (percent_suffix_match_is_exact "200 - 25 %" "200 " "-"%char "25").
  reflexivity.
Defined.

Lemma typed_id_not_in_upper_case_raises_after_recording_witness :
  Chat.handle "/usd 5+5 lunch" initial_state
  = (Raised KeyError, snd (Sample.record "usd" "5+5" "lunch" initial_state)).
Proof.
  apply (typed_id_not_in_upper_case_raises_after_recording
           Py.eval_float Sample.upper Sample.lower Sample.utcnow_isoformat
           Chat.rate_query Chat.address_reply
           "/usd 5+5 lunch" initial_state "usd" "5+5 lunch" "5+5" ["lunch"]
           (float_of_Z 10)).
  - intros k [].
  - intros [|c name] E; [discriminate|].
    apply (f_equal (fun s => match s with String c _ => c | _ => " "%char end)) in E.
    simpl in E. revert E. unfold Sample.upper_char.
    destruct (_ && _)%N eqn:B; [|intros ->; discriminate].
    intros E. apply (f_equal N_of_ascii) in E. rewrite N_ascii_embedding in E.
    + apply andb_true_iff in B. destruct B as [B1 B2].
      apply N.leb_le in B1, B2. vm_compute (N_of_ascii "u") in E. lia.
    + apply andb_true_iff in B. destruct B as [B1 B2].
      apply N.leb_le in B1, B2. lia.
  - reflexivity.
  - reflexivity.
  - reflexivity.
  - reflexivity.
  - reflexivity.
  - reflexivity.
  - reflexivity.
Defined.

Lemma only_entries_and_archival_change_state_witness :
  snd (Chat.handle "/2+3*4" initial_state) = initial_state
  /\ snd (Chat.handle "hello" initial_state) = initial_state.
Proof.
  split.
  - apply (only_entries_and_archival_change_state Py.eval_float Sample.upper
             Sample.lower Sample.utcnow_isoformat Chat.rate_query
             Chat.address_reply "/2+3*4" initial_state).
    + reflexivity.
    + right. right. split; reflexivity.
  - apply (only_entries_and_archival_change_state Py.eval_float Sample.upper
             Sample.lower Sample.utcnow_isoformat Chat.rate_query
             Chat.address_reply "hello" initial_state).
    + reflexivity.
    + left. reflexivity.
Defined.

Lemma recorded_expression_is_one_word_witness :
  exists acc rest more,
    match_account_entry (message_body "/USD 5 + 5 lunch") = Some (acc, rest)
    /\ split_once rest = "5" :: more
    /\ "+ 5 lunch" = hd "" more.
Proof.
  destruct (recorded_expression_is_one_word Py.eval_float Sample.upper Sample.lower
              Sample.utcnow_isoformat Chat.rate_query Chat.address_reply
              "/USD 5 + 5 lunch" initial_state "USD"
              (mkTransaction (Sample.utcnow_isoformat 0) (float_of_Z 5) "5" "+ 5 lunch"))
    as (acc & rest & more & M & S & _ & C & _).
  - constructor.
  - reflexivity.
  - reflexivity.
  - exists acc, rest, more. split; [exact M|]. split; [exact S | exact C].
Defined.

Lemma id_of_6_to_8_letters_is_a_rate_query_witness :
  Chat.handle "/savings 100,5" initial_state
  = rate_reply Chat.rate_query "savings" "100,5" initial_state.
Proof.
  apply (id_of_6_to_8_letters_is_a_rate_query Py.eval_float Sample.upper
           Sample.lower Sample.utcnow_isoformat Chat.rate_query Chat.address_reply
           "/savings 100,5" initial_state "savings" " " "100,5").
  - reflexivity.
  - reflexivity.
  - reflexivity.
  - reflexivity.
  - simpl. lia.
  - reflexivity.
  - reflexivity.
Defined.

Lemma calculator_shows_8_decimals_below_1e20_witness :
  Chat.handle "/100000000000000000000" initial_state
  = (Raised InvalidOperation, initial_state)
  /\ exists ip fp,
      Chat.handle "/12345.678" initial_state
      = (Replied ("12345.678 = " ++ ip ++ "." ++ fp), initial_state)
      /\ String.length fp = 8%nat.
Proof.
  split.
  - apply (calculator_shows_8_decimals_below_1e20 Py.eval_float Sample.upper
             Sample.lower Sample.utcnow_isoformat Chat.rate_query Chat.address_reply
             "/100000000000000000000" initial_state
             false 6103515625000000%positive 14);
      try reflexivity.
    vm_compute. discriminate.
  - destruct (proj2 (calculator_shows_8_decimals_below_1e20 Py.eval_float
                       Sample.upper Sample.lower Sample.utcnow_isoformat
                       Chat.rate_query Chat.address_reply
                       "/12345.678" initial_state
                       false 6787108256889176%positive (-39)
                       eq_refl eq_refl eq_refl eq_refl eq_refl eq_refl))
      as (ip & fp & R & _ & _ & L & _).
    + vm_compute. reflexivity.
    + exists ip, fp. split; [exact R | exact L].
Defined.

Lemma add_and_delete_commands_witness :
  let r1 := add_cmd Sample.upper Chat.py_int ["usd"] initial_state in
  add_cmd Sample.upper Chat.py_int ["usd"; "two"] initial_state
  = (Raised ValueError, initial_state)
  /\ accounts (snd (delete_cmd Sample.upper ["USD"] (snd r1)))
     = accounts initial_state.
Proof.
  intros r1.
  destruct (add_and_delete_commands Sample.upper Chat.py_int initial_state)
    as (_ & _ & V & D).
  split.
  - apply V. reflexivity.
  - destruct (D "usd" "USD" []) as (_ & _ & _ & A).
    + vm_compute. intros [].
    + reflexivity.
    + exact A.
Defined.
